(** * Method tracer of the ART runtime (runtime/trace.cc)

    A shallow embedding of the trace record codec, the trace header, the
    event logging path, the start/stop life cycle and the finalisation step
    of [runtime/trace.cc], with the properties of the method-tracer
    specification stated and proved over it.

    Conventions of the embedding.
    - Fixed-width integers are [Z] with the conversion of the C++ type
      written out ([uint8_t], [uint16_t], [uint32_t], [uint64_t],
      [int32_t]).
    - Pointers of the 32-bit target ([mirror::AbstractMethod*], [Thread*])
      are their addresses, in [Z].
    - The event buffer [buf_] is a [list Z] of bytes; [buf + p] is the
      index [p].
    - [MicroTime()] and [ThreadCpuMicroTime()] read an oracle that numbers
      its reads, so that what a function reads and how often is visible.
    - [SafeMap<Thread*, uint64_t>] is a [gmap Z Z]. *)

From Stdlib Require Import ZArith Lia Bool Ascii String DecimalString HexadecimalString
  Sorted.
From stdpp Require Import base numbers list strings gmap.

Local Open Scope Z_scope.

(** ** Fixed-width integers *)

Definition uint8_t (x : Z) : Z := x mod 2 ^ 8.
Definition uint16_t (x : Z) : Z := x mod 2 ^ 16.
Definition uint32_t (x : Z) : Z := x mod 2 ^ 32.
Definition uint64_t (x : Z) : Z := x mod 2 ^ 64.
Definition int32_t (x : Z) : Z := (x + 2 ^ 31) mod 2 ^ 32 - 2 ^ 31.

Definition INT32_MAX : Z := 2 ^ 31 - 1.

(** ** Constants and enumerations of trace.cc *)

(** [enum TraceAction]; the mask is an enumerator of the same enum. *)
Inductive TraceAction : Set :=
  | kTraceMethodEnter
  | kTraceMethodExit
  | kTraceUnroll
  | kTraceMethodActionMask.

Definition TraceAction_value (a : TraceAction) : Z :=
  match a with
  | kTraceMethodEnter => 0
  | kTraceMethodExit => 1
  | kTraceUnroll => 2
  | kTraceMethodActionMask => 3
  end.

(** [static_cast<TraceAction>(v)] for a value [v] of two bits. *)
Definition TraceAction_of_value (v : Z) : TraceAction :=
  if v =? 0 then kTraceMethodEnter
  else if v =? 1 then kTraceMethodExit
  else if v =? 2 then kTraceUnroll
  else kTraceMethodActionMask.

Definition kTraceHeaderLength : Z := 32.
Definition kTraceMagicValue : Z := 0x574f4c53.
Definition kTraceVersionSingleClock : Z := 2.
Definition kTraceVersionDualClock : Z := 3.
Definition kTraceRecordSizeSingleClock : Z := 10.
Definition kTraceRecordSizeDualClock : Z := 14.

(** [enum ProfilerClockSource], declared outside trace.cc. *)
Inductive ProfilerClockSource : Set :=
  | kProfilerClockSourceThreadCpu
  | kProfilerClockSourceWall
  | kProfilerClockSourceDual.

#[global] Instance ProfilerClockSource_eq_dec : EqDecision ProfilerClockSource.
Proof. solve_decision. Defined.

(** ** Record codec *)

Definition DecodeTraceMethodId (tmid : Z) : Z :=
  Z.land tmid (uint32_t (Z.lnot (TraceAction_value kTraceMethodActionMask))).

Definition DecodeTraceAction (tmid : Z) : TraceAction :=
  TraceAction_of_value (Z.land tmid (TraceAction_value kTraceMethodActionMask)).

(** [reinterpret_cast<uint32_t>(method) | action]. The [DCHECK_EQ] of the
    source is compiled out of release builds; its condition is
    [EncodeTraceMethodAndAction_DCHECK]. *)
Definition EncodeTraceMethodAndAction (method : Z) (action : TraceAction) : Z :=
  Z.lor (uint32_t method) (TraceAction_value action).

Definition EncodeTraceMethodAndAction_DCHECK (method : Z) (action : TraceAction) : bool :=
  method =? DecodeTraceMethodId (EncodeTraceMethodAndAction method action).

Definition GetTraceVersion (clock_source : ProfilerClockSource) : Z :=
  if decide (clock_source = kProfilerClockSourceDual)
  then kTraceVersionDualClock else kTraceVersionSingleClock.

Definition GetRecordSize (clock_source : ProfilerClockSource) : Z :=
  if decide (clock_source = kProfilerClockSourceDual)
  then kTraceRecordSizeDualClock else kTraceRecordSizeSingleClock.

(** ** Little-endian stores into the buffer *)

(** [buf[p] = v]. A store outside the buffer is undefined behaviour in the
    source; the model drops it, and the theorems below show that the stores
    of the tracer are inside the buffer. *)
Definition store (buf : list Z) (p : Z) (v : Z) : list Z :=
  if 0 <=? p then <[Z.to_nat p := v]> buf else buf.

Definition Append2LE (buf : list Z) (p : Z) (val : Z) : list Z :=
  let val := uint16_t val in
  let buf := store buf p (uint8_t val) in
  store buf (p + 1) (uint8_t (Z.shiftr val 8)).

Definition Append4LE (buf : list Z) (p : Z) (val : Z) : list Z :=
  let val := uint32_t val in
  let buf := store buf p (uint8_t val) in
  let buf := store buf (p + 1) (uint8_t (Z.shiftr val 8)) in
  let buf := store buf (p + 2) (uint8_t (Z.shiftr val 16)) in
  store buf (p + 3) (uint8_t (Z.shiftr val 24)).

Definition Append8LE (buf : list Z) (p : Z) (val : Z) : list Z :=
  let val := uint64_t val in
  let buf := store buf p (uint8_t val) in
  let buf := store buf (p + 1) (uint8_t (Z.shiftr val 8)) in
  let buf := store buf (p + 2) (uint8_t (Z.shiftr val 16)) in
  let buf := store buf (p + 3) (uint8_t (Z.shiftr val 24)) in
  let buf := store buf (p + 4) (uint8_t (Z.shiftr val 32)) in
  let buf := store buf (p + 5) (uint8_t (Z.shiftr val 40)) in
  let buf := store buf (p + 6) (uint8_t (Z.shiftr val 48)) in
  store buf (p + 7) (uint8_t (Z.shiftr val 56)).

(** [memset(buf + p, v, n)]. *)
Fixpoint memset (buf : list Z) (p : Z) (v : Z) (n : nat) : list Z :=
  match n with
  | O => buf
  | S n' => memset (store buf p v) (p + 1) v n'
  end.

(** The bytes [buf[p .. p+n)]. *)
Definition bytes_at (buf : list Z) (p : Z) (n : nat) : list Z :=
  take n (drop (Z.to_nat p) buf).

(** The value of a little-endian byte string; the reading counterpart of
    the [Append*LE] functions, used to state what a field holds. *)
Fixpoint le_value (bs : list Z) : Z :=
  match bs with
  | [] => 0
  | b :: bs' => b + 256 * le_value bs'
  end.

(** ** Clocks *)

(** The two clocks of the platform: the [n]-th call of [MicroTime()]
    returns [wall_clock n], the [n]-th call of [ThreadCpuMicroTime()]
    returns [thread_cpu_clock n] (both as [uint64_t]); the counters say how
    many reads have been made. *)
Record Clocks : Type := mkClocks {
  wall_clock : nat -> Z;
  wall_reads : nat;
  thread_cpu_clock : nat -> Z;
  thread_cpu_reads : nat;
}.

Definition MicroTime (c : Clocks) : Z * Clocks :=
  (uint64_t (wall_clock c (wall_reads c)),
   mkClocks (wall_clock c) (S (wall_reads c)) (thread_cpu_clock c) (thread_cpu_reads c)).

Definition ThreadCpuMicroTime (c : Clocks) : Z * Clocks :=
  (uint64_t (thread_cpu_clock c (thread_cpu_reads c)),
   mkClocks (wall_clock c) (wall_reads c) (thread_cpu_clock c) (S (thread_cpu_reads c))).

(** ** Collaborators: threads, files, the runtime *)

(** A [Thread*]: the address of the thread object and what [GetTid()]
    returns for it. *)
Record Thread : Type := mkThread {
  thread_ptr : Z;
  GetTid : Z;
}.

(** A [File] of base/unix_file/fd_file.h. *)
Record File : Type := mkFile {
  file_fd : Z;
  file_path : string;
  file_auto_close : bool;
}.

Definition DisableAutoClose (f : File) : File :=
  mkFile (file_fd f) (file_path f) false.

Inductive LogSeverity : Set := INFO | WARNING | ERROR | FATAL.

(** A listener registered with the instrumentation: the trace object, or a
    listener of another subsystem. *)
Inductive Listener : Set :=
  | TraceListener
  | OtherListener (id : Z).

#[global] Instance Listener_eq_dec : EqDecision Listener.
Proof. solve_decision. Defined.

(** What the sink received: a [WriteFully] of the textual header, a
    [WriteFully] of raw bytes, or one DDM chunk of two io vectors. *)
Inductive SinkWrite : Type :=
  | FileText (f : File) (text : string)
  | FileBytes (f : File) (bytes : list Z)
  | DdmChunk (type : string) (text : string) (bytes : list Z).

(** The state of the process outside the trace object that trace.cc reads
    or changes. *)
Record Runtime : Type := mkRuntime {
  rt_clocks : Clocks;
  rt_log : list (LogSeverity * string);
  rt_suspend_all : Z;
  rt_stats_enabled : bool;
  rt_allocated_objects : Z;
  rt_allocated_bytes : Z;
  rt_gc_invocations : Z;
  rt_listeners : list (Listener * Z);
  rt_thread_list : list (Thread * string);
  rt_exception : option string;
  rt_open_file : string -> option File;
  rt_write_fully : SinkWrite -> bool;
  rt_sink : list SinkWrite;
}.

Definition set_clocks (c : Clocks) (rt : Runtime) : Runtime :=
  mkRuntime c (rt_log rt) (rt_suspend_all rt) (rt_stats_enabled rt)
    (rt_allocated_objects rt) (rt_allocated_bytes rt) (rt_gc_invocations rt)
    (rt_listeners rt) (rt_thread_list rt) (rt_exception rt) (rt_open_file rt)
    (rt_write_fully rt) (rt_sink rt).

(** [LOG(severity) << msg]. *)
Definition LOG (sev : LogSeverity) (msg : string) (rt : Runtime) : Runtime :=
  mkRuntime (rt_clocks rt) (rt_log rt ++ [(sev, msg)]) (rt_suspend_all rt)
    (rt_stats_enabled rt)
    (rt_allocated_objects rt) (rt_allocated_bytes rt) (rt_gc_invocations rt)
    (rt_listeners rt) (rt_thread_list rt) (rt_exception rt) (rt_open_file rt)
    (rt_write_fully rt) (rt_sink rt).

(** Modelled from the spec: the Runtime collaborator (thread_list.cc and
    runtime.cc are not among the sources). [suspend_all] and [resume_all]
    bracket a stop of the world, counted here; [set_stats_enabled] switches
    the allocation statistics; a runtime failure is left pending for the
    calling thread. *)
Definition SuspendAll (rt : Runtime) : Runtime :=
  mkRuntime (rt_clocks rt) (rt_log rt) (rt_suspend_all rt + 1)
    (rt_stats_enabled rt)
    (rt_allocated_objects rt) (rt_allocated_bytes rt) (rt_gc_invocations rt)
    (rt_listeners rt) (rt_thread_list rt) (rt_exception rt) (rt_open_file rt)
    (rt_write_fully rt) (rt_sink rt).

Definition ResumeAll (rt : Runtime) : Runtime :=
  mkRuntime (rt_clocks rt) (rt_log rt) (rt_suspend_all rt - 1)
    (rt_stats_enabled rt)
    (rt_allocated_objects rt) (rt_allocated_bytes rt) (rt_gc_invocations rt)
    (rt_listeners rt) (rt_thread_list rt) (rt_exception rt) (rt_open_file rt)
    (rt_write_fully rt) (rt_sink rt).

Definition SetStatsEnabled (b : bool) (rt : Runtime) : Runtime :=
  mkRuntime (rt_clocks rt) (rt_log rt) (rt_suspend_all rt) b
    (rt_allocated_objects rt) (rt_allocated_bytes rt) (rt_gc_invocations rt)
    (rt_listeners rt) (rt_thread_list rt) (rt_exception rt) (rt_open_file rt)
    (rt_write_fully rt) (rt_sink rt).

Definition ThrowRuntimeException (msg : string) (rt : Runtime) : Runtime :=
  mkRuntime (rt_clocks rt) (rt_log rt) (rt_suspend_all rt) (rt_stats_enabled rt)
    (rt_allocated_objects rt) (rt_allocated_bytes rt) (rt_gc_invocations rt)
    (rt_listeners rt) (rt_thread_list rt) (Some msg) (rt_open_file rt)
    (rt_write_fully rt) (rt_sink rt).

Definition set_listeners (ls : list (Listener * Z)) (rt : Runtime) : Runtime :=
  mkRuntime (rt_clocks rt) (rt_log rt) (rt_suspend_all rt) (rt_stats_enabled rt)
    (rt_allocated_objects rt) (rt_allocated_bytes rt) (rt_gc_invocations rt)
    ls (rt_thread_list rt) (rt_exception rt) (rt_open_file rt)
    (rt_write_fully rt) (rt_sink rt).

Definition send (w : SinkWrite) (rt : Runtime) : Runtime :=
  mkRuntime (rt_clocks rt) (rt_log rt) (rt_suspend_all rt) (rt_stats_enabled rt)
    (rt_allocated_objects rt) (rt_allocated_bytes rt) (rt_gc_invocations rt)
    (rt_listeners rt) (rt_thread_list rt) (rt_exception rt) (rt_open_file rt)
    (rt_write_fully rt) (rt_sink rt ++ [w]).

(** Modelled from the spec: the Instrumentation collaborator
    (instrumentation.cc is not among the sources). [add_listener] registers
    a listener for a set of events, [remove_listener] takes the
    registrations of that listener away. *)
Definition AddListener (l : Listener) (events : Z) (rt : Runtime) : Runtime :=
  set_listeners (rt_listeners rt ++ [(l, events)]) rt.

Definition RemoveListener (l : Listener) (events : Z) (rt : Runtime) : Runtime :=
  set_listeners
    (filter (fun r => ¬ (r.1 = l ∧ Z.land r.2 events ≠ 0)) (rt_listeners rt)) rt.

(** [enum InstrumentationEvent] of instrumentation.h. *)
Inductive InstrumentationEvent : Set :=
  | kMethodEntered
  | kMethodExited
  | kMethodUnwind
  | kDexPcMoved
  | kExceptionCaught.

Definition InstrumentationEvent_value (e : InstrumentationEvent) : Z :=
  match e with
  | kMethodEntered => 1
  | kMethodExited => 2
  | kMethodUnwind => 4
  | kDexPcMoved => 8
  | kExceptionCaught => 16
  end.

(** ** The trace object *)

Record Trace : Type := mkTrace {
  trace_file_ : option File;
  buf_ : list Z;
  flags_ : Z;
  clock_source_ : ProfilerClockSource;
  buffer_size_ : Z;
  start_time_ : Z;
  cur_offset_ : Z;
  overflow_ : bool;
  thread_clock_base_map_ : gmap Z Z;
}.

Definition UseThreadCpuClock (tr : Trace) : bool :=
  bool_decide (clock_source_ tr = kProfilerClockSourceThreadCpu) ||
  bool_decide (clock_source_ tr = kProfilerClockSourceDual).

Definition UseWallClock (tr : Trace) : bool :=
  bool_decide (clock_source_ tr = kProfilerClockSourceWall) ||
  bool_decide (clock_source_ tr = kProfilerClockSourceDual).

(** [Trace::Trace(trace_file, buffer_size, flags)]; the clock source is the
    static [default_clock_source_] at the time of the call, and
    [start_time_] is one read of [MicroTime()]. This is the constructor for
    [kTraceHeaderLength <= buffer_size]: with a smaller buffer the source
    stores the header past the allocation, and with a negative size it has
    nothing to allocate, so the properties of a session that the
    constructor makes carry that premise. *)
Definition Trace_new (default_clock_source_ : ProfilerClockSource)
    (trace_file : option File) (buffer_size flags : Z) (rt : Runtime)
    : Trace * Runtime :=
  let '(start_time, c) := MicroTime (rt_clocks rt) in
  let clock_source := default_clock_source_ in
  let buf := replicate (Z.to_nat buffer_size) 0 in
  let trace_version := GetTraceVersion clock_source in
  let buf := memset buf 0 0 (Z.to_nat kTraceHeaderLength) in
  let buf := Append4LE buf 0 kTraceMagicValue in
  let buf := Append2LE buf 4 trace_version in
  let buf := Append2LE buf 6 kTraceHeaderLength in
  let buf := Append8LE buf 8 start_time in
  let buf :=
    if kTraceVersionDualClock <=? trace_version
    then Append2LE buf 16 (GetRecordSize clock_source)
    else buf in
  (mkTrace trace_file buf flags clock_source buffer_size start_time
     kTraceHeaderLength false ∅,
   set_clocks c rt).

(** The [switch] of [LogMethodTraceEvent]; [None] is the
    [UNIMPLEMENTED(FATAL)] of its default case. *)
Definition action_of_event (event : InstrumentationEvent) : option TraceAction :=
  match event with
  | kMethodEntered => Some kTraceMethodEnter
  | kMethodExited => Some kTraceMethodExit
  | kMethodUnwind => Some kTraceUnroll
  | _ => None
  end.

(** [android_atomic_release_cas(old, new, addr)]: the status (0 on
    success) and the new contents of [*addr]. *)
Definition android_atomic_release_cas (old_value new_value : Z) (contents : Z)
    : Z * Z :=
  if contents =? old_value then (0, new_value) else (1, contents).

Definition set_overflow_ (b : bool) (tr : Trace) : Trace :=
  mkTrace (trace_file_ tr) (buf_ tr) (flags_ tr) (clock_source_ tr)
    (buffer_size_ tr) (start_time_ tr) (cur_offset_ tr) b
    (thread_clock_base_map_ tr).

Definition set_cur_offset_ (v : Z) (tr : Trace) : Trace :=
  mkTrace (trace_file_ tr) (buf_ tr) (flags_ tr) (clock_source_ tr)
    (buffer_size_ tr) (start_time_ tr) v (overflow_ tr)
    (thread_clock_base_map_ tr).

(** [Trace::LogMethodTraceEvent] after its loop: the record is written at
    [old_offset], the offset the loop reserved. [None] is the fatal abort
    on an event that is not traced. *)
Definition LogMethodTraceEvent_record (thread : Thread) (method : Z)
    (event : InstrumentationEvent) (old_offset : Z) (tr : Trace) (rt : Runtime)
    : option (Trace * Runtime) :=
  match action_of_event event with
  | None => None
  | Some action =>
    let method_value := EncodeTraceMethodAndAction method action in
    let ptr := old_offset in
    let buf := Append2LE (buf_ tr) ptr (GetTid thread) in
    let buf := Append4LE buf (ptr + 2) method_value in
    let ptr := ptr + 6 in
    let '(buf, ptr, map, c) :=
      if UseThreadCpuClock tr then
        match thread_clock_base_map_ tr !! thread_ptr thread with
        | None =>
          let '(time, c) := ThreadCpuMicroTime (rt_clocks rt) in
          (Append4LE buf ptr 0, ptr + 4,
           <[thread_ptr thread := time]> (thread_clock_base_map_ tr), c)
        | Some thread_clock_base =>
          let '(now, c) := ThreadCpuMicroTime (rt_clocks rt) in
          let thread_clock_diff := uint32_t (uint64_t (now - thread_clock_base)) in
          (Append4LE buf ptr thread_clock_diff, ptr + 4,
           thread_clock_base_map_ tr, c)
        end
      else (buf, ptr, thread_clock_base_map_ tr, rt_clocks rt) in
    let '(buf, c) :=
      if UseWallClock tr then
        let '(now, c) := MicroTime c in
        let wall_clock_diff := uint32_t (uint64_t (now - start_time_ tr)) in
        (Append4LE buf ptr wall_clock_diff, c)
      else (buf, c) in
    Some (mkTrace (trace_file_ tr) buf (flags_ tr) (clock_source_ tr)
            (buffer_size_ tr) (start_time_ tr) (cur_offset_ tr) (overflow_ tr) map,
          set_clocks c rt)
  end.

(** [Trace::LogMethodTraceEvent], run without interference: no other thread
    writes [cur_offset_] between the read of [old_offset] and the
    compare-and-swap, so the swap succeeds and the [do ... while] body runs
    once. (The loop with its retries under interference is [step_call]
    below.) *)
Definition LogMethodTraceEvent (thread : Thread) (method : Z)
    (event : InstrumentationEvent) (tr : Trace) (rt : Runtime)
    : option (Trace * Runtime) :=
  let old_offset := cur_offset_ tr in
  let new_offset := int32_t (old_offset + GetRecordSize (clock_source_ tr)) in
  if buffer_size_ tr <? new_offset then
    Some (set_overflow_ true tr, rt)
  else
    let '(_, cur_offset) :=
      android_atomic_release_cas old_offset new_offset (cur_offset_ tr) in
    LogMethodTraceEvent_record thread method event old_offset
      (set_cur_offset_ cur_offset tr) rt.

(** ** The logging path under interference *)

(** Where a call of [LogMethodTraceEvent] stands: at the head of the loop,
    at the compare-and-swap with the offsets it computed, after the loop
    with the offset it reserved, returned, or aborted. *)
Inductive Pc : Type :=
  | PcLoop (thread : Thread) (method : Z) (event : InstrumentationEvent)
  | PcCas (thread : Thread) (method : Z) (event : InstrumentationEvent)
      (old_offset new_offset : Z)
  | PcRecord (thread : Thread) (method : Z) (event : InstrumentationEvent)
      (old_offset : Z)
  | PcReturned
  | PcAborted.

(** One step of one call on the shared trace object. *)
Definition step_call (pc : Pc) (tr : Trace) (rt : Runtime) : Pc * Trace * Runtime :=
  match pc with
  | PcLoop thread method event =>
    let old_offset := cur_offset_ tr in
    let new_offset := int32_t (old_offset + GetRecordSize (clock_source_ tr)) in
    if buffer_size_ tr <? new_offset then (PcReturned, set_overflow_ true tr, rt)
    else (PcCas thread method event old_offset new_offset, tr, rt)
  | PcCas thread method event old_offset new_offset =>
    let '(status, cur_offset) :=
      android_atomic_release_cas old_offset new_offset (cur_offset_ tr) in
    if status =? 0
    then (PcRecord thread method event old_offset, set_cur_offset_ cur_offset tr, rt)
    else (PcLoop thread method event, tr, rt)
  | PcRecord thread method event old_offset =>
    match LogMethodTraceEvent_record thread method event old_offset tr rt with
    | Some (tr', rt') => (PcReturned, tr', rt')
    | None => (PcAborted, tr, rt)
    end
  | PcReturned => (PcReturned, tr, rt)
  | PcAborted => (PcAborted, tr, rt)
  end.

(** The running calls and the state they share. *)
Record Config : Type := mkConfig {
  calls : list Pc;
  shared_trace : Trace;
  shared_runtime : Runtime;
}.

(** The call numbered [i] takes a step; a number that names no call does
    nothing. *)
Definition step (i : nat) (cfg : Config) : Config :=
  match calls cfg !! i with
  | None => cfg
  | Some pc =>
    let '(pc', tr, rt) := step_call pc (shared_trace cfg) (shared_runtime cfg) in
    mkConfig (<[i := pc']> (calls cfg)) tr rt
  end.

(** A schedule names the call that moves next. *)
Fixpoint interleave (schedule : list nat) (cfg : Config) : Config :=
  match schedule with
  | [] => cfg
  | i :: schedule' => interleave schedule' (step i cfg)
  end.

(** The listener callbacks that record an event. *)
Definition MethodEntered (thread : Thread) (method : Z) :=
  LogMethodTraceEvent thread method kMethodEntered.

Definition MethodExited (thread : Thread) (method : Z) :=
  LogMethodTraceEvent thread method kMethodExited.

Definition MethodUnwind (thread : Thread) (method : Z) :=
  LogMethodTraceEvent thread method kMethodUnwind.

(** A call of one of the three recording callbacks by the instrumentation. *)
Inductive Callback : Type :=
  | OnMethodEntered (thread : Thread) (method : Z)
  | OnMethodExited (thread : Thread) (method : Z)
  | OnMethodUnwind (thread : Thread) (method : Z).

Definition callback_thread (cb : Callback) : Thread :=
  match cb with
  | OnMethodEntered t _ | OnMethodExited t _ | OnMethodUnwind t _ => t
  end.

Definition dispatch (cb : Callback) : Trace -> Runtime -> option (Trace * Runtime) :=
  match cb with
  | OnMethodEntered t m => MethodEntered t m
  | OnMethodExited t m => MethodExited t m
  | OnMethodUnwind t m => MethodUnwind t m
  end.

(** The call a callback starts. *)
Definition call_of (cb : Callback) : Pc :=
  match cb with
  | OnMethodEntered t m => PcLoop t m kMethodEntered
  | OnMethodExited t m => PcLoop t m kMethodExited
  | OnMethodUnwind t m => PcLoop t m kMethodUnwind
  end.

(** The callbacks of [cbs] one after the other. *)
Fixpoint run (cbs : list Callback) (tr : Trace) (rt : Runtime)
    : option (Trace * Runtime) :=
  match cbs with
  | [] => Some (tr, rt)
  | cb :: cbs' =>
    match dispatch cb tr rt with
    | Some (tr', rt') => run cbs' tr' rt'
    | None => None
    end
  end.

(** The test of the reservation loop: the record fits. *)
Definition reserves (tr : Trace) : bool :=
  negb (buffer_size_ tr <? int32_t (cur_offset_ tr + GetRecordSize (clock_source_ tr))).

(** How many callbacks of [cbs] reserved a record. *)
Fixpoint reserved_count (cbs : list Callback) (tr : Trace) (rt : Runtime) : nat :=
  match cbs with
  | [] => O
  | cb :: cbs' =>
    match dispatch cb tr rt with
    | Some (tr', rt') =>
      ((if reserves tr then 1 else 0) + reserved_count cbs' tr' rt')%nat
    | None => O
    end
  end.

(** The callbacks of [cbs] made by [thread] that reserved a record. *)
Fixpoint reserved_by (thread : Thread) (cbs : list Callback) (tr : Trace)
    (rt : Runtime) : nat :=
  match cbs with
  | [] => O
  | cb :: cbs' =>
    match dispatch cb tr rt with
    | Some (tr', rt') =>
      ((if reserves tr && bool_decide (thread_ptr (callback_thread cb) = thread_ptr thread)
        then 1 else 0) + reserved_by thread cbs' tr' rt')%nat
    | None => O
    end
  end.

(** The fields of the record at [p]: the [dt_cpu] field follows the six
    bytes of thread id and method; the wall field comes last. *)
Definition record_tid (buf : list Z) (p : Z) : Z := le_value (bytes_at buf p 2).
Definition record_tmid (buf : list Z) (p : Z) : Z := le_value (bytes_at buf (p + 2) 4).
Definition record_time1 (buf : list Z) (p : Z) : Z := le_value (bytes_at buf (p + 6) 4).
Definition record_time2 (buf : list Z) (p : Z) : Z := le_value (bytes_at buf (p + 10) 4).

(** ** Clock overhead *)

Definition MeasureClockOverhead (trace : Trace) (c : Clocks) : Clocks :=
  let c := if UseThreadCpuClock trace then (ThreadCpuMicroTime c).2 else c in
  if UseWallClock trace then (MicroTime c).2 else c.

(** The body of the [for] loop: eight calls. *)
Definition GetClockOverhead_body (trace : Trace) (c : Clocks) : Clocks :=
  let c := MeasureClockOverhead trace c in
  let c := MeasureClockOverhead trace c in
  let c := MeasureClockOverhead trace c in
  let c := MeasureClockOverhead trace c in
  let c := MeasureClockOverhead trace c in
  let c := MeasureClockOverhead trace c in
  let c := MeasureClockOverhead trace c in
  MeasureClockOverhead trace c.

(** [for (int i = n; i > 0; i--) body]. *)
Fixpoint GetClockOverhead_loop (i : nat) (trace : Trace) (c : Clocks) : Clocks :=
  match i with
  | O => c
  | S i' => GetClockOverhead_loop i' trace (GetClockOverhead_body trace c)
  end.

Definition GetClockOverhead (trace : Trace) (c : Clocks) : Z * Clocks :=
  let '(start, c) := ThreadCpuMicroTime c in
  let c := GetClockOverhead_loop (Z.to_nat 4000) trace c in
  let '(now, c) := ThreadCpuMicroTime c in
  let elapsed := uint64_t (now - start) in
  (uint32_t (elapsed / 32), c).

(** ** Visited methods *)

(** [std::set<mirror::AbstractMethod*>::insert]: a list kept in increasing
    order without repeats. *)
Fixpoint set_insert (x : Z) (s : list Z) : list Z :=
  match s with
  | [] => [x]
  | y :: s' =>
    if x <? y then x :: s
    else if x =? y then s
    else y :: set_insert x s'
  end.

(** [ptr[k]] for a byte pointer at index [p]. *)
Definition load (buf : list Z) (p : Z) : Z := buf !!! Z.to_nat p.

(** The [while (ptr < end)] loop of [GetVisitedMethods]; every pass moves
    [ptr] forward, so [fuel] passes are enough when [end - ptr <= fuel]. *)
Fixpoint GetVisitedMethods_loop (fuel : nat) (buf : list Z)
    (clock_source : ProfilerClockSource) (ptr end_ : Z) (visited : list Z)
    : list Z :=
  match fuel with
  | O => visited
  | S fuel' =>
    if ptr <? end_ then
      let tmid :=
        uint32_t
          (Z.lor (Z.lor (Z.lor (load buf (ptr + 2))
                               (Z.shiftl (load buf (ptr + 3)) 8))
                        (Z.shiftl (load buf (ptr + 4)) 16))
                 (Z.shiftl (load buf (ptr + 5)) 24)) in
      let method := DecodeTraceMethodId tmid in
      GetVisitedMethods_loop fuel' buf clock_source
        (ptr + GetRecordSize clock_source) end_ (set_insert method visited)
    else visited
  end.

Definition GetVisitedMethods (tr : Trace) (buf_size : Z) : list Z :=
  GetVisitedMethods_loop (Z.to_nat buf_size) (buf_ tr) (clock_source_ tr)
    kTraceHeaderLength buf_size [].

(** ** Text *)

Definition newline : string := String "010"%char "".
Definition tab : string := String "009"%char "".

(** [%d], [%zd] and [%llu] of a value already converted to the type the
    format reads. *)
Definition decimal (z : Z) : string :=
  DecimalString.NilZero.string_of_int (Z.to_int z).

(** [%p] of a non-null pointer. *)
Definition pointer (p : Z) : string :=
  "0x" +:+ HexadecimalString.NilZero.string_of_uint (N.to_hex_uint (Z.to_N p)).

Definition kTraceTokenChar : string := "*".

Definition DumpThread (t : Thread * string) : string :=
  decimal (GetTid t.1) +:+ tab +:+ t.2 +:+ newline.

Definition DumpThreadList (rt : Runtime) : list string :=
  map DumpThread (rt_thread_list rt).

(** ** Life cycle and finalisation *)

(** The static members of [Trace]. *)
Record Process : Type := mkProcess {
  runtime : Runtime;
  the_trace_ : option Trace;
  default_clock_source_ : ProfilerClockSource;
}.

Section Lifecycle.

(** What trace.cc takes from headers and collaborators that are not among
    the sources: the flag bit of trace.h, the platform switch, and the
    method metadata of the runtime. *)
Variable kTraceCountAllocs : Z.
Variable HAVE_POSIX_CLOCKS : bool.
Variable PrettyMethod : Z -> string.
Variable PrettyDescriptor : string -> string.
Variable GetDeclaringClassDescriptor : Z -> string.
Variable GetName : Z -> string.
Variable GetSignature : Z -> string.
Variable GetDeclaringClassSourceFile : Z -> string.
(** [strerror(errno)] after a failed call on the file system. *)
Variable strerror_errno : string.

(** The initial value of [default_clock_source_]. *)
Definition initial_clock_source : ProfilerClockSource :=
  if HAVE_POSIX_CLOCKS then kProfilerClockSourceDual else kProfilerClockSourceWall.

Definition SetDefaultClockSource (clock_source : ProfilerClockSource)
    (p : Process) : Process :=
  if HAVE_POSIX_CLOCKS then
    mkProcess (runtime p) (the_trace_ p) clock_source
  else if decide (clock_source ≠ kProfilerClockSourceWall) then
    mkProcess (LOG WARNING "Ignoring tracing request to use " (runtime p))
      (the_trace_ p) (default_clock_source_ p)
  else p.

(** [PLOG(severity) << msg]: the message and the text of [errno]. *)
Definition PLOG (sev : LogSeverity) (msg : string) (rt : Runtime) : Runtime :=
  LOG sev (msg +:+ ": " +:+ strerror_errno) rt.

(** The callbacks that must not fire; each only complains in the log. *)
Definition DexPcMoved (thread : Thread) (this_object : Z) (method : Z)
    (new_dex_pc : Z) (rt : Runtime) : Runtime :=
  LOG ERROR ("Unexpected dex PC event in tracing " +:+ PrettyMethod method
             +:+ " " +:+ decimal (uint32_t new_dex_pc)) rt.

Definition ExceptionCaught (rt : Runtime) : Runtime :=
  LOG ERROR "Unexpected exception caught event in tracing" rt.

(** The [while (ptr < end)] loop of [DumpBuf]: one line of the log for
    every record, the method and the number of the action. Every pass
    moves [ptr] forward, so [fuel] passes are enough when
    [end - ptr <= fuel]. *)
Fixpoint DumpBuf_loop (fuel : nat) (buf : list Z)
    (clock_source : ProfilerClockSource) (ptr end_ : Z) (rt : Runtime)
    : Runtime :=
  match fuel with
  | O => rt
  | S fuel' =>
    if ptr <? end_ then
      let tmid :=
        uint32_t
          (Z.lor (Z.lor (Z.lor (load buf (ptr + 2))
                               (Z.shiftl (load buf (ptr + 3)) 8))
                        (Z.shiftl (load buf (ptr + 4)) 16))
                 (Z.shiftl (load buf (ptr + 5)) 24)) in
      let method := DecodeTraceMethodId tmid in
      let action := DecodeTraceAction tmid in
      let rt :=
        LOG INFO (PrettyMethod method +:+ " "
                  +:+ decimal (TraceAction_value action)) rt in
      DumpBuf_loop fuel' buf clock_source
        (ptr + GetRecordSize clock_source) end_ rt
    else rt
  end.

Definition DumpBuf (buf : list Z) (buf_size : Z)
    (clock_source : ProfilerClockSource) (rt : Runtime) : Runtime :=
  DumpBuf_loop (Z.to_nat buf_size) buf clock_source kTraceHeaderLength buf_size rt.

Definition DumpMethod (method : Z) : string :=
  pointer method +:+ tab
  +:+ PrettyDescriptor (GetDeclaringClassDescriptor method) +:+ tab
  +:+ GetName method +:+ tab
  +:+ GetSignature method +:+ tab
  +:+ GetDeclaringClassSourceFile method +:+ newline.

Definition DumpMethodList (visited_methods : list Z) : list string :=
  map DumpMethod visited_methods.

(** What [FinishTracing] streams into [os], piece by piece; the header is
    the concatenation. [final_offset] is a [size_t] (32 bits). *)
Definition TraceHeader (tr : Trace) (elapsed final_offset clock_overhead : Z)
    (rt : Runtime) : list string :=
  let num_records :=
    uint32_t (final_offset - kTraceHeaderLength) / GetRecordSize (clock_source_ tr) in
  [ kTraceTokenChar +:+ "version" +:+ newline;
    decimal (GetTraceVersion (clock_source_ tr)) +:+ newline;
    "data-file-overflow=" +:+ (if overflow_ tr then "true" else "false") +:+ newline;
    (if UseThreadCpuClock tr then
       if UseWallClock tr then "clock=dual" +:+ newline
       else "clock=thread-cpu" +:+ newline
     else "clock=wall" +:+ newline);
    "elapsed-time-usec=" +:+ decimal elapsed +:+ newline;
    "num-method-calls=" +:+ decimal (int32_t num_records) +:+ newline;
    "clock-call-overhead-nsec=" +:+ decimal (int32_t clock_overhead) +:+ newline;
    "vm=art" +:+ newline ]
  ++ (if negb (Z.land (flags_ tr) kTraceCountAllocs =? 0) then
        [ "alloc-count=" +:+ decimal (rt_allocated_objects rt) +:+ newline;
          "alloc-size=" +:+ decimal (rt_allocated_bytes rt) +:+ newline;
          "gc-count=" +:+ decimal (rt_gc_invocations rt) +:+ newline ]
      else [])
  ++ [ kTraceTokenChar +:+ "threads" +:+ newline ]
  ++ DumpThreadList rt
  ++ [ kTraceTokenChar +:+ "methods" +:+ newline ]
  ++ DumpMethodList (GetVisitedMethods tr final_offset)
  ++ [ kTraceTokenChar +:+ "end" +:+ newline ].

(** [File::WriteFully]: the runtime says whether the write goes through;
    one that does reaches the sink. *)
Definition WriteFully (w : SinkWrite) (rt : Runtime) : bool * Runtime :=
  if rt_write_fully rt w then (true, send w rt) else (false, rt).

Definition FinishTracing (tr : Trace) (rt : Runtime) : Runtime :=
  let '(now, c) := MicroTime (rt_clocks rt) in
  let elapsed := uint64_t (now - start_time_ tr) in
  let final_offset := uint32_t (cur_offset_ tr) in
  let '(clock_overhead, c) := GetClockOverhead tr c in
  let rt := set_clocks c rt in
  let rt :=
    if negb (Z.land (flags_ tr) kTraceCountAllocs =? 0)
    then SetStatsEnabled false rt else rt in
  let header :=
    String.concat "" (TraceHeader tr elapsed final_offset clock_overhead rt) in
  let data := take (Z.to_nat final_offset) (buf_ tr) in
  match trace_file_ tr with
  | None => send (DdmChunk "MPSE" header data) rt
  | Some f =>
    let '(ok1, rt) := WriteFully (FileText f header) rt in
    let '(ok2, rt) :=
      if ok1 then WriteFully (FileBytes f data) rt else (false, rt) in
    if ok1 && ok2 then rt
    else
      let detail := "Trace data write failed: " +:+ strerror_errno in
      ThrowRuntimeException detail (PLOG ERROR detail rt)
  end.

Definition kTraceEvents : Z :=
  Z.lor (Z.lor (InstrumentationEvent_value kMethodEntered)
               (InstrumentationEvent_value kMethodExited))
        (InstrumentationEvent_value kMethodUnwind).

(** [Trace::Start]. [trace_fd < 0] asks for the file to be opened by
    name. The two tests of [the_trace_] are both kept, although nothing
    runs between them here. *)
Definition Start (trace_filename : string) (trace_fd buffer_size flags : Z)
    (direct_to_ddms : bool) (p : Process) : Process :=
  match the_trace_ p with
  | Some _ =>
    mkProcess (LOG ERROR "Trace already in progress, ignoring this request" (runtime p))
      (the_trace_ p) (default_clock_source_ p)
  | None =>
    let rt := SuspendAll (runtime p) in
    let trace_file :=
      if direct_to_ddms then None
      else if trace_fd <? 0 then rt_open_file rt trace_filename
      else Some (DisableAutoClose (mkFile trace_fd "tracefile" true)) in
    if negb direct_to_ddms && bool_decide (trace_file = None) then
      let rt :=
        PLOG ERROR ("Unable to open trace file '" +:+ trace_filename +:+ "'") rt in
      let rt := ResumeAll rt in
      let rt :=
        ThrowRuntimeException
          ("Unable to open trace file '" +:+ trace_filename +:+ "'") rt in
      mkProcess rt (the_trace_ p) (default_clock_source_ p)
    else
      match the_trace_ p with
      | Some _ =>
        let rt := LOG ERROR "Trace already in progress, ignoring this request" rt in
        mkProcess (ResumeAll rt) (the_trace_ p) (default_clock_source_ p)
      | None =>
        let '(tr, rt) :=
          Trace_new (default_clock_source_ p) trace_file buffer_size flags rt in
        let rt :=
          if negb (Z.b2z (negb (flags =? 0) && negb (kTraceCountAllocs =? 0)) =? 0)
          then SetStatsEnabled true rt else rt in
        let rt := AddListener TraceListener kTraceEvents rt in
        mkProcess (ResumeAll rt) (Some tr) (default_clock_source_ p)
      end
  end.

Definition Stop (p : Process) : Process :=
  let rt := SuspendAll (runtime p) in
  match the_trace_ p with
  | None =>
    let rt := LOG ERROR "Trace stop requested, but no trace currently running" rt in
    mkProcess (ResumeAll rt) None (default_clock_source_ p)
  | Some the_trace =>
    let rt := FinishTracing the_trace rt in
    let rt := RemoveListener TraceListener kTraceEvents rt in
    mkProcess (ResumeAll rt) None (default_clock_source_ p)
  end.

Definition IsMethodTracingActive (p : Process) : bool :=
  bool_decide (the_trace_ p ≠ None).

Definition Shutdown (p : Process) : Process :=
  if IsMethodTracingActive p then Stop p else p.

(** A call of the public interface of [Trace]. *)
Inductive LifecycleCall : Type :=
  | CallStart (trace_filename : string) (trace_fd buffer_size flags : Z)
      (direct_to_ddms : bool)
  | CallStop
  | CallShutdown
  | CallSetDefaultClockSource (clock_source : ProfilerClockSource).

Definition lifecycle_call (c : LifecycleCall) (p : Process) : Process :=
  match c with
  | CallStart trace_filename trace_fd buffer_size flags direct_to_ddms =>
    Start trace_filename trace_fd buffer_size flags direct_to_ddms p
  | CallStop => Stop p
  | CallShutdown => Shutdown p
  | CallSetDefaultClockSource clock_source => SetDefaultClockSource clock_source p
  end.

(** The calls of [cs] one after the other. *)
Fixpoint lifecycle (cs : list LifecycleCall) (p : Process) : Process :=
  match cs with
  | [] => p
  | c :: cs' => lifecycle cs' (lifecycle_call c p)
  end.

End Lifecycle.

(** The registrations of the trace object among the listeners. *)
Definition trace_listeners (rt : Runtime) : list (Listener * Z) :=
  filter (fun r => r.1 = TraceListener) (rt_listeners rt).

(** ** Vocabulary of the properties *)

(** The [n] little-endian bytes of [v]. *)
Fixpoint le_bytes (n : nat) (v : Z) : list Z :=
  match n with
  | O => []
  | S n' => v mod 256 :: le_bytes n' (v / 256)
  end.

(** The header as the file format lays it out: magic, version, offset to
    the data, start time, then the record size when the version is at
    least 3, and zeros up to offset 32. *)
Definition spec_header (clock_source : ProfilerClockSource) (start_time : Z)
    : list Z :=
  le_bytes 4 kTraceMagicValue
  ++ le_bytes 2 (GetTraceVersion clock_source)
  ++ le_bytes 2 kTraceHeaderLength
  ++ le_bytes 8 start_time
  ++ (if 3 <=? GetTraceVersion clock_source
      then le_bytes 2 (GetRecordSize clock_source) else [0; 0])
  ++ replicate 14 0.

(** The state of a trace object whose buffer holds the header and whose
    size leaves [old_offset + record size] inside [int32_t]: what the
    constructor establishes and every call keeps. *)
Record trace_ok (tr : Trace) : Prop := mkTraceOk {
  ok_low : kTraceHeaderLength <= cur_offset_ tr;
  ok_high : cur_offset_ tr <= buffer_size_ tr;
  ok_aligned :
    (cur_offset_ tr - kTraceHeaderLength) mod GetRecordSize (clock_source_ tr) = 0;
  ok_int32 : buffer_size_ tr + GetRecordSize (clock_source_ tr) <= INT32_MAX;
  ok_buf : length (buf_ tr) = Z.to_nat (buffer_size_ tr);
  ok_overflow :
    overflow_ tr = true ->
    buffer_size_ tr < cur_offset_ tr + GetRecordSize (clock_source_ tr);
}.

(** What a call in flight knows about the offsets it holds: at the
    compare-and-swap, the new offset is the old one plus a record and fits
    the buffer; after the loop, the record it reserved lies between the
    header and the cursor. *)
Definition pc_ok (tr : Trace) (pc : Pc) : Prop :=
  match pc with
  | PcCas _ _ _ old_offset new_offset =>
    new_offset = old_offset + GetRecordSize (clock_source_ tr) /\
    new_offset <= buffer_size_ tr
  | PcRecord _ _ _ old_offset =>
    kTraceHeaderLength <= old_offset /\
    old_offset + GetRecordSize (clock_source_ tr) <= cur_offset_ tr
  | _ => True
  end.

(** The record a call holds after the loop, if any. *)
Definition reserved_offset (pc : Pc) : option Z :=
  match pc with
  | PcRecord _ _ _ old_offset => Some old_offset
  | _ => None
  end.

(** The calls in flight and the trace object they share are in order, and
    the records held by calls past the loop do not overlap. *)
Record config_ok (cfg : Config) : Prop := mkConfigOk {
  cfg_trace : trace_ok (shared_trace cfg);
  cfg_calls :
    forall i pc, calls cfg !! i = Some pc -> pc_ok (shared_trace cfg) pc;
  cfg_disjoint :
    forall i j pi pj oi oj,
      i <> j -> calls cfg !! i = Some pi -> calls cfg !! j = Some pj ->
      reserved_offset pi = Some oi -> reserved_offset pj = Some oj ->
      oi + GetRecordSize (clock_source_ (shared_trace cfg)) <= oj \/
      oj + GetRecordSize (clock_source_ (shared_trace cfg)) <= oi;
}.

(** [GetClockOverhead] with the count of its sampling iterations left
    open. *)
Definition overhead_of (n : nat) (trace : Trace) (c : Clocks) : Z * Clocks :=
  let '(start, c1) := ThreadCpuMicroTime c in
  let c2 := Nat.iter n (MeasureClockOverhead trace) c1 in
  let '(now, c3) := ThreadCpuMicroTime c2 in
  (uint32_t (uint64_t (now - start) / 32), c3).

(** The session slot and the listeners agree: the trace object is
    registered, once and for the three recording events, exactly while a
    session is in place. *)
Definition session_ok (p : Process) : Prop :=
  trace_listeners (runtime p)
  = match the_trace_ p with
    | Some _ => [(TraceListener, kTraceEvents)]
    | None => []
    end.

(** A call of the interface whose buffer, when it asks for one, has room
    for the header: the sizes for which the constructor is defined. *)
Definition call_size_ok (c : LifecycleCall) : Prop :=
  match c with
  | CallStart _ _ buffer_size _ _ => kTraceHeaderLength <= buffer_size
  | _ => True
  end.

(** The packed method and action that a callback writes. *)
Definition callback_tmid (cb : Callback) : Z :=
  match cb with
  | OnMethodEntered _ m => uint32_t (EncodeTraceMethodAndAction m kTraceMethodEnter)
  | OnMethodExited _ m => uint32_t (EncodeTraceMethodAndAction m kTraceMethodExit)
  | OnMethodUnwind _ m => uint32_t (EncodeTraceMethodAndAction m kTraceUnroll)
  end.

(** The packed values of the callbacks of [cbs] that reserved a record, in
    the order of the calls. *)
Fixpoint recorded (cbs : list Callback) (tr : Trace) (rt : Runtime) : list Z :=
  match cbs with
  | [] => []
  | cb :: cbs' =>
    match dispatch cb tr rt with
    | Some (tr', rt') =>
      (if reserves tr then [callback_tmid cb] else []) ++ recorded cbs' tr' rt'
    | None => []
    end
  end.

(** The set of methods of a list of packed values, built as
    [GetVisitedMethods] builds it. *)
Definition visited_of (tmids : list Z) : list Z :=
  fold_left (fun visited tmid => set_insert (DecodeTraceMethodId tmid) visited)
    tmids [].

(** The buffer holds, from [p] on, records whose packed values are
    [tmids]. *)
Fixpoint records_at (buf : list Z) (clock_source : ProfilerClockSource)
    (p : Z) (tmids : list Z) : Prop :=
  match tmids with
  | [] => True
  | tmid :: tmids' =>
    bytes_at buf (p + 2) 4 = le_bytes 4 tmid /\ 0 <= tmid < 2 ^ 32 /\
    records_at buf clock_source (p + GetRecordSize clock_source) tmids'
  end.

(** The time fields that a record gets: the CPU time since the base of the
    thread (0 when the thread has none yet), then the wall time since the
    start, each when its clock is in use. *)
Definition record_times (thread : Thread) (tr : Trace) (rt : Runtime) : list Z :=
  (if UseThreadCpuClock tr then
     le_bytes 4
       (match thread_clock_base_map_ tr !! thread_ptr thread with
        | None => 0
        | Some base =>
          uint32_t ((ThreadCpuMicroTime (rt_clocks rt)).1 - base)
        end)
   else [])
  ++ (if UseWallClock tr then
        le_bytes 4 (uint32_t ((MicroTime (rt_clocks rt)).1 - start_time_ tr))
      else []).

(** The records that still fit between the cursor and the end of the
    buffer. *)
Definition room (tr : Trace) : nat :=
  Z.to_nat ((buffer_size_ tr - cur_offset_ tr) / GetRecordSize (clock_source_ tr)).

(** The sink that [Start] settles on: none for DDMS, the file opened by
    name when no descriptor is given, the descriptor otherwise. *)
Definition start_sink (trace_filename : string) (trace_fd : Z)
    (direct_to_ddms : bool) (rt : Runtime) : option File :=
  if direct_to_ddms then None
  else if trace_fd <? 0 then rt_open_file rt trace_filename
  else Some (DisableAutoClose (mkFile trace_fd "tracefile" true)).

(** The method and the action of a callback. *)
Definition callback_method (cb : Callback) : Z :=
  match cb with
  | OnMethodEntered _ m | OnMethodExited _ m | OnMethodUnwind _ m => m
  end.

Definition callback_action (cb : Callback) : TraceAction :=
  match cb with
  | OnMethodEntered _ _ => kTraceMethodEnter
  | OnMethodExited _ _ => kTraceMethodExit
  | OnMethodUnwind _ _ => kTraceUnroll
  end.

(** A method reference of the 32-bit target, aligned as objects are. *)
Definition method_ok (m : Z) : Prop := 0 <= m < 2 ^ 32 /\ Z.land m 3 = 0.

(** The line that [DumpBuf] logs for a record of [method] and [action]. *)
Definition dump_line (PrettyMethod : Z -> string) (method : Z)
    (action : TraceAction) : LogSeverity * string :=
  (INFO, PrettyMethod method +:+ " " +:+ decimal (TraceAction_value action)).

(** The name of a clock source in the text of the header. *)
Definition clock_name (clock_source : ProfilerClockSource) : string :=
  match clock_source with
  | kProfilerClockSourceThreadCpu => "thread-cpu"
  | kProfilerClockSourceWall => "wall"
  | kProfilerClockSourceDual => "dual"
  end.

(** ** Sample inputs *)

(** Clocks that have not been read yet. *)
Definition sample_clocks (wall cpu : nat -> Z) : Clocks := mkClocks wall 0 cpu 0.

(** A wall clock that reads 5000, then 5042, then 5084 from then on, and a
    thread-CPU clock that reads 1000 and then 1175. *)
Definition sample_wall (n : nat) : Z :=
  match n with O => 5000 | S O => 5042 | _ => 5084 end.
Definition sample_cpu (n : nat) : Z := match n with O => 1000 | _ => 1175 end.

(** A runtime at rest: nothing logged, no listener, a file system that
    opens nothing and writes that go through. *)
Definition sample_runtime : Runtime :=
  mkRuntime (sample_clocks sample_wall sample_cpu) [] 0 false 0 0 0 [] [] None
    (fun _ => None) (fun _ => true) [].

Definition sample_thread : Thread := mkThread 0x40001000 5.

(** The same runtime with that thread, named main, in its thread list. *)
Definition sample_runtime_main : Runtime :=
  mkRuntime (sample_clocks sample_wall sample_cpu) [] 0 false 0 0 0 []
    [(sample_thread, "main")] None (fun _ => None) (fun _ => true) [].

(** * Properties *)

(** ** Integers and bits *)

Lemma uint8_t_range x : 0 <= uint8_t x < 256.
Proof. unfold uint8_t. apply Z.mod_pos_bound. lia. Qed.

Lemma uint32_t_range x : 0 <= uint32_t x < 2 ^ 32.
Proof. unfold uint32_t. apply Z.mod_pos_bound. lia. Qed.

Lemma uint64_t_range x : 0 <= uint64_t x < 2 ^ 64.
Proof. unfold uint64_t. apply Z.mod_pos_bound. lia. Qed.

Lemma uint32_t_id x : 0 <= x < 2 ^ 32 -> uint32_t x = x.
Proof. intros. unfold uint32_t. apply Z.mod_small. lia. Qed.

Lemma uint64_t_id x : 0 <= x < 2 ^ 64 -> uint64_t x = x.
Proof. intros. unfold uint64_t. apply Z.mod_small. lia. Qed.

Lemma int32_t_id x : - 2 ^ 31 <= x < 2 ^ 31 -> int32_t x = x.
Proof. intros. unfold int32_t. rewrite Z.mod_small; lia. Qed.

Lemma uint32_t_uint64_t x : uint32_t (uint64_t x) = uint32_t x.
Proof.
  unfold uint32_t, uint64_t.
  apply Z.mod_mod_divide. exists (2 ^ 32). reflexivity.
Qed.

(** The bits of an action are its two low bits. *)
Lemma TraceAction_value_bits a n :
  2 <= n -> Z.testbit (TraceAction_value a) n = false.
Proof.
  intros Hn. destruct a; simpl; try apply Z.bits_0.
  - destruct n as [|p|p]; try lia. destruct p; reflexivity.
  - destruct n as [|p|p]; try lia. destruct p as [p|p|]; try lia; reflexivity.
  - change 3 with (Z.ones 2). rewrite Z.testbit_ones_nonneg by lia. lia.
Qed.

Lemma low_bits_clear m n :
  Z.land m 3 = 0 -> 0 <= n < 2 -> Z.testbit m n = false.
Proof.
  intros Hm Hn.
  assert (H : Z.testbit (Z.land m 3) n = false) by (rewrite Hm; apply Z.bits_0).
  rewrite Z.land_spec in H. change 3 with (Z.ones 2) in H.
  rewrite Z.testbit_ones_nonneg in H by lia.
  replace (n <? 2) with true in H by (symmetry; apply Z.ltb_lt; lia).
  rewrite andb_true_r in H. exact H.
Qed.

Lemma high_bits_clear m n :
  0 <= m < 2 ^ 32 -> 32 <= n -> Z.testbit m n = false.
Proof.
  intros Hm Hn. destruct (Z.eq_dec m 0) as [->|Hne]; [apply Z.bits_0|].
  apply Z.bits_above_log2; [lia|].
  apply Z.log2_lt_pow2; [lia|].
  pose proof (Z.pow_le_mono_r 2 32 n). lia.
Qed.

(** The mask of [DecodeTraceMethodId] keeps bits 2 to 31. *)
Lemma method_mask_bits n :
  0 <= n ->
  Z.testbit (uint32_t (Z.lnot (TraceAction_value kTraceMethodActionMask))) n
  = (2 <=? n) && (n <? 32).
Proof.
  intros Hn. unfold uint32_t. rewrite <- Z.land_ones by lia.
  rewrite Z.land_spec, Z.lnot_spec by lia.
  simpl TraceAction_value. change 3 with (Z.ones 2).
  rewrite !Z.testbit_ones_nonneg by lia.
  destruct (Z.leb_spec 2 n), (Z.ltb_spec n 2), (Z.ltb_spec n 32); simpl; lia.
Qed.

Lemma DecodeTraceMethodId_Encode m a :
  0 <= m < 2 ^ 32 -> Z.land m 3 = 0 ->
  DecodeTraceMethodId (EncodeTraceMethodAndAction m a) = m.
Proof.
  intros Hm Hal. unfold DecodeTraceMethodId, EncodeTraceMethodAndAction.
  rewrite uint32_t_id by exact Hm.
  apply Z.bits_inj'. intros n Hn.
  rewrite Z.land_spec, Z.lor_spec, method_mask_bits by exact Hn.
  destruct (Z.leb_spec 2 n) as [H2|H2]; simpl.
  - rewrite TraceAction_value_bits, orb_false_r by exact H2.
    destruct (Z.ltb_spec n 32) as [H32|H32].
    + apply andb_true_r.
    + rewrite andb_false_r. symmetry. apply high_bits_clear; assumption.
  - rewrite andb_false_r. symmetry. apply low_bits_clear; [assumption|lia].
Qed.

Lemma DecodeTraceAction_Encode m a :
  0 <= m < 2 ^ 32 -> Z.land m 3 = 0 ->
  DecodeTraceAction (EncodeTraceMethodAndAction m a) = a.
Proof.
  intros Hm Hal. unfold DecodeTraceAction, EncodeTraceMethodAndAction.
  rewrite uint32_t_id by exact Hm.
  rewrite Z.land_lor_distr_l. simpl (TraceAction_value kTraceMethodActionMask).
  rewrite Hal, Z.lor_0_l.
  destruct a; reflexivity.
Qed.

(** C2. For every method reference [m] (a 32-bit address) whose two low
    bits are zero and every action [a] (enter, exit, unroll; the mask
    enumerator too), decoding [EncodeTraceMethodAndAction m a] gives back
    [m] by [DecodeTraceMethodId] and [a] by [DecodeTraceAction], and the
    [DCHECK_EQ] made when encoding holds. *)
Theorem encode_decode_roundtrip (m : Z) (a : TraceAction) :
  0 <= m < 2 ^ 32 -> Z.land m 3 = 0 ->
  DecodeTraceMethodId (EncodeTraceMethodAndAction m a) = m /\
  DecodeTraceAction (EncodeTraceMethodAndAction m a) = a /\
  EncodeTraceMethodAndAction_DCHECK m a = true.
Proof.
  intros Hm Hal. split; [|split].
  - apply DecodeTraceMethodId_Encode; assumption.
  - apply DecodeTraceAction_Encode; assumption.
  - unfold EncodeTraceMethodAndAction_DCHECK.
    rewrite DecodeTraceMethodId_Encode by assumption. apply Z.eqb_refl.
Qed.

(** ** Little-endian bytes *)

Lemma le_bytes_length n v : length (le_bytes n v) = n.
Proof. revert v. induction n as [|n IH]; intros v; simpl; [reflexivity|]. now rewrite IH. Qed.

Lemma le_value_le_bytes n v : le_value (le_bytes n v) = v mod 256 ^ Z.of_nat n.
Proof.
  revert v. induction n as [|n IH]; intros v.
  - simpl. now rewrite Z.mod_1_r.
  - cbn [le_bytes le_value]. rewrite IH.
    rewrite Nat2Z.inj_succ, Z.pow_succ_r by lia.
    rewrite Z.rem_mul_r by lia. reflexivity.
Qed.

Lemma le_value_uint16 v : le_value (le_bytes 2 (uint16_t v)) = uint16_t v.
Proof.
  rewrite le_value_le_bytes. change (256 ^ Z.of_nat 2) with (2 ^ 16).
  apply Z.mod_small. unfold uint16_t. apply Z.mod_pos_bound. lia.
Qed.

Lemma le_value_uint32 v : le_value (le_bytes 4 (uint32_t v)) = uint32_t v.
Proof.
  rewrite le_value_le_bytes. change (256 ^ Z.of_nat 4) with (2 ^ 32).
  apply Z.mod_small, uint32_t_range.
Qed.

Lemma le_value_uint64 v : le_value (le_bytes 8 (uint64_t v)) = uint64_t v.
Proof.
  rewrite le_value_le_bytes. change (256 ^ Z.of_nat 8) with (2 ^ 64).
  apply Z.mod_small, uint64_t_range.
Qed.

Lemma uint8_shiftr v k :
  0 <= k -> uint8_t (Z.shiftr v (8 * k)) = (v / 256 ^ k) mod 256.
Proof.
  intros Hk. unfold uint8_t. rewrite Z.shiftr_div_pow2 by lia.
  rewrite Z.pow_mul_r by lia. reflexivity.
Qed.

(** ** Stores and loads *)

Lemma store_length buf p v : length (store buf p v) = length buf.
Proof. unfold store. destruct (0 <=? p); [apply length_insert|reflexivity]. Qed.

Lemma store_lookup_eq buf p v :
  0 <= p -> (Z.to_nat p < length buf)%nat ->
  store buf p v !! Z.to_nat p = Some v.
Proof.
  intros Hp Hlen. unfold store.
  destruct (Z.leb_spec 0 p); [|lia]. now apply list_lookup_insert_eq.
Qed.

Lemma store_lookup_ne buf p v (i : nat) :
  i ≠ Z.to_nat p -> store buf p v !! i = buf !! i.
Proof.
  intros Hne. unfold store.
  destruct (0 <=? p); [|reflexivity]. apply list_lookup_insert_ne. congruence.
Qed.

Lemma store_app_l l1 l2 p v :
  (Z.to_nat p < length l1)%nat -> store (l1 ++ l2) p v = store l1 p v ++ l2.
Proof.
  intros Hp. unfold store. destruct (0 <=? p); [|reflexivity].
  now apply insert_app_l.
Qed.

Lemma bytes_at_cons buf p n x :
  0 <= p -> buf !! Z.to_nat p = Some x ->
  bytes_at buf p (S n) = x :: bytes_at buf (p + 1) n.
Proof.
  intros Hp Hx. unfold bytes_at.
  replace (Z.to_nat (p + 1)) with (S (Z.to_nat p)) by lia.
  rewrite (drop_S _ _ _ Hx). reflexivity.
Qed.

Lemma bytes_at_frame buf buf' p n :
  0 <= p ->
  (forall i : nat, (Z.to_nat p <= i < Z.to_nat p + n)%nat -> buf' !! i = buf !! i) ->
  bytes_at buf' p n = bytes_at buf p n.
Proof.
  intros Hp H. unfold bytes_at. apply list_eq. intros i.
  destruct (decide (i < n)%nat) as [Hi|Hi].
  - rewrite !lookup_take_lt, !lookup_drop by exact Hi. apply H. lia.
  - rewrite !lookup_take_ge by lia. reflexivity.
Qed.

Lemma bytes_at_app_l l1 l2 p n :
  0 <= p -> (Z.to_nat p + n <= length l1)%nat ->
  bytes_at (l1 ++ l2) p n = bytes_at l1 p n.
Proof.
  intros Hp Hlen. apply bytes_at_frame; [exact Hp|].
  intros i Hi. apply lookup_app_l. lia.
Qed.

Lemma Append2LE_length buf p v : length (Append2LE buf p v) = length buf.
Proof. unfold Append2LE. now rewrite !store_length. Qed.

Lemma Append4LE_length buf p v : length (Append4LE buf p v) = length buf.
Proof. unfold Append4LE. now rewrite !store_length. Qed.

Lemma Append8LE_length buf p v : length (Append8LE buf p v) = length buf.
Proof. unfold Append8LE. now rewrite !store_length. Qed.

(** A store sequence leaves the bytes outside its range as they were. *)
Lemma Append2LE_lookup_out buf p v (i : nat) :
  0 <= p -> (i < Z.to_nat p \/ Z.to_nat p + 2 <= i)%nat ->
  Append2LE buf p v !! i = buf !! i.
Proof.
  intros Hp Hi. unfold Append2LE. rewrite !store_lookup_ne by lia. reflexivity.
Qed.

Lemma Append4LE_lookup_out buf p v (i : nat) :
  0 <= p -> (i < Z.to_nat p \/ Z.to_nat p + 4 <= i)%nat ->
  Append4LE buf p v !! i = buf !! i.
Proof.
  intros Hp Hi. unfold Append4LE. rewrite !store_lookup_ne by lia. reflexivity.
Qed.

(** What a store sequence leaves in its range. *)
Lemma Append2LE_bytes buf p v :
  0 <= p -> (Z.to_nat p + 2 <= length buf)%nat ->
  bytes_at (Append2LE buf p v) p 2 = le_bytes 2 (uint16_t v).
Proof.
  intros Hp Hlen. unfold Append2LE.
  set (val := uint16_t v).
  rewrite (bytes_at_cons _ p 1 (uint8_t val)); [|exact Hp|].
  2:{ rewrite store_lookup_ne by lia. apply store_lookup_eq; lia. }
  rewrite (bytes_at_cons _ (p + 1) 0 (uint8_t (Z.shiftr val 8))); [|lia|].
  2:{ apply store_lookup_eq; [lia|]. rewrite store_length. lia. }
  cbn [le_bytes]. unfold bytes_at. rewrite take_0.
  unfold uint8_t. rewrite !Z.shiftr_div_pow2 by lia. reflexivity.
Qed.

Lemma Append4LE_bytes buf p v :
  0 <= p -> (Z.to_nat p + 4 <= length buf)%nat ->
  bytes_at (Append4LE buf p v) p 4 = le_bytes 4 (uint32_t v).
Proof.
  intros Hp Hlen. unfold Append4LE.
  set (val := uint32_t v).
  rewrite (bytes_at_cons _ p 3 (uint8_t val)); [|exact Hp|].
  2:{ rewrite !store_lookup_ne by lia. apply store_lookup_eq; lia. }
  rewrite (bytes_at_cons _ (p + 1) 2 (uint8_t (Z.shiftr val 8))); [|lia|].
  2:{ rewrite !store_lookup_ne by lia.
      apply store_lookup_eq; [lia|]. rewrite !store_length. lia. }
  replace (p + 1 + 1) with (p + 2) by lia.
  rewrite (bytes_at_cons _ (p + 2) 1 (uint8_t (Z.shiftr val 16))); [|lia|].
  2:{ rewrite !store_lookup_ne by lia.
      apply store_lookup_eq; [lia|]. rewrite !store_length. lia. }
  replace (p + 2 + 1) with (p + 3) by lia.
  rewrite (bytes_at_cons _ (p + 3) 0 (uint8_t (Z.shiftr val 24))); [|lia|].
  2:{ apply store_lookup_eq; [lia|]. rewrite !store_length. lia. }
  cbn [le_bytes]. unfold bytes_at. rewrite take_0.
  unfold uint8_t. rewrite !Z.shiftr_div_pow2, !Z.div_div by lia. reflexivity.
Qed.

(** The record fields read back what the stores wrote. *)
Lemma le_value_Append2LE buf p v :
  0 <= p -> (Z.to_nat p + 2 <= length buf)%nat ->
  le_value (bytes_at (Append2LE buf p v) p 2) = uint16_t v.
Proof. intros. rewrite Append2LE_bytes by assumption. apply le_value_uint16. Qed.

Lemma le_value_Append4LE buf p v :
  0 <= p -> (Z.to_nat p + 4 <= length buf)%nat ->
  le_value (bytes_at (Append4LE buf p v) p 4) = uint32_t v.
Proof. intros. rewrite Append4LE_bytes by assumption. apply le_value_uint32. Qed.

Lemma memset_length buf p v n : length (memset buf p v n) = length buf.
Proof.
  revert buf p. induction n as [|n IH]; intros buf p; simpl; [reflexivity|].
  now rewrite IH, store_length.
Qed.

Lemma memset_app_l l1 l2 p v n :
  0 <= p -> (Z.to_nat p + n <= length l1)%nat ->
  memset (l1 ++ l2) p v n = memset l1 p v n ++ l2.
Proof.
  revert l1 p. induction n as [|n IH]; intros l1 p Hp Hlen; simpl; [reflexivity|].
  rewrite store_app_l by lia. apply IH; [lia|]. rewrite store_length. lia.
Qed.

Lemma Append2LE_app_l l1 l2 p v :
  0 <= p -> (Z.to_nat p + 2 <= length l1)%nat ->
  Append2LE (l1 ++ l2) p v = Append2LE l1 p v ++ l2.
Proof.
  intros Hp Hlen. unfold Append2LE.
  rewrite !store_app_l; rewrite ?store_length; try lia. reflexivity.
Qed.

Lemma Append4LE_app_l l1 l2 p v :
  0 <= p -> (Z.to_nat p + 4 <= length l1)%nat ->
  Append4LE (l1 ++ l2) p v = Append4LE l1 p v ++ l2.
Proof.
  intros Hp Hlen. unfold Append4LE.
  rewrite !store_app_l; rewrite ?store_length; try lia. reflexivity.
Qed.

Lemma Append8LE_app_l l1 l2 p v :
  0 <= p -> (Z.to_nat p + 8 <= length l1)%nat ->
  Append8LE (l1 ++ l2) p v = Append8LE l1 p v ++ l2.
Proof.
  intros Hp Hlen. unfold Append8LE.
  rewrite !store_app_l; rewrite ?store_length; try lia. reflexivity.
Qed.

(** ** The header *)

Lemma store_app_r pre l p v :
  (length pre <= Z.to_nat p)%nat -> 0 <= p ->
  store (pre ++ l) p v = pre ++ store l (p - Z.of_nat (length pre)) v.
Proof.
  intros Hlen Hp. unfold store.
  destruct (Z.leb_spec 0 p); [|lia].
  destruct (Z.leb_spec 0 (p - Z.of_nat (length pre))); [|lia].
  rewrite insert_app_r_alt by exact Hlen. do 2 f_equal. lia.
Qed.

Lemma Append2LE_app_r pre l p v :
  (length pre <= Z.to_nat p)%nat -> 0 <= p ->
  Append2LE (pre ++ l) p v = pre ++ Append2LE l (p - Z.of_nat (length pre)) v.
Proof.
  intros Hlen Hp. unfold Append2LE.
  rewrite !store_app_r by lia. repeat (f_equal; try lia).
Qed.

Lemma Append8LE_app_r pre l p v :
  (length pre <= Z.to_nat p)%nat -> 0 <= p ->
  Append8LE (pre ++ l) p v = pre ++ Append8LE l (p - Z.of_nat (length pre)) v.
Proof.
  intros Hlen Hp. unfold Append8LE.
  rewrite !store_app_r by lia. repeat (f_equal; try lia).
Qed.

Lemma Append2LE_exact a b post v :
  Append2LE (a :: b :: post) 0 v = le_bytes 2 (uint16_t v) ++ post.
Proof.
  unfold Append2LE, store, uint8_t. simpl.
  rewrite !Z.shiftr_div_pow2 by lia. reflexivity.
Qed.

Lemma Append4LE_exact a b c d post v :
  Append4LE (a :: b :: c :: d :: post) 0 v = le_bytes 4 (uint32_t v) ++ post.
Proof.
  unfold Append4LE, store, uint8_t. simpl.
  rewrite !Z.shiftr_div_pow2, !Z.div_div by lia. reflexivity.
Qed.

Lemma Append8LE_exact a b c d e f g h post v :
  Append8LE (a :: b :: c :: d :: e :: f :: g :: h :: post) 0 v
  = le_bytes 8 (uint64_t v) ++ post.
Proof.
  unfold Append8LE, store, uint8_t. simpl.
  rewrite !Z.shiftr_div_pow2, !Z.div_div by lia. reflexivity.
Qed.

(** The stores of the constructor on a zeroed header. *)
Lemma header_stores (ver start : Z) :
  Append8LE (Append2LE (Append2LE (Append4LE
    (memset (replicate 32 0) 0 0 32) 0 kTraceMagicValue) 4 ver) 6 32) 8 start
  = le_bytes 4 kTraceMagicValue ++ le_bytes 2 (uint16_t ver) ++ le_bytes 2 32
    ++ le_bytes 8 (uint64_t start) ++ replicate 16 0.
Proof.
  change (memset (replicate 32 0) 0 0 32) with (replicate 32 0).
  change (replicate 32 0) with ([0; 0; 0; 0] ++ replicate 28 0).
  rewrite Append4LE_app_l by (simpl; lia).
  rewrite (Append4LE_exact 0 0 0 0 []), app_nil_r.
  change (uint32_t kTraceMagicValue) with kTraceMagicValue.
  set (magic := le_bytes 4 kTraceMagicValue).
  assert (Hmagic : length magic = 4%nat) by apply le_bytes_length.
  rewrite Append2LE_app_r by (rewrite ?Hmagic; lia).
  rewrite Hmagic. change (4 - Z.of_nat 4) with 0.
  change (replicate 28 0) with (0 :: 0 :: replicate 26 0).
  rewrite Append2LE_exact.
  set (version := le_bytes 2 (uint16_t ver)).
  assert (Hversion : length version = 2%nat) by apply le_bytes_length.
  rewrite Append2LE_app_r by (rewrite ?Hmagic; lia).
  rewrite Hmagic. change (6 - Z.of_nat 4) with 2.
  rewrite Append2LE_app_r by (rewrite ?Hversion; lia).
  rewrite Hversion. change (2 - Z.of_nat 2) with 0.
  change (replicate 26 0) with (0 :: 0 :: replicate 24 0).
  rewrite Append2LE_exact.
  change (le_bytes 2 (uint16_t 32)) with (le_bytes 2 32).
  set (offset := le_bytes 2 32).
  assert (Hoffset : length offset = 2%nat) by apply le_bytes_length.
  rewrite Append8LE_app_r by (rewrite ?Hmagic; lia).
  rewrite Hmagic. change (8 - Z.of_nat 4) with 4.
  rewrite Append8LE_app_r by (rewrite ?Hversion; lia).
  rewrite Hversion. change (4 - Z.of_nat 2) with 2.
  rewrite Append8LE_app_r by (rewrite ?Hoffset; lia).
  rewrite Hoffset. change (2 - Z.of_nat 2) with 0.
  change (replicate 24 0) with (0 :: 0 :: 0 :: 0 :: 0 :: 0 :: 0 :: 0 :: replicate 16 0).
  rewrite Append8LE_exact. reflexivity.
Qed.

Lemma header_record_size (pre : list Z) (rs : Z) :
  length pre = 16%nat ->
  Append2LE (pre ++ replicate 16 0) 16 rs
  = pre ++ le_bytes 2 (uint16_t rs) ++ replicate 14 0.
Proof.
  intros Hpre. rewrite Append2LE_app_r by (rewrite ?Hpre; lia).
  rewrite Hpre. change (16 - Z.of_nat 16) with 0.
  change (replicate 16 0) with (0 :: 0 :: replicate 14 0).
  now rewrite Append2LE_exact.
Qed.

Lemma Trace_new_buf cs file bs flags rt :
  kTraceHeaderLength <= bs ->
  buf_ (Trace_new cs file bs flags rt).1
  = spec_header cs (start_time_ (Trace_new cs file bs flags rt).1)
    ++ replicate (Z.to_nat bs - 32) 0.
Proof.
  unfold kTraceHeaderLength. intros Hbs. unfold Trace_new.
  cbn [MicroTime fst snd buf_ start_time_].
  set (t := wall_clock (rt_clocks rt) (wall_reads (rt_clocks rt))).
  replace (replicate (Z.to_nat bs) 0)
    with (replicate 32 0 ++ replicate (Z.to_nat bs - 32) 0)
    by (rewrite <- replicate_add; f_equal; lia).
  set (rest := replicate (Z.to_nat bs - 32) 0).
  change (Z.to_nat kTraceHeaderLength) with 32%nat.
  rewrite memset_app_l by (simpl; lia).
  rewrite Append4LE_app_l by (rewrite ?memset_length; simpl; lia).
  rewrite Append2LE_app_l
    by (rewrite ?Append4LE_length, ?memset_length; simpl; lia).
  rewrite Append2LE_app_l
    by (rewrite ?Append2LE_length, ?Append4LE_length, ?memset_length; simpl; lia).
  rewrite Append8LE_app_l
    by (rewrite ?Append2LE_length, ?Append4LE_length, ?memset_length; simpl; lia).
  change kTraceHeaderLength with 32.
  rewrite header_stores.
  assert (Htt : uint64_t (uint64_t t) = uint64_t t)
    by (apply uint64_t_id, uint64_t_range).
  rewrite Htt. unfold spec_header.
  destruct cs; [reflexivity | reflexivity |].
  change (kTraceVersionDualClock <=? GetTraceVersion kProfilerClockSourceDual)
    with true.
  change (3 <=? GetTraceVersion kProfilerClockSourceDual) with true.
  cbv iota.
  rewrite Append2LE_app_l by (rewrite ?length_app, ?le_bytes_length; simpl; lia).
  rewrite (header_record_size
             (le_bytes 4 kTraceMagicValue
              ++ le_bytes 2 (uint16_t (GetTraceVersion kProfilerClockSourceDual))
              ++ le_bytes 2 32 ++ le_bytes 8 (uint64_t t))) by reflexivity.
  reflexivity.
Qed.

Lemma spec_header_length cs start : length (spec_header cs start) = 32%nat.
Proof. destruct cs; reflexivity. Qed.

Lemma Trace_new_start_time cs file bs flags rt :
  start_time_ (Trace_new cs file bs flags rt).1 = (MicroTime (rt_clocks rt)).1.
Proof. reflexivity. Qed.

(** C5. The constructor leaves in the first 32 bytes of the buffer: the
    magic 0x574F4C53 as a little-endian u32 at offset 0 (bytes 53 4C 4F 57);
    the version as u16 at offset 4, 2 for a single clock and 3 for dual; 32
    as u16 at offset 6; the start time, one read of the wall clock, as u64
    at offset 8; at offset 16 the record size as u16 when the version is at
    least 3; and zeros in every other byte up to offset 32. *)
Theorem header_layout cs file bs flags rt :
  kTraceHeaderLength <= bs ->
  let tr := (Trace_new cs file bs flags rt).1 in
  let version := GetTraceVersion cs in
  let hdr := bytes_at (buf_ tr) in
  start_time_ tr = (MicroTime (rt_clocks rt)).1 /\
  version = (if decide (cs = kProfilerClockSourceDual) then 3 else 2) /\
  hdr 0 32%nat = spec_header cs (start_time_ tr) /\
  hdr 0 4%nat = [0x53; 0x4C; 0x4F; 0x57] /\
  le_value (hdr 0 4%nat) = 0x574F4C53 /\
  le_value (hdr 4 2%nat) = version /\
  le_value (hdr 6 2%nat) = 32 /\
  le_value (hdr 8 8%nat) = start_time_ tr /\
  le_value (hdr 16 2%nat) = (if 3 <=? version then GetRecordSize cs else 0) /\
  hdr 16 2%nat = (if 3 <=? version then le_bytes 2 (GetRecordSize cs) else [0; 0]) /\
  hdr 18 14%nat = replicate 14 0.
Proof.
  intros Hbs tr version hdr.
  assert (Hbuf : forall p (n : nat), 0 <= p -> (Z.to_nat p + n <= 32)%nat ->
            hdr p n = bytes_at (spec_header cs (start_time_ tr)) p n).
  { intros p n Hp Hn. unfold hdr, tr. rewrite Trace_new_buf by exact Hbs.
    apply bytes_at_app_l; [exact Hp|]. rewrite spec_header_length. exact Hn. }
  assert (Hstart : start_time_ tr = uint64_t (start_time_ tr)).
  { unfold tr. rewrite Trace_new_start_time. symmetry.
    apply uint64_t_id, uint64_t_range. }
  split; [reflexivity|].
  split; [reflexivity|].
  rewrite !Hbuf by (simpl; lia).
  split; [destruct cs; reflexivity|].
  split; [destruct cs; reflexivity|].
  split; [destruct cs; reflexivity|].
  split; [destruct cs; reflexivity|].
  split; [destruct cs; reflexivity|].
  split.
  { transitivity (le_value (le_bytes 8 (start_time_ tr)));
      [destruct cs; reflexivity|].
    rewrite Hstart at 1. rewrite le_value_uint64. symmetry. exact Hstart. }
  split; [destruct cs; reflexivity|].
  split; destruct cs; reflexivity.
Qed.

(** ** The logging path, one call *)

Lemma bytes_at_Append4LE_out buf p v q (n : nat) :
  0 <= p -> 0 <= q -> q + Z.of_nat n <= p \/ p + 4 <= q ->
  bytes_at (Append4LE buf p v) q n = bytes_at buf q n.
Proof.
  intros Hp Hq Hout. apply bytes_at_frame; [exact Hq|].
  intros i Hi. apply Append4LE_lookup_out; [exact Hp|lia].
Qed.

Lemma bytes_at_Append2LE_out buf p v q (n : nat) :
  0 <= p -> 0 <= q -> q + Z.of_nat n <= p \/ p + 2 <= q ->
  bytes_at (Append2LE buf p v) q n = bytes_at buf q n.
Proof.
  intros Hp Hq Hout. apply bytes_at_frame; [exact Hq|].
  intros i Hi. apply Append2LE_lookup_out; [exact Hp|lia].
Qed.

Lemma action_of_callback_event cb :
  exists event action,
    dispatch cb = LogMethodTraceEvent (callback_thread cb)
                    (match cb with
                     | OnMethodEntered _ m | OnMethodExited _ m | OnMethodUnwind _ m => m
                     end) event
    /\ action_of_event event = Some action.
Proof.
  destruct cb; simpl.
  - exists kMethodEntered, kTraceMethodEnter. split; reflexivity.
  - exists kMethodExited, kTraceMethodExit. split; reflexivity.
  - exists kMethodUnwind, kTraceUnroll. split; reflexivity.
Qed.

(** What the code after the loop leaves alone. *)
Lemma LogMethodTraceEvent_record_frame thread method event old tr rt tr' rt' :
  LogMethodTraceEvent_record thread method event old tr rt = Some (tr', rt') ->
  trace_file_ tr' = trace_file_ tr /\ flags_ tr' = flags_ tr /\
  clock_source_ tr' = clock_source_ tr /\ buffer_size_ tr' = buffer_size_ tr /\
  start_time_ tr' = start_time_ tr /\ cur_offset_ tr' = cur_offset_ tr /\
  overflow_ tr' = overflow_ tr /\ length (buf_ tr') = length (buf_ tr) /\
  rt' = set_clocks (rt_clocks rt') rt.
Proof.
  unfold LogMethodTraceEvent_record. intros H.
  destruct (action_of_event event); [|discriminate].
  destruct (UseThreadCpuClock tr);
    [destruct (thread_clock_base_map_ tr !! thread_ptr thread)|];
    destruct (UseWallClock tr); simpl in H; inversion H; subst; simpl;
    rewrite ?Append4LE_length, ?Append2LE_length; repeat split; reflexivity.
Qed.

(** With a traced event the code after the loop returns. *)
Lemma LogMethodTraceEvent_record_returns thread method event action old tr rt :
  action_of_event event = Some action ->
  exists tr' rt',
    LogMethodTraceEvent_record thread method event old tr rt = Some (tr', rt').
Proof.
  intros Ha. unfold LogMethodTraceEvent_record. rewrite Ha.
  destruct (UseThreadCpuClock tr);
    [destruct (thread_clock_base_map_ tr !! thread_ptr thread)|];
    destruct (UseWallClock tr); simpl; eauto.
Qed.

(** A call that finds no room only sets [overflow_]. *)
Lemma LogMethodTraceEvent_dropped thread method event tr rt :
  reserves tr = false ->
  LogMethodTraceEvent thread method event tr rt = Some (set_overflow_ true tr, rt).
Proof.
  unfold reserves, LogMethodTraceEvent. intros H.
  apply negb_false_iff in H. now rewrite H.
Qed.

(** A call that finds room moves [cur_offset_] and writes the record at
    the old offset. *)
Lemma LogMethodTraceEvent_reserved thread method event tr rt :
  reserves tr = true ->
  LogMethodTraceEvent thread method event tr rt
  = LogMethodTraceEvent_record thread method event (cur_offset_ tr)
      (set_cur_offset_ (int32_t (cur_offset_ tr + GetRecordSize (clock_source_ tr))) tr)
      rt.
Proof.
  unfold reserves, LogMethodTraceEvent. intros H.
  apply negb_true_iff in H. rewrite H.
  unfold android_atomic_release_cas. now rewrite Z.eqb_refl.
Qed.

Lemma dispatch_returns cb tr rt :
  exists tr' rt', dispatch cb tr rt = Some (tr', rt').
Proof.
  destruct (action_of_callback_event cb) as (event & action & -> & Ha).
  destruct (reserves tr) eqn:Hres.
  - rewrite LogMethodTraceEvent_reserved by exact Hres.
    eapply LogMethodTraceEvent_record_returns; eassumption.
  - rewrite LogMethodTraceEvent_dropped by exact Hres. eauto.
Qed.

Lemma run_returns cbs tr rt : exists tr' rt', run cbs tr rt = Some (tr', rt').
Proof.
  revert tr rt. induction cbs as [|cb cbs IH]; intros tr rt; simpl; [eauto|].
  destruct (dispatch_returns cb tr rt) as (tr1 & rt1 & ->). apply IH.
Qed.

Lemma run_app cbs1 cbs2 tr rt :
  run (cbs1 ++ cbs2) tr rt
  = match run cbs1 tr rt with
    | Some (tr', rt') => run cbs2 tr' rt'
    | None => None
    end.
Proof.
  revert tr rt. induction cbs1 as [|cb cbs1 IH]; intros tr rt; simpl; [reflexivity|].
  destruct (dispatch cb tr rt) as [[tr1 rt1]|]; [apply IH|reflexivity].
Qed.

Lemma GetRecordSize_cases cs : GetRecordSize cs = 10 \/ GetRecordSize cs = 14.
Proof. destruct cs; [left|left|right]; reflexivity. Qed.

(** ** The cursor *)

Lemma reserves_spec tr :
  trace_ok tr ->
  reserves tr = true <->
  cur_offset_ tr + GetRecordSize (clock_source_ tr) <= buffer_size_ tr.
Proof.
  intros [Hlo Hhi _ Hint _ _]. unfold reserves.
  unfold kTraceHeaderLength, INT32_MAX in *.
  pose proof (GetRecordSize_cases (clock_source_ tr)) as Hrs.
  rewrite int32_t_id by lia.
  rewrite negb_true_iff, Z.ltb_ge. reflexivity.
Qed.

Lemma Trace_new_ok cs file bs flags rt :
  kTraceHeaderLength <= bs -> bs + GetRecordSize cs <= INT32_MAX ->
  trace_ok (Trace_new cs file bs flags rt).1.
Proof.
  intros Hlo Hhi. pose proof (Trace_new_buf cs file bs flags rt Hlo) as Hbuf.
  unfold kTraceHeaderLength in *.
  split.
  - simpl. unfold kTraceHeaderLength. lia.
  - simpl. unfold kTraceHeaderLength. lia.
  - reflexivity.
  - simpl. lia.
  - rewrite Hbuf, length_app, spec_header_length, length_replicate. simpl. lia.
  - simpl. discriminate.
Qed.

(** One call: what it does to the cursor, the flag and the fixed fields. *)
Lemma LogMethodTraceEvent_cursor thread method event tr rt tr' rt' :
  LogMethodTraceEvent thread method event tr rt = Some (tr', rt') ->
  trace_file_ tr' = trace_file_ tr /\ flags_ tr' = flags_ tr /\
  clock_source_ tr' = clock_source_ tr /\ buffer_size_ tr' = buffer_size_ tr /\
  start_time_ tr' = start_time_ tr /\
  length (buf_ tr') = length (buf_ tr) /\
  cur_offset_ tr' =
    (if reserves tr
     then int32_t (cur_offset_ tr + GetRecordSize (clock_source_ tr))
     else cur_offset_ tr) /\
  overflow_ tr' = overflow_ tr || negb (reserves tr).
Proof.
  intros H. destruct (reserves tr) eqn:Hres.
  - rewrite LogMethodTraceEvent_reserved in H by exact Hres.
    apply LogMethodTraceEvent_record_frame in H.
    destruct H as (? & ? & ? & ? & ? & ? & ? & ? & ?). simpl in *.
    rewrite orb_false_r. repeat split; assumption.
  - rewrite LogMethodTraceEvent_dropped in H by exact Hres.
    inversion H; subst. simpl. rewrite orb_true_r. repeat split; reflexivity.
Qed.

Lemma dispatch_cursor cb tr rt tr' rt' :
  dispatch cb tr rt = Some (tr', rt') ->
  trace_file_ tr' = trace_file_ tr /\ flags_ tr' = flags_ tr /\
  clock_source_ tr' = clock_source_ tr /\ buffer_size_ tr' = buffer_size_ tr /\
  start_time_ tr' = start_time_ tr /\
  length (buf_ tr') = length (buf_ tr) /\
  cur_offset_ tr' =
    (if reserves tr
     then int32_t (cur_offset_ tr + GetRecordSize (clock_source_ tr))
     else cur_offset_ tr) /\
  overflow_ tr' = overflow_ tr || negb (reserves tr).
Proof. destruct cb; apply LogMethodTraceEvent_cursor. Qed.

Lemma dispatch_ok cb tr rt tr' rt' :
  trace_ok tr -> dispatch cb tr rt = Some (tr', rt') ->
  trace_ok tr' /\ cur_offset_ tr <= cur_offset_ tr' /\
  (overflow_ tr = true -> overflow_ tr' = true /\ cur_offset_ tr' = cur_offset_ tr).
Proof.
  intros Hok H. pose proof (reserves_spec tr Hok) as Hres.
  apply dispatch_cursor in H.
  destruct H as (_ & _ & Hcs & Hbs & _ & Hlen & Hcur & Hov).
  destruct Hok as [Hlo Hhi Hal Hint Hbuf Hovf].
  pose proof (GetRecordSize_cases (clock_source_ tr)) as Hrs.
  unfold kTraceHeaderLength, INT32_MAX in *.
  destruct (reserves tr).
  - assert (Hfit : cur_offset_ tr + GetRecordSize (clock_source_ tr)
                   <= buffer_size_ tr) by (apply Hres; reflexivity).
    rewrite int32_t_id in Hcur by lia.
    split; [split|split].
    + unfold kTraceHeaderLength. lia.
    + lia.
    + rewrite Hcs, Hcur. unfold kTraceHeaderLength.
      replace (cur_offset_ tr + GetRecordSize (clock_source_ tr) - 32)
        with (cur_offset_ tr - 32 + 1 * GetRecordSize (clock_source_ tr)) by lia.
      rewrite Z_mod_plus_full. exact Hal.
    + unfold INT32_MAX. rewrite Hcs, Hbs. lia.
    + rewrite Hlen, Hbs. exact Hbuf.
    + rewrite Hov, orb_false_r, Hcs, Hbs, Hcur. intros Ht. specialize (Hovf Ht). lia.
    + lia.
    + intros Ht. specialize (Hovf Ht). lia.
  - assert (Hfull : ~ cur_offset_ tr + GetRecordSize (clock_source_ tr)
                      <= buffer_size_ tr) by (intros Hc; apply Hres in Hc; discriminate).
    split; [split|split].
    + unfold kTraceHeaderLength. lia.
    + lia.
    + rewrite Hcs, Hcur. exact Hal.
    + unfold INT32_MAX. rewrite Hcs, Hbs. lia.
    + rewrite Hlen, Hbs. exact Hbuf.
    + rewrite Hcs, Hbs, Hcur. intros _. lia.
    + lia.
    + intros _. rewrite Hov, orb_true_r. split; [reflexivity|exact Hcur].
Qed.

Lemma run_ok cbs tr rt tr' rt' :
  trace_ok tr -> run cbs tr rt = Some (tr', rt') ->
  trace_ok tr' /\ cur_offset_ tr <= cur_offset_ tr' /\
  buffer_size_ tr' = buffer_size_ tr /\ clock_source_ tr' = clock_source_ tr /\
  (overflow_ tr = true -> overflow_ tr' = true /\ cur_offset_ tr' = cur_offset_ tr).
Proof.
  revert tr rt. induction cbs as [|cb cbs IH]; intros tr rt Hok H; simpl in H.
  - inversion H; subst. split; [exact Hok|]. split; [lia|].
    split; [reflexivity|]. split; [reflexivity|]. intros Ht. split; [exact Ht|reflexivity].
  - destruct (dispatch cb tr rt) as [[tr1 rt1]|] eqn:Hd; [|discriminate].
    destruct (dispatch_ok _ _ _ _ _ Hok Hd) as (Hok1 & Hle1 & Hov1).
    apply dispatch_cursor in Hd. destruct Hd as (_ & _ & Hcs & Hbs & _).
    destruct (IH _ _ Hok1 H) as (Hok' & Hle' & Hbs' & Hcs' & Hov').
    split; [exact Hok'|]. split; [lia|]. split; [congruence|]. split; [congruence|].
    intros Ht. destruct (Hov1 Ht) as [Ht1 Hc1]. destruct (Hov' Ht1) as [Ht' Hc'].
    split; [exact Ht'|congruence].
Qed.

(** C3. After the constructor and any sequence of recording callbacks the
    cursor [cur_offset_] lies between 32 and [buffer_size], and
    [(cur_offset_ - 32) mod record size] is 0, where the record size is 10
    for a single clock and 14 for dual; and the cursor never decreases: after
    any prefix of the calls it is at most what it is after all of them.
    The buffer holds the header ([32 <= buffer_size]) and
    [buffer_size + record size] fits [int32_t], which keeps the source free
    of the out-of-bounds header store and of signed overflow. *)
Theorem cursor_invariant cs file bs flags rt (cbs : list Callback) :
  kTraceHeaderLength <= bs -> bs + GetRecordSize cs <= INT32_MAX ->
  let '(tr0, rt0) := Trace_new cs file bs flags rt in
  GetRecordSize cs = (if decide (cs = kProfilerClockSourceDual) then 14 else 10) /\
  cur_offset_ tr0 = 32 /\
  exists tr rt',
    run cbs tr0 rt0 = Some (tr, rt') /\
    32 <= cur_offset_ tr <= bs /\
    (cur_offset_ tr - 32) mod GetRecordSize cs = 0 /\
    forall pre post, cbs = pre ++ post ->
      exists trp rtp,
        run pre tr0 rt0 = Some (trp, rtp) /\
        32 <= cur_offset_ trp <= cur_offset_ tr.
Proof.
  intros Hlo Hhi.
  pose proof (Trace_new_ok cs file bs flags rt Hlo Hhi) as Hok0.
  destruct (Trace_new cs file bs flags rt) as [tr0 rt0] eqn:Hnew.
  assert (Hbs0 : buffer_size_ tr0 = bs)
    by (unfold Trace_new in Hnew; simpl in Hnew; inversion Hnew; reflexivity).
  assert (Hcs0 : clock_source_ tr0 = cs)
    by (unfold Trace_new in Hnew; simpl in Hnew; inversion Hnew; reflexivity).
  assert (Hcur0 : cur_offset_ tr0 = 32)
    by (unfold Trace_new in Hnew; simpl in Hnew; inversion Hnew; reflexivity).
  simpl in Hok0.
  split; [destruct cs; reflexivity|]. split; [exact Hcur0|].
  destruct (run_returns cbs tr0 rt0) as (tr & rt' & Hrun).
  exists tr, rt'. split; [exact Hrun|].
  destruct (run_ok _ _ _ _ _ Hok0 Hrun) as (Hok & Hle & Hbs & Hcs & _).
  destruct Hok as [Hlo' Hhi' Hal' _ _ _]. unfold kTraceHeaderLength in *.
  rewrite Hbs, Hbs0 in Hhi'. rewrite Hcs, Hcs0 in Hal'.
  split; [lia|]. split; [exact Hal'|].
  intros pre post ->. rewrite run_app in Hrun.
  destruct (run pre tr0 rt0) as [[trp rtp]|] eqn:Hpre; [|discriminate].
  exists trp, rtp. split; [reflexivity|].
  destruct (run_ok _ _ _ _ _ Hok0 Hpre) as (Hokp & Hlep & _).
  destruct (run_ok _ _ _ _ _ Hokp Hrun) as (_ & Hlepost & _).
  destruct Hokp as [Hlop _ _ _ _ _]. unfold kTraceHeaderLength in *. lia.
Qed.

(** ** The record a call writes *)

Lemma UseThreadCpuClock_size tr :
  UseThreadCpuClock tr = true -> 10 <= GetRecordSize (clock_source_ tr).
Proof.
  unfold UseThreadCpuClock, GetRecordSize.
  destruct (clock_source_ tr); simpl; intros H; try discriminate;
    unfold kTraceRecordSizeSingleClock, kTraceRecordSizeDualClock; lia.
Qed.

Lemma dual_clock_size tr :
  UseThreadCpuClock tr = true -> UseWallClock tr = true ->
  GetRecordSize (clock_source_ tr) = 14.
Proof.
  unfold UseThreadCpuClock, UseWallClock.
  destruct (clock_source_ tr); simpl; intros H1 H2;
    first [discriminate | reflexivity].
Qed.

Lemma uint32_t_idem x : uint32_t (uint32_t x) = uint32_t x.
Proof. apply uint32_t_id, uint32_t_range. Qed.

(** The CPU-clock field of the record and the base map, on a miss and on a
    hit of the calling thread in the map. *)
Lemma LogMethodTraceEvent_record_cpu thread method event old tr rt tr' rt' :
  UseThreadCpuClock tr = true ->
  0 <= old ->
  old + GetRecordSize (clock_source_ tr) <= Z.of_nat (length (buf_ tr)) ->
  LogMethodTraceEvent_record thread method event old tr rt = Some (tr', rt') ->
  let now := (ThreadCpuMicroTime (rt_clocks rt)).1 in
  match thread_clock_base_map_ tr !! thread_ptr thread with
  | None =>
    record_time1 (buf_ tr') old = 0 /\
    thread_clock_base_map_ tr' = <[thread_ptr thread := now]> (thread_clock_base_map_ tr)
  | Some base =>
    record_time1 (buf_ tr') old = uint32_t (now - base) /\
    thread_clock_base_map_ tr' = thread_clock_base_map_ tr
  end.
Proof.
  intros Hcpu Hold Hfit H now.
  pose proof (UseThreadCpuClock_size tr Hcpu) as Hrs.
  unfold LogMethodTraceEvent_record in H.
  destruct (action_of_event event) as [action|]; [|discriminate].
  rewrite Hcpu in H. unfold record_time1.
  destruct (thread_clock_base_map_ tr !! thread_ptr thread) as [base|];
    destruct (UseWallClock tr); simpl in H; inversion H; subst; simpl;
    (split; [|reflexivity]);
    rewrite ?bytes_at_Append4LE_out by lia;
    rewrite le_value_Append4LE
      by (rewrite ?Append4LE_length, ?Append2LE_length; lia);
    rewrite ?uint32_t_idem, ?uint32_t_uint64_t; reflexivity.
Qed.

(** The thread id and the packed method of the record. *)
Lemma LogMethodTraceEvent_record_head thread method event action old tr rt tr' rt' :
  action_of_event event = Some action ->
  0 <= old ->
  old + GetRecordSize (clock_source_ tr) <= Z.of_nat (length (buf_ tr)) ->
  LogMethodTraceEvent_record thread method event old tr rt = Some (tr', rt') ->
  record_tid (buf_ tr') old = uint16_t (GetTid thread) /\
  record_tmid (buf_ tr') old = uint32_t (EncodeTraceMethodAndAction method action).
Proof.
  intros Ha Hold Hfit H.
  pose proof (GetRecordSize_cases (clock_source_ tr)) as Hrs.
  unfold LogMethodTraceEvent_record in H. rewrite Ha in H.
  unfold record_tid, record_tmid.
  destruct (UseThreadCpuClock tr);
    [destruct (thread_clock_base_map_ tr !! thread_ptr thread)|];
    destruct (UseWallClock tr); simpl in H; inversion H; subst; simpl;
    rewrite ?bytes_at_Append4LE_out by lia;
    rewrite le_value_Append4LE by (rewrite ?Append2LE_length; lia);
    rewrite le_value_Append2LE by lia; split; reflexivity.
Qed.

(** The wall-clock field: the last four bytes of the record. *)
Lemma LogMethodTraceEvent_record_wall thread method event action old tr rt tr' rt' :
  action_of_event event = Some action ->
  UseWallClock tr = true ->
  0 <= old ->
  old + GetRecordSize (clock_source_ tr) <= Z.of_nat (length (buf_ tr)) ->
  LogMethodTraceEvent_record thread method event old tr rt = Some (tr', rt') ->
  let now := (MicroTime (rt_clocks rt)).1 in
  (if UseThreadCpuClock tr then record_time2 (buf_ tr') old
   else record_time1 (buf_ tr') old) = uint32_t (now - start_time_ tr).
Proof.
  intros Ha Hwall Hold Hfit H now.
  pose proof (GetRecordSize_cases (clock_source_ tr)) as Hrs.
  unfold LogMethodTraceEvent_record in H. rewrite Ha, Hwall in H.
  unfold record_time1, record_time2.
  destruct (UseThreadCpuClock tr) eqn:Hcpu;
    [destruct (thread_clock_base_map_ tr !! thread_ptr thread)|];
    simpl in H; inversion H; subst; simpl.
  all: try pose proof (dual_clock_size tr Hcpu Hwall).
  all: replace (old + 6 + 4) with (old + 10) by lia.
  all: rewrite le_value_Append4LE
         by (rewrite ?Append4LE_length, ?Append2LE_length; lia).
  all: rewrite ?uint32_t_idem, ?uint32_t_uint64_t; reflexivity.
Qed.

Lemma dispatch_dropped cb tr rt :
  reserves tr = false -> dispatch cb tr rt = Some (set_overflow_ true tr, rt).
Proof. intros H. destruct cb; now apply LogMethodTraceEvent_dropped. Qed.

Lemma trace_ok_fits tr :
  trace_ok tr -> reserves tr = true ->
  0 <= cur_offset_ tr /\
  cur_offset_ tr + GetRecordSize (clock_source_ tr) <= Z.of_nat (length (buf_ tr)).
Proof.
  intros Hok Hres. apply (reserves_spec tr Hok) in Hres.
  destruct Hok as [Hlo Hhi _ _ Hbuf _]. unfold kTraceHeaderLength in *.
  rewrite Hbuf. lia.
Qed.

(** One recording call with the CPU clock in use: the field it writes and
    what it does to the base map. *)
Lemma dispatch_cpu cb tr rt tr' rt' :
  trace_ok tr -> UseThreadCpuClock tr = true -> reserves tr = true ->
  dispatch cb tr rt = Some (tr', rt') ->
  let now := (ThreadCpuMicroTime (rt_clocks rt)).1 in
  match thread_clock_base_map_ tr !! thread_ptr (callback_thread cb) with
  | None =>
    record_time1 (buf_ tr') (cur_offset_ tr) = 0 /\
    thread_clock_base_map_ tr'
    = <[thread_ptr (callback_thread cb) := now]> (thread_clock_base_map_ tr)
  | Some base =>
    record_time1 (buf_ tr') (cur_offset_ tr) = uint32_t (now - base) /\
    thread_clock_base_map_ tr' = thread_clock_base_map_ tr
  end.
Proof.
  intros Hok Hcpu Hres H.
  destruct (trace_ok_fits tr Hok Hres) as [Hold Hfit].
  destruct (action_of_callback_event cb) as (event & action & Hd & Ha).
  rewrite Hd, LogMethodTraceEvent_reserved in H by exact Hres.
  exact (LogMethodTraceEvent_record_cpu _ _ _ _
           (set_cur_offset_ _ tr) _ _ _ Hcpu Hold Hfit H).
Qed.

(** Without the CPU clock the base map is never touched. *)
Lemma LogMethodTraceEvent_record_wall_only thread method event old tr rt tr' rt' :
  UseThreadCpuClock tr = false ->
  LogMethodTraceEvent_record thread method event old tr rt = Some (tr', rt') ->
  thread_clock_base_map_ tr' = thread_clock_base_map_ tr.
Proof.
  intros Hcpu H. unfold LogMethodTraceEvent_record in H.
  destruct (action_of_event event); [|discriminate]. rewrite Hcpu in H.
  destruct (UseWallClock tr); simpl in H; inversion H; reflexivity.
Qed.

(** An entry of the base map is never changed or removed by a call. *)
Lemma LogMethodTraceEvent_record_base_kept thread method event old tr rt tr' rt' p base :
  LogMethodTraceEvent_record thread method event old tr rt = Some (tr', rt') ->
  thread_clock_base_map_ tr !! p = Some base ->
  thread_clock_base_map_ tr' !! p = Some base.
Proof.
  intros H Hp. unfold LogMethodTraceEvent_record in H.
  destruct (action_of_event event); [|discriminate].
  destruct (UseThreadCpuClock tr).
  - destruct (thread_clock_base_map_ tr !! thread_ptr thread) as [b|] eqn:Hb;
      destruct (UseWallClock tr); simpl in H; inversion H; subst; simpl;
      try exact Hp.
    all: rewrite lookup_insert_ne; [exact Hp|congruence].
  - destruct (UseWallClock tr); simpl in H; inversion H; subst; exact Hp.
Qed.

Lemma dispatch_base_kept cb tr rt tr' rt' p base :
  dispatch cb tr rt = Some (tr', rt') ->
  thread_clock_base_map_ tr !! p = Some base ->
  thread_clock_base_map_ tr' !! p = Some base.
Proof.
  intros H Hp.
  destruct (action_of_callback_event cb) as (event & action & Hd & Ha).
  rewrite Hd in H. destruct (reserves tr) eqn:Hres.
  - rewrite LogMethodTraceEvent_reserved in H by exact Hres.
    eapply LogMethodTraceEvent_record_base_kept; [exact H|exact Hp].
  - rewrite LogMethodTraceEvent_dropped in H by exact Hres.
    inversion H; subst. exact Hp.
Qed.

Lemma run_base_kept cbs tr rt tr' rt' p base :
  run cbs tr rt = Some (tr', rt') ->
  thread_clock_base_map_ tr !! p = Some base ->
  thread_clock_base_map_ tr' !! p = Some base.
Proof.
  revert tr rt. induction cbs as [|cb cbs IH]; intros tr rt H Hp; simpl in H.
  - inversion H; subst. exact Hp.
  - destruct (dispatch cb tr rt) as [[tr1 rt1]|] eqn:Hd; [|discriminate].
    eapply IH; [exact H|]. eapply dispatch_base_kept; eassumption.
Qed.

Lemma UseThreadCpuClock_fixed tr tr' :
  clock_source_ tr' = clock_source_ tr -> UseThreadCpuClock tr' = UseThreadCpuClock tr.
Proof. unfold UseThreadCpuClock. now intros ->. Qed.

(** With the CPU clock in use, a thread has no entry in the base map
    exactly when none of its calls so far reserved a record. *)
Lemma run_base_missing cbs tr rt tr' rt' (t : Thread) :
  trace_ok tr -> UseThreadCpuClock tr = true ->
  run cbs tr rt = Some (tr', rt') ->
  thread_clock_base_map_ tr' !! thread_ptr t = None <->
  thread_clock_base_map_ tr !! thread_ptr t = None /\
  reserved_by t cbs tr rt = 0%nat.
Proof.
  revert tr rt. induction cbs as [|cb cbs IH]; intros tr rt Hok Hcpu H; simpl in *.
  - inversion H; subst. tauto.
  - destruct (dispatch cb tr rt) as [[tr1 rt1]|] eqn:Hd; [|discriminate].
    destruct (dispatch_ok _ _ _ _ _ Hok Hd) as (Hok1 & _ & _).
    pose proof (dispatch_cursor _ _ _ _ _ Hd) as (_ & _ & Hcs & _).
    assert (Hcpu1 : UseThreadCpuClock tr1 = true)
      by (rewrite (UseThreadCpuClock_fixed tr tr1 Hcs); exact Hcpu).
    rewrite (IH _ _ Hok1 Hcpu1 H). clear IH H.
    destruct (reserves tr) eqn:Hres.
    + pose proof (dispatch_cpu _ _ _ _ _ Hok Hcpu Hres Hd) as Hstep. simpl in Hstep.
      destruct (thread_clock_base_map_ tr !! thread_ptr (callback_thread cb))
        as [b|] eqn:Hb; destruct Hstep as [_ ->]; simpl.
      * destruct (bool_decide_reflect
                    (thread_ptr (callback_thread cb) = thread_ptr t)) as [He|Hne];
          simpl; [|tauto].
        rewrite <- He, Hb. split; [intros [Hc _]; discriminate|intros [Hc _]; discriminate].
      * destruct (bool_decide_reflect
                    (thread_ptr (callback_thread cb) = thread_ptr t)) as [He|Hne];
          simpl.
        -- rewrite He, lookup_insert_eq.
           split; [intros [Hc _]; discriminate|intros [_ Hc]; discriminate].
        -- rewrite lookup_insert_ne by exact Hne. tauto.
    + rewrite dispatch_dropped in Hd by exact Hres. inversion Hd; subst. simpl. tauto.
Qed.

(** The code after the loop writes inside the record it reserved. *)
Lemma LogMethodTraceEvent_record_outside thread method event old tr rt tr' rt' q (n : nat) :
  0 <= old -> 0 <= q ->
  q + Z.of_nat n <= old \/ old + GetRecordSize (clock_source_ tr) <= q ->
  LogMethodTraceEvent_record thread method event old tr rt = Some (tr', rt') ->
  bytes_at (buf_ tr') q n = bytes_at (buf_ tr) q n.
Proof.
  intros Hold Hq Hout H.
  unfold LogMethodTraceEvent_record in H.
  destruct (action_of_event event); [|discriminate].
  destruct (UseThreadCpuClock tr) eqn:Hcpu;
    [destruct (thread_clock_base_map_ tr !! thread_ptr thread)|];
    destruct (UseWallClock tr) eqn:Hwall; simpl in H; inversion H; subst; simpl.
  all: try pose proof (dual_clock_size tr Hcpu Hwall).
  all: pose proof (GetRecordSize_cases (clock_source_ tr)).
  all: rewrite ?bytes_at_Append4LE_out by lia.
  all: rewrite ?bytes_at_Append2LE_out by lia.
  all: reflexivity.
Qed.

(** A recording call reads each clock in use once, and no other. *)
Lemma LogMethodTraceEvent_record_clocks thread method event old tr rt tr' rt' :
  LogMethodTraceEvent_record thread method event old tr rt = Some (tr', rt') ->
  wall_clock (rt_clocks rt') = wall_clock (rt_clocks rt) /\
  thread_cpu_clock (rt_clocks rt') = thread_cpu_clock (rt_clocks rt) /\
  thread_cpu_reads (rt_clocks rt')
  = (thread_cpu_reads (rt_clocks rt) + if UseThreadCpuClock tr then 1 else 0)%nat /\
  wall_reads (rt_clocks rt')
  = (wall_reads (rt_clocks rt) + if UseWallClock tr then 1 else 0)%nat.
Proof.
  intros H. unfold LogMethodTraceEvent_record in H.
  destruct (action_of_event event); [|discriminate].
  destruct (UseThreadCpuClock tr);
    [destruct (thread_clock_base_map_ tr !! thread_ptr thread)|];
    destruct (UseWallClock tr); simpl in H; inversion H; subst; simpl;
    repeat split; lia.
Qed.

Lemma dispatch_clocks cb tr rt tr' rt' :
  reserves tr = true -> dispatch cb tr rt = Some (tr', rt') ->
  wall_clock (rt_clocks rt') = wall_clock (rt_clocks rt) /\
  thread_cpu_clock (rt_clocks rt') = thread_cpu_clock (rt_clocks rt) /\
  thread_cpu_reads (rt_clocks rt')
  = (thread_cpu_reads (rt_clocks rt) + if UseThreadCpuClock tr then 1 else 0)%nat /\
  wall_reads (rt_clocks rt')
  = (wall_reads (rt_clocks rt) + if UseWallClock tr then 1 else 0)%nat.
Proof.
  intros Hres H.
  destruct (action_of_callback_event cb) as (event & action & Hd & Ha).
  rewrite Hd, LogMethodTraceEvent_reserved in H by exact Hres.
  exact (LogMethodTraceEvent_record_clocks _ _ _ _ (set_cur_offset_ _ tr) _ _ _ H).
Qed.

Lemma dispatch_outside cb tr rt tr' rt' q (n : nat) :
  trace_ok tr -> 0 <= q ->
  q + Z.of_nat n <= cur_offset_ tr \/
  cur_offset_ tr + GetRecordSize (clock_source_ tr) <= q ->
  dispatch cb tr rt = Some (tr', rt') ->
  bytes_at (buf_ tr') q n = bytes_at (buf_ tr) q n.
Proof.
  intros Hok Hq Hout H.
  destruct (action_of_callback_event cb) as (event & action & Hd & Ha).
  rewrite Hd in H. destruct (reserves tr) eqn:Hres.
  - rewrite LogMethodTraceEvent_reserved in H by exact Hres.
    destruct Hok as [Hlo _ _ _ _ _]. unfold kTraceHeaderLength in Hlo.
    eapply (LogMethodTraceEvent_record_outside _ _ _ _ (set_cur_offset_ _ tr));
      [| |exact Hout|exact H]; lia.
  - rewrite LogMethodTraceEvent_dropped in H by exact Hres.
    inversion H; subst. reflexivity.
Qed.

(** ** Overflow *)

(** C4. A recording call that finds [cur_offset_ + record size] past
    [buffer_size] sets [overflow_] and changes nothing else: the event is
    dropped and the cursor stays. Once set the flag stays set, whatever is
    logged afterwards, and the cursor no longer moves; when the flag is set
    the cursor satisfies [cur_offset_ + record size > buffer_size]. With a
    buffer of 42 bytes and the wall clock alone, the first of two events is
    recorded (cursor 42, no overflow) and the second sets [overflow_] and
    leaves the cursor at 42. *)
Theorem overflow_drops_event :
  (forall cs file bs flags rt (cbs : list Callback),
     kTraceHeaderLength <= bs -> bs + GetRecordSize cs <= INT32_MAX ->
     let '(tr0, rt0) := Trace_new cs file bs flags rt in
     exists tr rt1,
       run cbs tr0 rt0 = Some (tr, rt1) /\
       (overflow_ tr = true -> bs < cur_offset_ tr + GetRecordSize cs) /\
       (forall cb, bs < cur_offset_ tr + GetRecordSize cs ->
          dispatch cb tr rt1 = Some (set_overflow_ true tr, rt1) /\
          overflow_ (set_overflow_ true tr) = true /\
          cur_offset_ (set_overflow_ true tr) = cur_offset_ tr /\
          buf_ (set_overflow_ true tr) = buf_ tr) /\
       (forall more tr2 rt2,
          overflow_ tr = true -> run more tr rt1 = Some (tr2, rt2) ->
          overflow_ tr2 = true /\ cur_offset_ tr2 = cur_offset_ tr)) /\
  (forall file flags rt (cb1 cb2 : Callback),
     let '(tr0, rt0) := Trace_new kProfilerClockSourceWall file 42 flags rt in
     exists tr1 rt1 tr2 rt2,
       dispatch cb1 tr0 rt0 = Some (tr1, rt1) /\
       cur_offset_ tr0 = 32 /\ cur_offset_ tr1 = 42 /\ overflow_ tr1 = false /\
       dispatch cb2 tr1 rt1 = Some (tr2, rt2) /\
       tr2 = set_overflow_ true tr1 /\ rt2 = rt1 /\
       overflow_ tr2 = true /\ cur_offset_ tr2 = 42).
Proof.
  split.
  - intros cs file bs flags rt cbs Hlo Hhi.
    pose proof (Trace_new_ok cs file bs flags rt Hlo Hhi) as Hok0.
    destruct (Trace_new cs file bs flags rt) as [tr0 rt0] eqn:Hnew.
    assert (Hbs0 : buffer_size_ tr0 = bs)
      by (unfold Trace_new in Hnew; simpl in Hnew; inversion Hnew; reflexivity).
    assert (Hcs0 : clock_source_ tr0 = cs)
      by (unfold Trace_new in Hnew; simpl in Hnew; inversion Hnew; reflexivity).
    simpl in Hok0.
    destruct (run_returns cbs tr0 rt0) as (tr & rt1 & Hrun).
    exists tr, rt1. split; [exact Hrun|].
    destruct (run_ok _ _ _ _ _ Hok0 Hrun) as (Hok & _ & Hbs & Hcs & _).
    rewrite Hbs0 in Hbs. rewrite Hcs0 in Hcs.
    split; [|split].
    + intros Hov. pose proof (ok_overflow tr Hok Hov) as H. now rewrite Hbs, Hcs in H.
    + intros cb Hfull. split; [|repeat split].
      apply dispatch_dropped. destruct (reserves tr) eqn:Hres; [|reflexivity].
      apply (reserves_spec tr Hok) in Hres. rewrite Hbs, Hcs in Hres. lia.
    + intros more tr2 rt2 Hov Hmore.
      destruct (run_ok _ _ _ _ _ Hok Hmore) as (_ & _ & _ & _ & Hkeep).
      exact (Hkeep Hov).
  - intros file flags rt cb1 cb2.
    assert (Hok0 : trace_ok (Trace_new kProfilerClockSourceWall file 42 flags rt).1)
      by (apply Trace_new_ok;
          [unfold kTraceHeaderLength; lia
          |change (GetRecordSize kProfilerClockSourceWall) with 10;
           unfold INT32_MAX; lia]).
    destruct (Trace_new kProfilerClockSourceWall file 42 flags rt) as [tr0 rt0] eqn:Hnew.
    assert (Hbs0 : buffer_size_ tr0 = 42)
      by (unfold Trace_new in Hnew; simpl in Hnew; inversion Hnew; reflexivity).
    assert (Hcs0 : clock_source_ tr0 = kProfilerClockSourceWall)
      by (unfold Trace_new in Hnew; simpl in Hnew; inversion Hnew; reflexivity).
    assert (Hcur0 : cur_offset_ tr0 = 32)
      by (unfold Trace_new in Hnew; simpl in Hnew; inversion Hnew; reflexivity).
    assert (Hov0 : overflow_ tr0 = false)
      by (unfold Trace_new in Hnew; simpl in Hnew; inversion Hnew; reflexivity).
    simpl in Hok0.
    assert (Hres0 : reserves tr0 = true).
    { apply (reserves_spec tr0 Hok0). rewrite Hcur0, Hcs0, Hbs0.
      change (GetRecordSize kProfilerClockSourceWall) with 10. lia. }
    destruct (dispatch_returns cb1 tr0 rt0) as (tr1 & rt1 & Hd1).
    destruct (dispatch_ok _ _ _ _ _ Hok0 Hd1) as (Hok1 & _ & _).
    pose proof (dispatch_cursor _ _ _ _ _ Hd1) as (_ & _ & Hcs1 & Hbs1 & _ & _ & Hcur1 & Hov1).
    rewrite Hres0, Hcur0, Hcs0 in Hcur1. rewrite Hres0, Hov0 in Hov1.
    change (int32_t (32 + GetRecordSize kProfilerClockSourceWall)) with 42 in Hcur1.
    simpl in Hov1.
    assert (Hres1 : reserves tr1 = false).
    { destruct (reserves tr1) eqn:Hres; [|reflexivity].
      apply (reserves_spec tr1 Hok1) in Hres.
      rewrite Hcur1, Hcs1, Hcs0, Hbs1, Hbs0 in Hres.
      change (GetRecordSize kProfilerClockSourceWall) with 10 in Hres. lia. }
    exists tr1, rt1, (set_overflow_ true tr1), rt1.
    repeat split; try assumption; try reflexivity.
    apply dispatch_dropped, Hres1.
Qed.

(** C10. A recording call that finds no room
    ([cur_offset_ + record size > buffer_size]) changes the [overflow_]
    flag and nothing else: the cursor, the buffer, the base map, the other
    fields of the trace object and the runtime with its clocks (no clock is
    read) are as before. The calling thread gets no entry in the base map
    from it: a thread without an entry still has none, so that a later call
    of that thread that does reserve a record, on a trace object with this
    base map, writes [dt_cpu = 0]. *)
Theorem dropped_event_frame (cb : Callback) (tr : Trace) (rt : Runtime) :
  trace_ok tr ->
  buffer_size_ tr < cur_offset_ tr + GetRecordSize (clock_source_ tr) ->
  exists tr',
    dispatch cb tr rt = Some (tr', rt) /\
    overflow_ tr' = true /\
    cur_offset_ tr' = cur_offset_ tr /\
    buf_ tr' = buf_ tr /\
    thread_clock_base_map_ tr' = thread_clock_base_map_ tr /\
    trace_file_ tr' = trace_file_ tr /\ flags_ tr' = flags_ tr /\
    clock_source_ tr' = clock_source_ tr /\ buffer_size_ tr' = buffer_size_ tr /\
    start_time_ tr' = start_time_ tr /\
    (thread_clock_base_map_ tr !! thread_ptr (callback_thread cb) = None ->
     thread_clock_base_map_ tr' !! thread_ptr (callback_thread cb) = None /\
     forall (later : Callback) u rtu u' rtu',
       trace_ok u -> UseThreadCpuClock u = true ->
       thread_clock_base_map_ u = thread_clock_base_map_ tr' ->
       thread_ptr (callback_thread later) = thread_ptr (callback_thread cb) ->
       reserves u = true ->
       dispatch later u rtu = Some (u', rtu') ->
       record_time1 (buf_ u') (cur_offset_ u) = 0).
Proof.
  intros Hok Hfull.
  assert (Hres : reserves tr = false).
  { destruct (reserves tr) eqn:Hres; [|reflexivity].
    apply (reserves_spec tr Hok) in Hres. lia. }
  exists (set_overflow_ true tr).
  split; [apply dispatch_dropped, Hres|].
  repeat (split; [reflexivity|]).
  intros Hnone. split; [exact Hnone|].
  intros later u rtu u' rtu' Hoku Hcpu Hmap Hsame Hresu Hd.
  pose proof (dispatch_cpu _ _ _ _ _ Hoku Hcpu Hresu Hd) as Hstep.
  simpl in Hstep, Hmap. rewrite Hmap, Hsame, Hnone in Hstep. apply Hstep.
Qed.

(** ** The per-thread CPU clock base *)

(** C7. With the thread-CPU clock in use (clock source thread_cpu or
    dual), take the trace object after the constructor and any calls [pre],
    and a further call [cb] that reserves a record. If no earlier call of
    the same thread reserved a record, the record's [dt_cpu] is 0 and the
    base map gets the thread's CPU clock value read by this call; otherwise
    the map holds a base for the thread and [dt_cpu] is the CPU clock value
    read by this call minus that base, as [uint32_t], and the map is left as
    it is. A base in the map stays there unchanged through any later calls.
    When the CPU clock reads 1000 at a thread's first event and 1175 at its
    second, the two records hold 0 and 175. *)
Theorem cpu_clock_base :
  (forall cs file bs flags rt (pre : list Callback) (cb : Callback),
     kTraceHeaderLength <= bs -> bs + GetRecordSize cs <= INT32_MAX ->
     cs <> kProfilerClockSourceWall ->
     let '(tr0, rt0) := Trace_new cs file bs flags rt in
     let t := callback_thread cb in
     exists tr rt1,
       run pre tr0 rt0 = Some (tr, rt1) /\
       (reserves tr = true ->
        exists tr' rt',
          dispatch cb tr rt1 = Some (tr', rt') /\
          let now := (ThreadCpuMicroTime (rt_clocks rt1)).1 in
          let dt_cpu := record_time1 (buf_ tr') (cur_offset_ tr) in
          (reserved_by t pre tr0 rt0 = 0%nat ->
           dt_cpu = 0 /\
           thread_clock_base_map_ tr !! thread_ptr t = None /\
           thread_clock_base_map_ tr' !! thread_ptr t = Some now) /\
          (reserved_by t pre tr0 rt0 <> 0%nat ->
           exists base,
             thread_clock_base_map_ tr !! thread_ptr t = Some base /\
             dt_cpu = uint32_t (now - base) /\
             thread_clock_base_map_ tr' = thread_clock_base_map_ tr) /\
          (forall more tr2 rt2 base,
             thread_clock_base_map_ tr' !! thread_ptr t = Some base ->
             run more tr' rt' = Some (tr2, rt2) ->
             thread_clock_base_map_ tr2 !! thread_ptr t = Some base))) /\
  (forall cs file bs flags rt (cb1 cb2 : Callback),
     kTraceHeaderLength + 2 * GetRecordSize cs <= bs ->
     bs + GetRecordSize cs <= INT32_MAX ->
     cs <> kProfilerClockSourceWall ->
     thread_ptr (callback_thread cb1) = thread_ptr (callback_thread cb2) ->
     thread_cpu_clock (rt_clocks rt) (thread_cpu_reads (rt_clocks rt)) = 1000 ->
     thread_cpu_clock (rt_clocks rt) (S (thread_cpu_reads (rt_clocks rt))) = 1175 ->
     let '(tr0, rt0) := Trace_new cs file bs flags rt in
     exists tr2 rt2,
       run [cb1; cb2] tr0 rt0 = Some (tr2, rt2) /\
       record_time1 (buf_ tr2) 32 = 0 /\
       record_time1 (buf_ tr2) (32 + GetRecordSize cs) = 175).
Proof.
  split.
  - intros cs file bs flags rt pre cb Hlo Hhi Hcs.
    pose proof (Trace_new_ok cs file bs flags rt Hlo Hhi) as Hok0.
    destruct (Trace_new cs file bs flags rt) as [tr0 rt0] eqn:Hnew.
    assert (Hcs0 : clock_source_ tr0 = cs)
      by (unfold Trace_new in Hnew; simpl in Hnew; inversion Hnew; reflexivity).
    assert (Hmap0 : thread_clock_base_map_ tr0 = ∅)
      by (unfold Trace_new in Hnew; simpl in Hnew; inversion Hnew; reflexivity).
    simpl in Hok0.
    assert (Hcpu0 : UseThreadCpuClock tr0 = true)
      by (unfold UseThreadCpuClock; rewrite Hcs0; destruct cs; simpl; congruence).
    intros t.
    destruct (run_returns pre tr0 rt0) as (tr & rt1 & Hrun).
    exists tr, rt1. split; [exact Hrun|]. intros Hres.
    destruct (run_ok _ _ _ _ _ Hok0 Hrun) as (Hok & _ & _ & Hcs1 & _).
    assert (Hcpu : UseThreadCpuClock tr = true)
      by (rewrite (UseThreadCpuClock_fixed tr0 tr Hcs1); exact Hcpu0).
    destruct (dispatch_returns cb tr rt1) as (tr' & rt' & Hd).
    exists tr', rt'. split; [exact Hd|].
    pose proof (dispatch_cpu _ _ _ _ _ Hok Hcpu Hres Hd) as Hstep.
    pose proof (run_base_missing pre tr0 rt0 tr rt1 t Hok0 Hcpu0 Hrun) as Hmiss.
    rewrite Hmap0, lookup_empty in Hmiss. simpl in Hstep. fold t in Hstep.
    split; [|split].
    + intros Hzero.
      assert (Hnone : thread_clock_base_map_ tr !! thread_ptr t = None)
        by (apply Hmiss; split; [reflexivity|exact Hzero]).
      rewrite Hnone in Hstep. destruct Hstep as [Hdt Hmap'].
      split; [exact Hdt|]. split; [exact Hnone|].
      rewrite Hmap'. apply lookup_insert_eq.
    + intros Hpos.
      destruct (thread_clock_base_map_ tr !! thread_ptr t) as [base|] eqn:Hb.
      * exists base. destruct Hstep as [Hdt Hmap']. repeat split; assumption.
      * exfalso. apply Hpos. apply Hmiss. reflexivity.
    + intros more tr2 rt2 base Hb Hmore. eapply run_base_kept; eassumption.
  - intros cs file bs flags rt cb1 cb2 Hroom Hhi Hcs Hsame H1000 H1175.
    pose proof (GetRecordSize_cases cs) as Hrs.
    assert (Hlo : kTraceHeaderLength <= bs) by (unfold kTraceHeaderLength in *; lia).
    pose proof (Trace_new_ok cs file bs flags rt Hlo Hhi) as Hok0.
    destruct (Trace_new cs file bs flags rt) as [tr0 rt0] eqn:Hnew.
    assert (Hcs0 : clock_source_ tr0 = cs)
      by (unfold Trace_new in Hnew; simpl in Hnew; inversion Hnew; reflexivity).
    assert (Hbs0 : buffer_size_ tr0 = bs)
      by (unfold Trace_new in Hnew; simpl in Hnew; inversion Hnew; reflexivity).
    assert (Hcur0 : cur_offset_ tr0 = 32)
      by (unfold Trace_new in Hnew; simpl in Hnew; inversion Hnew; reflexivity).
    assert (Hmap0 : thread_clock_base_map_ tr0 = ∅)
      by (unfold Trace_new in Hnew; simpl in Hnew; inversion Hnew; reflexivity).
    assert (Hclk0 : thread_cpu_clock (rt_clocks rt0) = thread_cpu_clock (rt_clocks rt)
                    /\ thread_cpu_reads (rt_clocks rt0) = thread_cpu_reads (rt_clocks rt))
      by (unfold Trace_new in Hnew; simpl in Hnew; inversion Hnew; split; reflexivity).
    destruct Hclk0 as [Hfun0 Hreads0].
    simpl in Hok0. unfold kTraceHeaderLength in *.
    assert (Hcpu0 : UseThreadCpuClock tr0 = true)
      by (unfold UseThreadCpuClock; rewrite Hcs0; destruct cs; simpl; congruence).
    assert (Hres0 : reserves tr0 = true)
      by (apply (reserves_spec tr0 Hok0); rewrite Hcur0, Hcs0, Hbs0; lia).
    destruct (dispatch_returns cb1 tr0 rt0) as (tr1 & rt1 & Hd1).
    destruct (dispatch_ok _ _ _ _ _ Hok0 Hd1) as (Hok1 & _ & _).
    pose proof (dispatch_cursor _ _ _ _ _ Hd1)
      as (_ & _ & Hcs1 & Hbs1 & _ & _ & Hcur1 & _).
    rewrite Hres0, Hcur0, Hcs0, int32_t_id in Hcur1 by lia.
    pose proof (dispatch_cpu _ _ _ _ _ Hok0 Hcpu0 Hres0 Hd1) as Hstep1.
    simpl in Hstep1. rewrite Hmap0, lookup_empty, Hcur0 in Hstep1.
    destruct Hstep1 as [Hdt1 Hmap1].
    rewrite Hfun0, Hreads0, H1000 in Hmap1.
    change (uint64_t 1000) with 1000 in Hmap1.
    pose proof (dispatch_clocks _ _ _ _ _ Hres0 Hd1) as (_ & Hfun1 & Hreads1 & _).
    rewrite Hcpu0 in Hreads1.
    assert (Hcpu1 : UseThreadCpuClock tr1 = true)
      by (rewrite (UseThreadCpuClock_fixed tr0 tr1 Hcs1); exact Hcpu0).
    assert (Hres1 : reserves tr1 = true)
      by (apply (reserves_spec tr1 Hok1); rewrite Hcur1, Hcs1, Hcs0, Hbs1, Hbs0; lia).
    destruct (dispatch_returns cb2 tr1 rt1) as (tr2 & rt2 & Hd2).
    pose proof (dispatch_cpu _ _ _ _ _ Hok1 Hcpu1 Hres1 Hd2) as Hstep2.
    simpl in Hstep2.
    rewrite Hmap1, <- Hsame, lookup_insert_eq, Hcur1 in Hstep2.
    destruct Hstep2 as [Hdt2 _].
    rewrite Hfun1, Hreads1, Hfun0, Hreads0 in Hdt2.
    replace (thread_cpu_reads (rt_clocks rt) + 1)%nat
      with (S (thread_cpu_reads (rt_clocks rt))) in Hdt2 by lia.
    rewrite H1175 in Hdt2.
    exists tr2, rt2. split; [simpl; rewrite Hd1, Hd2; reflexivity|].
    split; [|exact Hdt2].
    unfold record_time1 in *.
    rewrite (dispatch_outside cb2 tr1 rt1 tr2 rt2 (32 + 6) 4 Hok1);
      [exact Hdt1|lia|rewrite Hcur1; left; simpl; lia|exact Hd2].
Qed.

(** ** Clock overhead *)

Lemma GetClockOverhead_body_iter trace c :
  GetClockOverhead_body trace c = Nat.iter 8 (MeasureClockOverhead trace) c.
Proof. reflexivity. Qed.

Lemma GetClockOverhead_loop_iter i trace c :
  GetClockOverhead_loop i trace c
  = Nat.iter (i * 8) (MeasureClockOverhead trace) c.
Proof.
  revert c. induction i as [|i IH]; intros c; [reflexivity|].
  cbn [GetClockOverhead_loop]. rewrite IH, GetClockOverhead_body_iter.
  replace (S i * 8)%nat with (i * 8 + 8)%nat by lia.
  now rewrite Nat.iter_add.
Qed.

(** One sampling iteration reads each clock in use once. *)
Lemma MeasureClockOverhead_reads trace c :
  let c' := MeasureClockOverhead trace c in
  wall_clock c' = wall_clock c /\ thread_cpu_clock c' = thread_cpu_clock c /\
  thread_cpu_reads c'
  = (thread_cpu_reads c + if UseThreadCpuClock trace then 1 else 0)%nat /\
  wall_reads c' = (wall_reads c + if UseWallClock trace then 1 else 0)%nat.
Proof.
  unfold MeasureClockOverhead.
  destruct (UseThreadCpuClock trace), (UseWallClock trace); simpl;
    repeat split; lia.
Qed.

Lemma MeasureClockOverhead_iter_reads n trace c :
  let c' := Nat.iter n (MeasureClockOverhead trace) c in
  wall_clock c' = wall_clock c /\ thread_cpu_clock c' = thread_cpu_clock c /\
  thread_cpu_reads c'
  = (thread_cpu_reads c + if UseThreadCpuClock trace then n else 0)%nat /\
  wall_reads c' = (wall_reads c + if UseWallClock trace then n else 0)%nat.
Proof.
  induction n as [|n IH]; simpl.
  - destruct (UseThreadCpuClock trace), (UseWallClock trace); repeat split; lia.
  - destruct IH as (Hw & Hc & Hcr & Hwr).
    destruct (MeasureClockOverhead_reads trace
                (Nat.iter n (MeasureClockOverhead trace) c))
      as (Hw' & Hc' & Hcr' & Hwr').
    rewrite Hw', Hc', Hcr', Hwr', Hw, Hc, Hcr, Hwr.
    destruct (UseThreadCpuClock trace), (UseWallClock trace); repeat split; lia.
Qed.

Lemma GetClockOverhead_passes : (Z.to_nat 4000 * 8)%nat = Z.to_nat 32000.
Proof. lia. Qed.

Lemma GetClockOverhead_overhead_of trace c :
  GetClockOverhead trace c = overhead_of (Z.to_nat 32000) trace c.
Proof.
  unfold GetClockOverhead, overhead_of, ThreadCpuMicroTime.
  cbv beta iota zeta.
  rewrite GetClockOverhead_loop_iter, GetClockOverhead_passes. reflexivity.
Qed.

Lemma overhead_of_spec n trace c :
  let cpu := if UseThreadCpuClock trace then n else 0%nat in
  let wall := if UseWallClock trace then n else 0%nat in
  let start := uint64_t (thread_cpu_clock c (thread_cpu_reads c)) in
  let finish := uint64_t (thread_cpu_clock c (thread_cpu_reads c + 1 + cpu)%nat) in
  (overhead_of n trace c).1 = uint32_t (uint64_t (finish - start) / 32) /\
  thread_cpu_reads (overhead_of n trace c).2 = (thread_cpu_reads c + 2 + cpu)%nat /\
  wall_reads (overhead_of n trace c).2 = (wall_reads c + wall)%nat.
Proof.
  intros cpu wall start finish. unfold overhead_of, ThreadCpuMicroTime.
  set (c1 := mkClocks (wall_clock c) (wall_reads c) (thread_cpu_clock c)
               (S (thread_cpu_reads c))).
  destruct (MeasureClockOverhead_iter_reads n trace c1) as (Hw & Hc & Hcr & Hwr).
  cbn [fst snd thread_cpu_reads wall_reads]. rewrite Hc, Hcr, Hwr.
  subst c1. cbn [thread_cpu_clock thread_cpu_reads wall_reads].
  fold cpu wall.
  replace (S (thread_cpu_reads c) + cpu)%nat
    with (thread_cpu_reads c + 1 + cpu)%nat by lia.
  repeat split; lia.
Qed.

(** C9. [GetClockOverhead] reads the thread-CPU clock, runs 4000 passes of
    8 calls of [MeasureClockOverhead], that is 32000 sampling iterations,
    each reading every clock in use once, reads the thread-CPU clock again
    and returns the elapsed thread-CPU microseconds divided by 32 (as
    [uint32_t]), which is the cost of one iteration in nanoseconds: the
    elapsed microseconds times 1000 divided by the 32000 iterations. *)
Theorem clock_overhead_calibration (trace : Trace) (c : Clocks) :
  let cpu := if UseThreadCpuClock trace then 1 else 0 in
  let wall := if UseWallClock trace then 1 else 0 in
  let start := uint64_t (thread_cpu_clock c (thread_cpu_reads c)) in
  let finish :=
    uint64_t (thread_cpu_clock c
                (thread_cpu_reads c + 1 + Z.to_nat (32000 * cpu))%nat) in
  let elapsed := uint64_t (finish - start) in
  4000 * 8 = 32000 /\
  GetClockOverhead trace c
  = (let '(start, c1) := ThreadCpuMicroTime c in
     let c2 := Nat.iter (Z.to_nat 32000) (MeasureClockOverhead trace) c1 in
     let '(now, c3) := ThreadCpuMicroTime c2 in
     (uint32_t (uint64_t (now - start) / 32), c3)) /\
  (forall c0,
     Z.of_nat (thread_cpu_reads (MeasureClockOverhead trace c0))
     = Z.of_nat (thread_cpu_reads c0) + cpu /\
     Z.of_nat (wall_reads (MeasureClockOverhead trace c0))
     = Z.of_nat (wall_reads c0) + wall) /\
  (GetClockOverhead trace c).1 = uint32_t (elapsed / 32) /\
  elapsed / 32 = elapsed * 1000 / 32000 /\
  Z.of_nat (thread_cpu_reads (GetClockOverhead trace c).2)
  = Z.of_nat (thread_cpu_reads c) + 2 + 32000 * cpu /\
  Z.of_nat (wall_reads (GetClockOverhead trace c).2)
  = Z.of_nat (wall_reads c) + 32000 * wall.
Proof.
  intros cpu wall start finish elapsed.
  split; [reflexivity|].
  split; [apply GetClockOverhead_overhead_of|].
  split.
  { intros c0. destruct (MeasureClockOverhead_reads trace c0) as (_ & _ & H1 & H2).
    rewrite H1, H2. unfold cpu, wall.
    destruct (UseThreadCpuClock trace), (UseWallClock trace); lia. }
  rewrite GetClockOverhead_overhead_of.
  generalize (overhead_of_spec (Z.to_nat 32000) trace c).
  generalize (overhead_of (Z.to_nat 32000) trace c). intros r.
  assert (H32000 : Z.of_nat (Z.to_nat 32000) = 32000) by lia.
  revert H32000. generalize (Z.to_nat 32000). intros n Hn (Hres & Hcr & Hwr).
  split; [|split; [|split]].
  - rewrite Hres. unfold elapsed, finish, start.
    replace (Z.to_nat (32000 * cpu))
      with (if UseThreadCpuClock trace then n else 0%nat)
      by (unfold cpu; destruct (UseThreadCpuClock trace); lia).
    reflexivity.
  - rewrite <- (Z.div_mul_cancel_r elapsed 32 1000) by lia. reflexivity.
  - rewrite Hcr. unfold cpu. destruct (UseThreadCpuClock trace); lia.
  - rewrite Hwr. unfold wall. destruct (UseWallClock trace); lia.
Qed.

(** ** Finalisation *)

Arguments GetClockOverhead : simpl never.
Arguments GetVisitedMethods : simpl never.

(** The cursor counts the records reserved. *)
Lemma run_reserved_count cbs tr rt tr' rt' :
  trace_ok tr -> run cbs tr rt = Some (tr', rt') ->
  cur_offset_ tr'
  = cur_offset_ tr
    + GetRecordSize (clock_source_ tr) * Z.of_nat (reserved_count cbs tr rt).
Proof.
  revert tr rt. induction cbs as [|cb cbs IH]; intros tr rt Hok H; simpl in *.
  - inversion H; subst. lia.
  - destruct (dispatch cb tr rt) as [[tr1 rt1]|] eqn:Hd; [|discriminate].
    destruct (dispatch_ok _ _ _ _ _ Hok Hd) as (Hok1 & _ & _).
    pose proof (dispatch_cursor _ _ _ _ _ Hd) as (_ & _ & Hcs & _ & _ & _ & Hcur & _).
    rewrite (IH _ _ Hok1 H), Hcs, Hcur.
    pose proof (reserves_spec tr Hok) as Hres.
    destruct Hok as [Hlo Hhi _ Hint _ _].
    pose proof (GetRecordSize_cases (clock_source_ tr)) as Hrs.
    unfold kTraceHeaderLength, INT32_MAX in *.
    destruct (reserves tr).
    + assert (cur_offset_ tr + GetRecordSize (clock_source_ tr) <= buffer_size_ tr)
        by (apply Hres; reflexivity).
      rewrite int32_t_id by lia. lia.
    + lia.
Qed.

Section Finalisation.

Variable kTraceCountAllocs : Z.
Variable PrettyDescriptor : string -> string.
Variable GetDeclaringClassDescriptor : Z -> string.
Variable GetName : Z -> string.
Variable GetSignature : Z -> string.
Variable GetDeclaringClassSourceFile : Z -> string.
Variable strerror_errno : string.

Let header_of :=
  TraceHeader kTraceCountAllocs PrettyDescriptor GetDeclaringClassDescriptor
    GetName GetSignature GetDeclaringClassSourceFile.

Let finish :=
  FinishTracing kTraceCountAllocs PrettyDescriptor GetDeclaringClassDescriptor
    GetName GetSignature GetDeclaringClassSourceFile strerror_errno.

(** What [FinishTracing] hands to the sink: the header text, which is
    [TraceHeader] for the elapsed time and the overhead it measured, and the
    buffer up to the cursor. *)
Lemma FinishTracing_sink (tr : Trace) (rt : Runtime) :
  exists elapsed clock_overhead rt',
    let final_offset := uint32_t (cur_offset_ tr) in
    let header :=
      String.concat "" (header_of tr elapsed final_offset clock_overhead rt') in
    let data := take (Z.to_nat final_offset) (buf_ tr) in
    match trace_file_ tr with
    | None => rt_sink (finish tr rt) = rt_sink rt ++ [DdmChunk "MPSE" header data]
    | Some f =>
      rt_write_fully rt (FileText f header) = true ->
      rt_write_fully rt (FileBytes f data) = true ->
      rt_sink (finish tr rt) = rt_sink rt ++ [FileText f header; FileBytes f data]
    end.
Proof.
  unfold finish, FinishTracing.
  destruct (MicroTime (rt_clocks rt)) as [now c].
  destruct (GetClockOverhead tr c) as [clock_overhead c'].
  exists (uint64_t (now - start_time_ tr)), clock_overhead.
  set (rt1 := set_clocks c' rt).
  set (rt2 := if negb (Z.land (flags_ tr) kTraceCountAllocs =? 0)
              then SetStatsEnabled false rt1 else rt1).
  exists rt2. cbv zeta. fold header_of.
  assert (Hsink : rt_sink rt2 = rt_sink rt)
    by (unfold rt2, rt1; destruct (negb _); reflexivity).
  assert (Hwrite : rt_write_fully rt2 = rt_write_fully rt)
    by (unfold rt2, rt1; destruct (negb _); reflexivity).
  destruct (trace_file_ tr) as [f|].
  - intros Hok1 Hok2. unfold WriteFully. rewrite Hwrite, Hok1.
    cbn [send rt_write_fully]. rewrite Hwrite, Hok2.
    cbn [andb send rt_sink]. rewrite Hsink, <- app_assoc. reflexivity.
  - cbn [send rt_sink]. now rewrite Hsink.
Qed.

(** C6. For a trace object made by the constructor and used by any
    sequence of recording callbacks, the header text that [FinishTracing]
    sends has as its sixth piece the line [num-method-calls=N] where [N] is
    [(final_offset - 32) / record size], and that is the number of calls
    that reserved a record; its third piece is [data-file-overflow=true] when
    [overflow_] is set and [data-file-overflow=false] when it is not. *)
Theorem preamble_counts cs file bs flags rt (cbs : list Callback) :
  kTraceHeaderLength <= bs -> bs + GetRecordSize cs <= INT32_MAX ->
  let '(tr0, rt0) := Trace_new cs file bs flags rt in
  exists tr rt1,
    run cbs tr0 rt0 = Some (tr, rt1) /\
    let final_offset := uint32_t (cur_offset_ tr) in
    let num := (final_offset - 32) / GetRecordSize cs in
    final_offset = cur_offset_ tr /\
    num = Z.of_nat (reserved_count cbs tr0 rt0) /\
    forall rt2,
      exists elapsed clock_overhead rt',
        let pieces := header_of tr elapsed final_offset clock_overhead rt' in
        let data := take (Z.to_nat final_offset) (buf_ tr) in
        match trace_file_ tr with
        | None =>
          rt_sink (finish tr rt2)
          = rt_sink rt2 ++ [DdmChunk "MPSE" (String.concat "" pieces) data]
        | Some f =>
          rt_write_fully rt2 (FileText f (String.concat "" pieces)) = true ->
          rt_write_fully rt2 (FileBytes f data) = true ->
          rt_sink (finish tr rt2)
          = rt_sink rt2
            ++ [FileText f (String.concat "" pieces); FileBytes f data]
        end /\
        pieces !! 5%nat
        = Some ("num-method-calls=" +:+ decimal num +:+ newline) /\
        pieces !! 2%nat
        = Some ("data-file-overflow="
                +:+ (if overflow_ tr then "true" else "false") +:+ newline).
Proof.
  intros Hlo Hhi.
  pose proof (Trace_new_ok cs file bs flags rt Hlo Hhi) as Hok0.
  destruct (Trace_new cs file bs flags rt) as [tr0 rt0] eqn:Hnew.
  assert (Hcs0 : clock_source_ tr0 = cs)
    by (unfold Trace_new in Hnew; simpl in Hnew; inversion Hnew; reflexivity).
  assert (Hcur0 : cur_offset_ tr0 = 32)
    by (unfold Trace_new in Hnew; simpl in Hnew; inversion Hnew; reflexivity).
  simpl in Hok0.
  destruct (run_returns cbs tr0 rt0) as (tr & rt1 & Hrun).
  exists tr, rt1. split; [exact Hrun|].
  destruct (run_ok _ _ _ _ _ Hok0 Hrun) as (Hok & _ & _ & Hcs & _).
  pose proof (run_reserved_count _ _ _ _ _ Hok0 Hrun) as Hcount.
  rewrite Hcur0, Hcs0 in Hcount. rewrite Hcs0 in Hcs.
  pose proof (GetRecordSize_cases cs) as Hrs.
  destruct Hok as [Hlo' Hhi' _ Hint' _ _]. rewrite Hcs in Hint'.
  unfold kTraceHeaderLength, INT32_MAX in *.
  assert (Hoff : uint32_t (cur_offset_ tr) = cur_offset_ tr)
    by (apply uint32_t_id; lia).
  assert (Hnum : (cur_offset_ tr - 32) / GetRecordSize cs
                 = Z.of_nat (reserved_count cbs tr0 rt0)).
  { rewrite Hcount.
    replace (32 + GetRecordSize cs * Z.of_nat (reserved_count cbs tr0 rt0) - 32)
      with (Z.of_nat (reserved_count cbs tr0 rt0) * GetRecordSize cs) by lia.
    apply Z.div_mul. lia. }
  cbv zeta. rewrite Hoff.
  split; [reflexivity|]. split; [exact Hnum|].
  intros rt2.
  destruct (FinishTracing_sink tr rt2) as (elapsed & clock_overhead & rt' & Hsink).
  cbv zeta in Hsink. rewrite Hoff in Hsink.
  exists elapsed, clock_overhead, rt'.
  split; [exact Hsink|].
  unfold header_of, TraceHeader. rewrite Hcs.
  change kTraceHeaderLength with 32.
  rewrite (uint32_t_id (cur_offset_ tr - 32)) by lia.
  rewrite int32_t_id.
  - split; reflexivity.
  - rewrite Hnum. rewrite Hcount in Hhi'. nia.
Qed.

End Finalisation.

(** ** Start *)

Section StartProperties.

Variable kTraceCountAllocs : Z.
Variable strerror_errno : string.

Let start := Start kTraceCountAllocs strerror_errno.

(** [Start] with no session and a sink that opens: a trace object is
    made, allocation statistics are switched on by the test of the source,
    [flags && kTraceCountAllocs], and one listener is added. *)
Lemma Start_creates trace_filename trace_fd buffer_size flags direct_to_ddms p :
  the_trace_ p = None ->
  direct_to_ddms = true \/ 0 <= trace_fd \/
    is_Some (rt_open_file (runtime p) trace_filename) ->
  let p' := start trace_filename trace_fd buffer_size flags direct_to_ddms p in
  exists tr,
    the_trace_ p' = Some tr /\
    buffer_size_ tr = buffer_size /\ flags_ tr = flags /\
    clock_source_ tr = default_clock_source_ p /\
    cur_offset_ tr = kTraceHeaderLength /\ overflow_ tr = false /\
    rt_stats_enabled (runtime p')
    = (if negb (flags =? 0) && negb (kTraceCountAllocs =? 0)
       then true else rt_stats_enabled (runtime p)) /\
    rt_listeners (runtime p')
    = rt_listeners (runtime p) ++ [(TraceListener, kTraceEvents)] /\
    rt_suspend_all (runtime p') = rt_suspend_all (runtime p) /\
    rt_log (runtime p') = rt_log (runtime p).
Proof.
  intros Hnone Hopen. unfold start, Start. rewrite Hnone.
  set (rt := SuspendAll (runtime p)).
  set (file := if direct_to_ddms then None
               else if trace_fd <? 0 then rt_open_file rt trace_filename
               else Some (DisableAutoClose (mkFile trace_fd "tracefile" true))).
  assert (Hfile : negb direct_to_ddms && bool_decide (file = None) = false).
  { destruct direct_to_ddms; [reflexivity|]. simpl.
    destruct Hopen as [Hc|[Hfd|[f Hf]]]; [discriminate| |]; unfold file.
    - destruct (Z.ltb_spec trace_fd 0); [lia|]. now apply bool_decide_eq_false.
    - destruct (trace_fd <? 0).
      + change (rt_open_file rt) with (rt_open_file (runtime p)). rewrite Hf.
        now apply bool_decide_eq_false.
      + now apply bool_decide_eq_false. }
  rewrite Hfile. cbv zeta.
  unfold Trace_new. cbn [MicroTime fst snd]. cbv beta iota zeta.
  eexists. split; [reflexivity|]. cbn [the_trace_ runtime buffer_size_ flags_
    clock_source_ cur_offset_ overflow_].
  repeat (split; [reflexivity|]).
  split.
  { destruct (negb (flags =? 0) && negb (kTraceCountAllocs =? 0)); reflexivity. }
  split.
  { destruct (negb (flags =? 0) && negb (kTraceCountAllocs =? 0)); reflexivity. }
  split.
  { destruct (negb (flags =? 0) && negb (kTraceCountAllocs =? 0)); simpl; lia. }
  destruct (negb (flags =? 0) && negb (kTraceCountAllocs =? 0)); reflexivity.
Qed.

(** [Start] with a session in place. *)
Lemma Start_active trace_filename trace_fd buffer_size flags direct_to_ddms p tr :
  the_trace_ p = Some tr ->
  start trace_filename trace_fd buffer_size flags direct_to_ddms p
  = mkProcess
      (LOG ERROR "Trace already in progress, ignoring this request" (runtime p))
      (Some tr) (default_clock_source_ p).
Proof. intros H. unfold start, Start. now rewrite H. Qed.

(** C8. [Start] with a session in place logs the error and returns: the
    session slot holds the same trace object (buffer, cursor, flags, sink
    and all), and the runtime differs by the log line alone, so no listener
    is added, no statistics are switched and nothing is suspended. Two
    [Start] calls one after the other, the first of which has a sink to
    write to and a buffer with room for the header, leave exactly one more
    listener than before, and the session of the first. *)
Theorem start_while_active :
  (forall trace_filename trace_fd buffer_size flags direct_to_ddms p tr,
     the_trace_ p = Some tr ->
     let p' := start trace_filename trace_fd buffer_size flags direct_to_ddms p in
     the_trace_ p' = Some tr /\
     default_clock_source_ p' = default_clock_source_ p /\
     runtime p'
     = LOG ERROR "Trace already in progress, ignoring this request" (runtime p) /\
     rt_log (runtime p')
     = rt_log (runtime p)
       ++ [(ERROR, "Trace already in progress, ignoring this request")] /\
     rt_listeners (runtime p') = rt_listeners (runtime p) /\
     rt_stats_enabled (runtime p') = rt_stats_enabled (runtime p) /\
     rt_suspend_all (runtime p') = rt_suspend_all (runtime p) /\
     rt_clocks (runtime p') = rt_clocks (runtime p) /\
     rt_sink (runtime p') = rt_sink (runtime p) /\
     rt_exception (runtime p') = rt_exception (runtime p)) /\
  (forall name1 fd1 size1 flags1 ddms1 name2 fd2 size2 flags2 ddms2 p,
     the_trace_ p = None ->
     kTraceHeaderLength <= size1 ->
     ddms1 = true \/ 0 <= fd1 \/ is_Some (rt_open_file (runtime p) name1) ->
     let p1 := start name1 fd1 size1 flags1 ddms1 p in
     let p2 := start name2 fd2 size2 flags2 ddms2 p1 in
     length (rt_listeners (runtime p1)) = S (length (rt_listeners (runtime p))) /\
     length (rt_listeners (runtime p2)) = S (length (rt_listeners (runtime p))) /\
     rt_listeners (runtime p2)
     = rt_listeners (runtime p) ++ [(TraceListener, kTraceEvents)] /\
     the_trace_ p2 = the_trace_ p1 /\ the_trace_ p1 <> None).
Proof.
  split.
  - intros trace_filename trace_fd buffer_size flags direct_to_ddms p tr Hactive p'.
    unfold p'. rewrite (Start_active _ _ _ _ _ _ _ Hactive).
    repeat split; reflexivity.
  - intros name1 fd1 size1 flags1 ddms1 name2 fd2 size2 flags2 ddms2 p Hnone _ Hopen
      p1 p2.
    destruct (Start_creates name1 fd1 size1 flags1 ddms1 p Hnone Hopen)
      as (tr & Htr & _ & _ & _ & _ & _ & _ & Hls & _).
    fold p1 in Htr, Hls.
    unfold p2. rewrite (Start_active _ _ _ _ _ _ _ Htr).
    cbn [runtime the_trace_ LOG rt_listeners]. rewrite Hls, Htr.
    rewrite length_app. simpl.
    repeat split; try lia; try reflexivity. discriminate.
Qed.

End StartProperties.

(** C1 (where the code departs from it). [Start] tests
    [flags && kTraceCountAllocs], a logical and: with the flag bit of
    trace.h, 1, and [flags = 2], whose count_allocs bit is clear, the test
    of [FinishTracing], [flags & kTraceCountAllocs], is false and yet
    [Start] has switched the allocation statistics on. *)
Theorem Start_count_allocs_logical_and :
  let p := mkProcess sample_runtime None kProfilerClockSourceDual in
  let p' := Start 1 "" "" (-1) 4096 2 true p in
  Z.land 2 1 = 0 /\
  rt_stats_enabled (runtime p) = false /\
  is_Some (the_trace_ p') /\
  rt_stats_enabled (runtime p') = true.
Proof.
  intros p p'.
  destruct (Start_creates 1 "" "" (-1) 4096 2 true p eq_refl (or_introl eq_refl))
    as (tr & Htr & _ & _ & _ & _ & _ & Hstats & _).
  fold p' in Htr, Hstats.
  split; [reflexivity|]. split; [reflexivity|].
  split; [rewrite Htr; eauto|]. rewrite Hstats. reflexivity.
Qed.

(** ** Calls that interleave *)

Lemma pc_ok_later tr tr' pc :
  pc_ok tr pc ->
  clock_source_ tr' = clock_source_ tr -> buffer_size_ tr' = buffer_size_ tr ->
  cur_offset_ tr <= cur_offset_ tr' ->
  pc_ok tr' pc.
Proof.
  intros Hpc Hcs Hbs Hcur. destruct pc; simpl in *; rewrite ?Hcs, ?Hbs; try exact I.
  - exact Hpc.
  - destruct Hpc. split; lia.
Qed.

(** One step of one call keeps the trace object in order, leaves the call
    in order, never moves the cursor back, and a record it reserves starts
    at the cursor it found. *)
Lemma step_call_ok pc tr rt pc' tr' rt' :
  trace_ok tr -> pc_ok tr pc ->
  step_call pc tr rt = (pc', tr', rt') ->
  trace_ok tr' /\ pc_ok tr' pc' /\
  clock_source_ tr' = clock_source_ tr /\ buffer_size_ tr' = buffer_size_ tr /\
  cur_offset_ tr <= cur_offset_ tr' /\
  (reserved_offset pc' = reserved_offset pc \/
   reserved_offset pc' = None \/
   reserved_offset pc = None /\ reserved_offset pc' = Some (cur_offset_ tr)).
Proof.
  intros Hok Hpc H.
  pose proof (GetRecordSize_cases (clock_source_ tr)) as Hrs.
  pose proof (reserves_spec tr Hok) as Hres.
  pose proof Hok as [Hlo Hhi Hal Hint Hbuf Hovf].
  unfold kTraceHeaderLength, INT32_MAX in *.
  destruct pc as [t m e|t m e old new|t m e old| |]; simpl in H.
  - (* the head of the loop *)
    unfold reserves in Hres.
    destruct (buffer_size_ tr <? _) eqn:Hfull; injection H as <- <- <-.
    + assert (Hno : ~ cur_offset_ tr + GetRecordSize (clock_source_ tr)
                      <= buffer_size_ tr)
        by (intros Hc; apply Hres in Hc; discriminate).
      split; [split; simpl; try assumption; intros _; lia|].
      simpl. repeat split; try lia. tauto.
    + assert (Hfit : cur_offset_ tr + GetRecordSize (clock_source_ tr)
                     <= buffer_size_ tr) by (apply Hres; reflexivity).
      rewrite int32_t_id by lia.
      split; [exact Hok|]. simpl. repeat split; try lia. tauto.
  - (* the compare-and-swap *)
    destruct Hpc as [Hnew Hfit]. unfold android_atomic_release_cas in H.
    destruct (Z.eqb_spec (cur_offset_ tr) old) as [Heq|Hne]; simpl in H;
      injection H as <- <- <-.
    + split; [split; simpl; try assumption; try lia|].
      * unfold kTraceHeaderLength. lia.
      * unfold kTraceHeaderLength. rewrite Hnew, <- Heq.
        replace (cur_offset_ tr + GetRecordSize (clock_source_ tr) - 32)
          with (cur_offset_ tr - 32 + 1 * GetRecordSize (clock_source_ tr)) by lia.
        rewrite Z_mod_plus_full. exact Hal.
      * intros Hov. specialize (Hovf Hov). lia.
      * simpl. unfold kTraceHeaderLength. repeat split; try lia.
        right. right. split; [reflexivity|]. now rewrite Heq.
    + split; [exact Hok|]. simpl. repeat split; try lia. tauto.
  - (* the record *)
    destruct (LogMethodTraceEvent_record t m e old tr rt) as [[tr1 rt1]|] eqn:Hrec;
      injection H as <- <- <-.
    + apply LogMethodTraceEvent_record_frame in Hrec.
      destruct Hrec as (_ & _ & Hcs & Hbs & _ & Hcur & Hov & Hlen & _).
      split; [split; rewrite ?Hcs, ?Hbs, ?Hcur, ?Hov, ?Hlen; assumption|].
      simpl. repeat split; try lia; try assumption. tauto.
    + split; [exact Hok|]. simpl. repeat split; try lia. tauto.
  - injection H as <- <- <-. split; [exact Hok|]. simpl. repeat split; try lia. tauto.
  - injection H as <- <- <-. split; [exact Hok|]. simpl. repeat split; try lia. tauto.
Qed.

Lemma step_ok i cfg :
  config_ok cfg ->
  config_ok (step i cfg) /\
  cur_offset_ (shared_trace cfg) <= cur_offset_ (shared_trace (step i cfg)) /\
  clock_source_ (shared_trace (step i cfg)) = clock_source_ (shared_trace cfg) /\
  buffer_size_ (shared_trace (step i cfg)) = buffer_size_ (shared_trace cfg) /\
  length (calls (step i cfg)) = length (calls cfg).
Proof.
  intros [Htr Hcalls Hdis]. unfold step.
  destruct (calls cfg !! i) as [pc|] eqn:Hi.
  2:{ split; [split; assumption|]. repeat split; try reflexivity; lia. }
  destruct (step_call pc (shared_trace cfg) (shared_runtime cfg))
    as [[pc' tr'] rt'] eqn:Hstep.
  destruct (step_call_ok _ _ _ _ _ _ Htr (Hcalls _ _ Hi) Hstep)
    as (Htr' & Hpc' & Hcs & Hbs & Hcur & Hres).
  assert (Hlt : (i < length (calls cfg))%nat) by (eapply lookup_lt_Some; eassumption).
  simpl. split; [split; simpl|].
  - exact Htr'.
  - intros j pcj Hj. destruct (decide (i = j)) as [->|Hne].
    + rewrite list_lookup_insert_eq in Hj by exact Hlt. inversion Hj; subst. exact Hpc'.
    + rewrite list_lookup_insert_ne in Hj by exact Hne.
      eapply pc_ok_later; [apply (Hcalls _ _ Hj)| | |]; assumption.
  - intros a b pa pb oa ob Hab Ha Hb Hoa Hob. rewrite Hcs.
    assert (Hother : forall j pj oj, j <> i -> calls cfg !! j = Some pj ->
              reserved_offset pj = Some oj ->
              oj + GetRecordSize (clock_source_ (shared_trace cfg))
              <= cur_offset_ (shared_trace cfg)).
    { intros j pj oj _ Hj Hoj. specialize (Hcalls _ _ Hj).
      destruct pj; try discriminate. simpl in Hoj, Hcalls. inversion Hoj; subst. lia. }
    destruct (decide (a = i)) as [->|Hai]; destruct (decide (b = i)) as [->|Hbi];
      try congruence.
    + rewrite list_lookup_insert_eq in Ha by exact Hlt.
      rewrite list_lookup_insert_ne in Hb by congruence.
      inversion Ha; subst pa.
      destruct Hres as [Hsame|[Hnone|[_ Hnew]]].
      * rewrite Hsame in Hoa. eapply (Hdis i b); eassumption.
      * congruence.
      * rewrite Hnew in Hoa. inversion Hoa; subst oa.
        right. eapply Hother; [|exact Hb|exact Hob]. congruence.
    + rewrite list_lookup_insert_ne in Ha by congruence.
      rewrite list_lookup_insert_eq in Hb by exact Hlt.
      inversion Hb; subst pb.
      destruct Hres as [Hsame|[Hnone|[_ Hnew]]].
      * rewrite Hsame in Hob. eapply (Hdis a i); eassumption.
      * congruence.
      * rewrite Hnew in Hob. inversion Hob; subst ob.
        left. eapply Hother; [|exact Ha|exact Hoa]. congruence.
    + rewrite list_lookup_insert_ne in Ha by congruence.
      rewrite list_lookup_insert_ne in Hb by congruence.
      eapply (Hdis a b); eassumption.
  - repeat split; try assumption. apply length_insert.
Qed.

Lemma interleave_ok schedule cfg :
  config_ok cfg ->
  config_ok (interleave schedule cfg) /\
  cur_offset_ (shared_trace cfg) <= cur_offset_ (shared_trace (interleave schedule cfg)) /\
  clock_source_ (shared_trace (interleave schedule cfg))
  = clock_source_ (shared_trace cfg) /\
  buffer_size_ (shared_trace (interleave schedule cfg))
  = buffer_size_ (shared_trace cfg).
Proof.
  revert cfg. induction schedule as [|i schedule IH]; intros cfg Hok; simpl.
  - split; [exact Hok|]. repeat split; try reflexivity; lia.
  - destruct (step_ok i cfg Hok) as (Hok1 & Hcur1 & Hcs1 & Hbs1 & _).
    destruct (IH _ Hok1) as (Hok' & Hcur' & Hcs' & Hbs').
    split; [exact Hok'|]. split; [lia|]. split; congruence.
Qed.

Lemma interleave_app s1 s2 cfg :
  interleave (s1 ++ s2) cfg = interleave s2 (interleave s1 cfg).
Proof. revert cfg. induction s1 as [|i s1 IH]; intros cfg; simpl; [reflexivity|apply IH]. Qed.

(** Calls that have not started yet on a trace object in order. *)
Lemma initial_config_ok (cbs : list Callback) tr rt :
  trace_ok tr -> config_ok (mkConfig (call_of <$> cbs) tr rt).
Proof.
  intros Hok. split; simpl.
  - exact Hok.
  - intros i pc Hi. apply list_lookup_fmap_Some in Hi as (cb & -> & _).
    destruct cb; exact I.
  - intros i j pi pj oi oj _ Hi _ Hoi.
    apply list_lookup_fmap_Some in Hi as (cb & -> & _). destruct cb; discriminate.
Qed.

(** On every schedule of calls that run at the same time on one trace
    object, the cursor stays between the header and the end of the buffer
    on a record boundary and never moves back, and two calls that are past
    the loop hold records that do not overlap. *)
Theorem interleaved_cursor cs file bs flags rt (cbs : list Callback)
    (schedule : list nat) :
  kTraceHeaderLength <= bs -> bs + GetRecordSize cs <= INT32_MAX ->
  let '(tr0, rt0) := Trace_new cs file bs flags rt in
  let cfg0 := mkConfig (call_of <$> cbs) tr0 rt0 in
  let cfg := interleave schedule cfg0 in
  let cur := cur_offset_ (shared_trace cfg) in
  32 <= cur <= bs /\ (cur - 32) mod GetRecordSize cs = 0 /\
  (forall s1 s2, schedule = s1 ++ s2 ->
     cur_offset_ (shared_trace (interleave s1 cfg0)) <= cur) /\
  (forall i j pi pj oi oj,
     i <> j -> calls cfg !! i = Some pi -> calls cfg !! j = Some pj ->
     reserved_offset pi = Some oi -> reserved_offset pj = Some oj ->
     32 <= oi /\ oi + GetRecordSize cs <= cur /\
     (oi + GetRecordSize cs <= oj \/ oj + GetRecordSize cs <= oi)).
Proof.
  intros Hlo Hhi.
  pose proof (Trace_new_ok cs file bs flags rt Hlo Hhi) as Hok0.
  destruct (Trace_new cs file bs flags rt) as [tr0 rt0] eqn:Hnew.
  assert (Hbs0 : buffer_size_ tr0 = bs)
    by (unfold Trace_new in Hnew; simpl in Hnew; inversion Hnew; reflexivity).
  assert (Hcs0 : clock_source_ tr0 = cs)
    by (unfold Trace_new in Hnew; simpl in Hnew; inversion Hnew; reflexivity).
  simpl in Hok0. intros cfg0 cfg cur.
  pose proof (initial_config_ok cbs tr0 rt0 Hok0) as Hcfg0. fold cfg0 in Hcfg0.
  destruct (interleave_ok schedule cfg0 Hcfg0) as (Hcfg & _ & Hcs & Hbs).
  fold cfg in Hcfg, Hcs, Hbs. simpl in Hcs, Hbs. rewrite Hcs0 in Hcs. rewrite Hbs0 in Hbs.
  destruct Hcfg as [[Hl Hh Hal _ _ _] Hcalls Hdis].
  unfold kTraceHeaderLength in *. rewrite Hcs in Hal, Hdis. rewrite Hbs in Hh.
  split; [unfold cur; lia|]. split; [exact Hal|]. split.
  - intros s1 s2 ->. unfold cur, cfg. rewrite interleave_app.
    destruct (interleave_ok s1 cfg0 Hcfg0) as (Hcfg1 & _).
    destruct (interleave_ok s2 _ Hcfg1) as (_ & Hle & _). exact Hle.
  - intros i j pi pj oi oj Hij Hi Hj Hoi Hoj.
    pose proof (Hcalls _ _ Hi) as Hpi.
    destruct pi; try discriminate. simpl in Hoi, Hpi. inversion Hoi; subst.
    rewrite Hcs in Hpi. unfold kTraceHeaderLength in Hpi.
    split; [lia|]. split; [unfold cur; lia|].
    eapply (Hdis i j); try eassumption; reflexivity.
Qed.

Lemma step_solo pc tr rt :
  step 0 (mkConfig [pc] tr rt)
  = mkConfig [(step_call pc tr rt).1.1] (step_call pc tr rt).1.2
      (step_call pc tr rt).2.
Proof.
  unfold step. cbn [calls lookup list_lookup shared_trace shared_runtime].
  destruct (step_call pc tr rt) as [[pc' tr'] rt']. reflexivity.
Qed.

Lemma solo_LogMethodTraceEvent thread method event tr rt tr' rt' :
  LogMethodTraceEvent thread method event tr rt = Some (tr', rt') ->
  interleave [0; 0; 0]%nat (mkConfig [PcLoop thread method event] tr rt)
  = mkConfig [PcReturned] tr' rt'.
Proof.
  intros Hd. unfold LogMethodTraceEvent in Hd.
  cbn [interleave]. rewrite step_solo. cbn [step_call].
  destruct (buffer_size_ tr <? _) eqn:Hfull.
  - injection Hd as <- <-. cbn [fst snd]. now rewrite !step_solo.
  - cbn [fst snd]. rewrite step_solo. cbn [step_call].
    unfold android_atomic_release_cas in *. rewrite Z.eqb_refl in *.
    cbn [Z.eqb fst snd]. rewrite step_solo. cbn [step_call].
    rewrite Hd. reflexivity.
Qed.

(** A call that runs alone through its three steps does what
    [LogMethodTraceEvent] does. *)
Theorem solo_call_is_sequential (cb : Callback) (tr : Trace) (rt : Runtime) :
  exists tr' rt',
    dispatch cb tr rt = Some (tr', rt') /\
    interleave [0; 0; 0]%nat (mkConfig [call_of cb] tr rt)
    = mkConfig [PcReturned] tr' rt'.
Proof.
  destruct (dispatch_returns cb tr rt) as (tr' & rt' & Hd).
  exists tr', rt'. split; [exact Hd|].
  destruct cb; apply solo_LogMethodTraceEvent; exact Hd.
Qed.

(** The worked example of the file format: the wall clock alone, a buffer
    of 64 bytes, and one entry of the method at 0x10002000 on thread 5, 42
    microseconds after the start: the record at offset 32 is
    05 00 00 20 00 10 2A 00 00 00 and the cursor is 42. *)
Theorem single_entry_record :
  let '(tr0, rt0) :=
    Trace_new kProfilerClockSourceWall None 64 0 sample_runtime in
  exists tr rt',
    MethodEntered sample_thread 0x10002000 tr0 rt0 = Some (tr, rt') /\
    bytes_at (buf_ tr) 32 10
    = [0x05; 0x00; 0x00; 0x20; 0x00; 0x10; 0x2A; 0x00; 0x00; 0x00] /\
    cur_offset_ tr = 42 /\ overflow_ tr = false.
Proof. vm_compute. eexists _, _. repeat split. Qed.

(** The overflow example from start to finish: the wall clock alone and a
    buffer of 42 bytes, two events, then [FinishTracing] with no trace file.
    One chunk goes to the debugger: the header text, which reports the
    overflow and one method call, and the 42 bytes of the buffer. *)
Theorem overflow_session_artifact :
  let meta_class := fun _ : Z => "LFoo;" in
  let meta_name := fun _ : Z => "bar" in
  let meta_signature := fun _ : Z => "()V" in
  let meta_file := fun _ : Z => "Foo.java" in
  let '(tr0, rt0) :=
    Trace_new kProfilerClockSourceWall None 42 0 sample_runtime_main in
  match run [OnMethodEntered sample_thread 0x10002000;
             OnMethodExited sample_thread 0x10002000] tr0 rt0 with
  | None => False
  | Some (tr, rt) =>
    rt_sink (FinishTracing 1 (fun s => s) meta_class meta_name meta_signature
               meta_file "" tr rt)
    = [DdmChunk "MPSE"
         (String.concat ""
            [ "*version" +:+ newline;
              "2" +:+ newline;
              "data-file-overflow=true" +:+ newline;
              "clock=wall" +:+ newline;
              "elapsed-time-usec=84" +:+ newline;
              "num-method-calls=1" +:+ newline;
              "clock-call-overhead-nsec=5" +:+ newline;
              "vm=art" +:+ newline;
              "*threads" +:+ newline;
              "5" +:+ tab +:+ "main" +:+ newline;
              "*methods" +:+ newline;
              "0x10002000" +:+ tab +:+ "LFoo;" +:+ tab +:+ "bar" +:+ tab
                +:+ "()V" +:+ tab +:+ "Foo.java" +:+ newline;
              "*end" +:+ newline ])
         [0x53; 0x4C; 0x4F; 0x57; 2; 0; 32; 0; 0x88; 0x13; 0; 0; 0; 0; 0; 0;
          0; 0; 0; 0; 0; 0; 0; 0; 0; 0; 0; 0; 0; 0; 0; 0;
          5; 0; 0x00; 0x20; 0x00; 0x10; 0x2A; 0; 0; 0]]
  end.
Proof. vm_compute. reflexivity. Qed.

(** ** Sessions and listeners *)

Section LifecycleProperties.

Variable kTraceCountAllocs : Z.
Variable HAVE_POSIX_CLOCKS : bool.
Variable PrettyDescriptor : string -> string.
Variable GetDeclaringClassDescriptor : Z -> string.
Variable GetName : Z -> string.
Variable GetSignature : Z -> string.
Variable GetDeclaringClassSourceFile : Z -> string.
Variable strerror_errno : string.

Let finish :=
  FinishTracing kTraceCountAllocs PrettyDescriptor GetDeclaringClassDescriptor
    GetName GetSignature GetDeclaringClassSourceFile strerror_errno.

Let call :=
  lifecycle_call kTraceCountAllocs HAVE_POSIX_CLOCKS PrettyDescriptor
    GetDeclaringClassDescriptor GetName GetSignature
    GetDeclaringClassSourceFile strerror_errno.

Let calls_of :=
  lifecycle kTraceCountAllocs HAVE_POSIX_CLOCKS PrettyDescriptor
    GetDeclaringClassDescriptor GetName GetSignature
    GetDeclaringClassSourceFile strerror_errno.

(** [FinishTracing] leaves the listeners and the suspension of the world
    as they are. *)
Lemma FinishTracing_frame tr rt :
  rt_listeners (finish tr rt) = rt_listeners rt /\
  rt_suspend_all (finish tr rt) = rt_suspend_all rt.
Proof.
  unfold finish, FinishTracing.
  destruct (MicroTime (rt_clocks rt)) as [now c].
  destruct (GetClockOverhead tr c) as [clock_overhead c'].
  destruct (negb (Z.land (flags_ tr) kTraceCountAllocs =? 0));
    (destruct (trace_file_ tr) as [f|]; [|split; reflexivity]);
    unfold WriteFully;
    match goal with
    | |- context [rt_write_fully ?r ?w] => destruct (rt_write_fully r w)
    end; try (split; reflexivity);
    match goal with
    | |- context [rt_write_fully ?r ?w] => destruct (rt_write_fully r w)
    end; split; reflexivity.
Qed.

Lemma trace_listeners_app rt l :
  filter (fun r : Listener * Z => r.1 = TraceListener) (rt_listeners rt ++ l)
  = trace_listeners rt ++ filter (fun r : Listener * Z => r.1 = TraceListener) l.
Proof. unfold trace_listeners. apply filter_app. Qed.

Lemma Start_session trace_filename trace_fd buffer_size flags direct_to_ddms p :
  session_ok p ->
  let p' := Start kTraceCountAllocs strerror_errno trace_filename trace_fd
              buffer_size flags direct_to_ddms p in
  session_ok p' /\ rt_suspend_all (runtime p') = rt_suspend_all (runtime p).
Proof.
  intros Hok p'. destruct (the_trace_ p) as [tr|] eqn:Htr.
  - unfold p'. rewrite (Start_active _ _ _ _ _ _ _ _ _ Htr).
    unfold session_ok in *. rewrite Htr in Hok. split; [exact Hok|reflexivity].
  - destruct (decide (direct_to_ddms = true \/ 0 <= trace_fd \/
                      is_Some (rt_open_file (runtime p) trace_filename)))
      as [Hopen|Hclosed].
    + destruct (Start_creates kTraceCountAllocs strerror_errno trace_filename
                  trace_fd buffer_size flags direct_to_ddms p Htr Hopen)
        as (tr & Htr' & _ & _ & _ & _ & _ & _ & Hls & Hsus & _).
      fold p' in Htr', Hls, Hsus. split; [|exact Hsus].
      unfold session_ok in *. rewrite Htr', Htr in *.
      unfold trace_listeners at 1. rewrite Hls, trace_listeners_app, Hok.
      reflexivity.
    + assert (Hddms : direct_to_ddms = false)
        by (destruct direct_to_ddms; [exfalso; apply Hclosed; now left|reflexivity]).
      assert (Hfd : (trace_fd <? 0) = true)
        by (apply Z.ltb_lt; destruct (Z.lt_ge_cases trace_fd 0);
            [assumption|exfalso; apply Hclosed; right; now left]).
      assert (Hfile : rt_open_file (runtime p) trace_filename = None).
      { destruct (rt_open_file (runtime p) trace_filename) as [f|] eqn:Hf;
          [|reflexivity].
        exfalso. apply Hclosed. right. right. rewrite ?Hf. eauto. }
      unfold p', Start. rewrite Htr, Hddms, Hfd. cbn [SuspendAll rt_open_file negb].
      rewrite Hfile. cbn [andb]. rewrite bool_decide_eq_true_2 by reflexivity.
      unfold session_ok in *. cbn [the_trace_ runtime]. rewrite Htr in Hok.
      split; [exact Hok|simpl; lia].
Qed.

Lemma Stop_session p :
  session_ok p ->
  let p' := Stop kTraceCountAllocs PrettyDescriptor GetDeclaringClassDescriptor
              GetName GetSignature GetDeclaringClassSourceFile strerror_errno p in
  session_ok p' /\ the_trace_ p' = None /\
  rt_suspend_all (runtime p') = rt_suspend_all (runtime p).
Proof.
  intros Hok p'. unfold p', Stop. unfold session_ok in *.
  destruct (the_trace_ p) as [tr|].
  - fold finish.
    destruct (FinishTracing_frame tr (SuspendAll (runtime p))) as [Hls Hsus].
    unfold trace_listeners, ResumeAll, RemoveListener, set_listeners.
    cbn [the_trace_ runtime rt_suspend_all rt_listeners].
    rewrite Hsus, Hls. split; [|split; [reflexivity|simpl; lia]].
    cbn [SuspendAll rt_listeners].
    rewrite list_filter_filter.
    apply (f_equal (filter (fun r : Listener * Z =>
                              ¬ (r.1 = TraceListener /\ Z.land r.2 kTraceEvents ≠ 0))))
      in Hok.
    unfold trace_listeners in Hok. rewrite list_filter_filter in Hok.
    etransitivity; [|exact Hok].
    apply list_filter_iff. intros [l e]. simpl. tauto.
  - cbn [the_trace_ runtime]. split; [exact Hok|]. split; [reflexivity|simpl; lia].
Qed.

Lemma lifecycle_call_session c p :
  session_ok p ->
  session_ok (call c p) /\
  rt_suspend_all (runtime (call c p)) = rt_suspend_all (runtime p).
Proof.
  intros Hok. destruct c; unfold call, lifecycle_call.
  - apply Start_session, Hok.
  - destruct (Stop_session p Hok) as (H1 & _ & H2). split; assumption.
  - unfold Shutdown. destruct (IsMethodTracingActive p).
    + destruct (Stop_session p Hok) as (H1 & _ & H2). split; assumption.
    + split; [exact Hok|reflexivity].
  - unfold SetDefaultClockSource.
    destruct HAVE_POSIX_CLOCKS; [split; [exact Hok|reflexivity]|].
    destruct (decide (clock_source ≠ kProfilerClockSourceWall));
      split; try exact Hok; reflexivity.
Qed.

(** Over any sequence of [Start], [Stop], [Shutdown] and
    [SetDefaultClockSource] calls, each [Start] asking for a buffer with
    room for the header, from a process without a session and without a
    registration of the trace object: a session is in place exactly when
    the trace object is registered as a listener, it is registered at most
    once, and every suspension of the world has been resumed. *)
Theorem session_iff_listener (cs : list LifecycleCall) (p : Process) :
  the_trace_ p = None -> trace_listeners (runtime p) = [] ->
  Forall call_size_ok cs ->
  let p' := calls_of cs p in
  (IsMethodTracingActive p' = true <->
   trace_listeners (runtime p') = [(TraceListener, kTraceEvents)]) /\
  (IsMethodTracingActive p' = false <-> trace_listeners (runtime p') = []) /\
  rt_suspend_all (runtime p') = rt_suspend_all (runtime p).
Proof.
  intros Hnone Hls _.
  assert (Hok : session_ok p) by (unfold session_ok; now rewrite Hnone).
  clear Hnone Hls. revert p Hok.
  induction cs as [|c cs IH]; intros p Hok p'.
  - unfold p', calls_of. simpl. unfold session_ok in Hok.
    unfold IsMethodTracingActive. rewrite Hok.
    destruct (the_trace_ p); simpl; repeat split; try discriminate; try reflexivity;
      intros _; (apply bool_decide_eq_true_2 + apply bool_decide_eq_false_2);
      congruence.
  - destruct (lifecycle_call_session c p Hok) as [Hok1 Hsus1].
    destruct (IH _ Hok1) as (H1 & H2 & H3).
    unfold p', calls_of. simpl. fold call calls_of.
    split; [exact H1|]. split; [exact H2|]. now rewrite H3.
Qed.

End LifecycleProperties.

(** ** Visited methods *)

Lemma lor_shiftl_add a b k :
  0 <= k -> 0 <= a < 2 ^ k -> Z.lor a (Z.shiftl b k) = a + b * 2 ^ k.
Proof.
  intros Hk Ha. rewrite Z.shiftl_mul_pow2 by exact Hk.
  symmetry. apply Z.add_nocarry_lor. rewrite <- Z.shiftl_mul_pow2 by exact Hk.
  apply Z.bits_inj'. intros n Hn. rewrite Z.land_spec, Z.bits_0.
  destruct (Z.lt_ge_cases n k) as [Hlt|Hge].
  - rewrite Z.shiftl_spec_low by exact Hlt. apply andb_false_r.
  - destruct (Z.eq_dec a 0) as [->|Hne]; [now rewrite Z.bits_0|].
    rewrite Z.bits_above_log2; [reflexivity|lia|].
    apply Z.log2_lt_pow2; [lia|].
    pose proof (Z.pow_le_mono_r 2 k n). lia.
Qed.

Lemma bytes_at_lookup buf p (n i : nat) x :
  0 <= p -> bytes_at buf p n !! i = Some x -> buf !! (Z.to_nat p + i)%nat = Some x.
Proof.
  intros Hp H. unfold bytes_at in H.
  destruct (decide (i < n)%nat) as [Hi|Hi].
  - rewrite lookup_take_lt, lookup_drop in H by exact Hi. exact H.
  - rewrite lookup_take_ge in H by lia. discriminate.
Qed.

(** The bytes that [GetVisitedMethods] puts together at a record are the
    packed value stored there. *)
Lemma load_tmid buf p v :
  0 <= p -> 0 <= v < 2 ^ 32 ->
  bytes_at buf (p + 2) 4 = le_bytes 4 v ->
  uint32_t
    (Z.lor (Z.lor (Z.lor (load buf (p + 2)) (Z.shiftl (load buf (p + 3)) 8))
                  (Z.shiftl (load buf (p + 4)) 16))
           (Z.shiftl (load buf (p + 5)) 24))
  = v.
Proof.
  intros Hp Hv Hbytes.
  assert (Hload : forall (i : nat) x, le_bytes 4 v !! i = Some x ->
            load buf (p + 2 + Z.of_nat i) = x).
  { intros i x Hi. unfold load. apply list_lookup_total_correct.
    replace (Z.to_nat (p + 2 + Z.of_nat i)) with (Z.to_nat (p + 2) + i)%nat by lia.
    apply (bytes_at_lookup buf (p + 2) 4 i); [lia|]. now rewrite Hbytes. }
  pose proof (Hload 0%nat (v mod 256) eq_refl) as H0.
  pose proof (Hload 1%nat ((v / 256) mod 256) eq_refl) as H1.
  pose proof (Hload 2%nat ((v / 256 / 256) mod 256) eq_refl) as H2.
  pose proof (Hload 3%nat ((v / 256 / 256 / 256) mod 256) eq_refl) as H3.
  replace (p + 2 + Z.of_nat 0) with (p + 2) in H0 by lia.
  replace (p + 2 + Z.of_nat 1) with (p + 3) in H1 by lia.
  replace (p + 2 + Z.of_nat 2) with (p + 4) in H2 by lia.
  replace (p + 2 + Z.of_nat 3) with (p + 5) in H3 by lia.
  replace (v / 256 / 256) with (v / 65536) in H2, H3
    by (rewrite Z.div_div by lia; reflexivity).
  replace (v / 65536 / 256) with (v / 16777216) in H3
    by (rewrite Z.div_div by lia; reflexivity).
  rewrite H0, H1, H2, H3. clear Hload H0 H1 H2 H3.
  pose proof (Z.mod_pos_bound v 256 ltac:(lia)) as B0.
  pose proof (Z.mod_pos_bound (v / 256) 256 ltac:(lia)) as B1.
  pose proof (Z.mod_pos_bound (v / 65536) 256 ltac:(lia)) as B2.
  pose proof (Z.mod_pos_bound (v / 16777216) 256 ltac:(lia)) as B3.
  rewrite (lor_shiftl_add _ _ 8) by lia. change (2 ^ 8) with 256.
  rewrite (lor_shiftl_add _ _ 16) by (change (2 ^ 16) with 65536; lia).
  change (2 ^ 16) with 65536.
  rewrite (lor_shiftl_add _ _ 24) by (change (2 ^ 24) with 16777216; lia).
  change (2 ^ 24) with 16777216.
  rewrite uint32_t_id by (change (2 ^ 32) with 4294967296; lia).
  change (2 ^ 32) with 4294967296 in Hv.
  pose proof (Z.div_mod v 256 ltac:(lia)) as D0.
  pose proof (Z.div_mod (v / 256) 256 ltac:(lia)) as D1.
  pose proof (Z.div_mod (v / 65536) 256 ltac:(lia)) as D2.
  rewrite Z.div_div in D1 by lia. rewrite Z.div_div in D2 by lia.
  change (256 * 256) with 65536 in D1. change (65536 * 256) with 16777216 in D2.
  assert (D3 : (v / 16777216) mod 256 = v / 16777216).
  { apply Z.mod_small. split; [apply Z.div_pos; lia|].
    apply Z.div_lt_upper_bound; lia. }
  lia.
Qed.

(** The loop of [GetVisitedMethods] over a buffer that holds the records
    of [tmids]. *)
Lemma GetVisitedMethods_loop_records tmids fuel buf cs p visited :
  0 <= p -> (length tmids <= fuel)%nat ->
  records_at buf cs p tmids ->
  GetVisitedMethods_loop fuel buf cs p
    (p + GetRecordSize cs * Z.of_nat (length tmids)) visited
  = fold_left (fun visited tmid => set_insert (DecodeTraceMethodId tmid) visited)
      tmids visited.
Proof.
  pose proof (GetRecordSize_cases cs) as Hrs.
  revert fuel p visited.
  induction tmids as [|tmid tmids IH]; intros fuel p visited Hp Hfuel Hrec.
  - simpl. rewrite Z.mul_0_r, Z.add_0_r.
    destruct fuel; simpl; [reflexivity|]. now rewrite Z.ltb_irrefl.
  - destruct fuel as [|fuel]; [simpl in Hfuel; lia|].
    destruct Hrec as (Hbytes & Hv & Hrest).
    cbn [GetVisitedMethods_loop fold_left].
    destruct (Z.ltb_spec p (p + GetRecordSize cs * Z.of_nat (length (tmid :: tmids))))
      as [_|Hge]; [|cbn [length] in Hge; lia].
    rewrite (load_tmid buf p tmid Hp Hv Hbytes).
    replace (p + GetRecordSize cs * Z.of_nat (length (tmid :: tmids)))
      with (p + GetRecordSize cs + GetRecordSize cs * Z.of_nat (length tmids))
      by (cbn [length]; lia).
    apply IH; [lia|simpl in Hfuel; lia|exact Hrest].
Qed.

Lemma records_at_app buf cs p l1 l2 :
  records_at buf cs p (l1 ++ l2) <->
  records_at buf cs p l1 /\
  records_at buf cs (p + GetRecordSize cs * Z.of_nat (length l1)) l2.
Proof.
  revert p. induction l1 as [|v l1 IH]; intros p.
  - simpl. rewrite Z.mul_0_r, Z.add_0_r. tauto.
  - cbn [records_at app length]. rewrite IH.
    replace (p + GetRecordSize cs + GetRecordSize cs * Z.of_nat (length l1))
      with (p + GetRecordSize cs * Z.of_nat (S (length l1))) by lia.
    tauto.
Qed.

(** Records stay what they are when the bytes they lie in are not
    touched. *)
Lemma records_at_frame buf buf' cs p tmids :
  0 <= p ->
  (forall q (n : nat), p <= q ->
     q + Z.of_nat n <= p + GetRecordSize cs * Z.of_nat (length tmids) ->
     bytes_at buf' q n = bytes_at buf q n) ->
  records_at buf cs p tmids -> records_at buf' cs p tmids.
Proof.
  pose proof (GetRecordSize_cases cs) as Hrs.
  revert p. induction tmids as [|v tmids IH]; intros p Hp Hsame Hrec; [exact I|].
  destruct Hrec as (Hbytes & Hv & Hrest). cbn [records_at].
  split; [|split; [exact Hv|]].
  - rewrite Hsame; [exact Hbytes|lia|cbn [length]; lia].
  - apply IH; [lia| |exact Hrest].
    intros q n Hq Hn. apply Hsame; [lia|cbn [length]; lia].
Qed.

(** The packed value of the record that a reserving callback writes. *)
Lemma LogMethodTraceEvent_record_tmid thread method event action old tr rt tr' rt' :
  action_of_event event = Some action ->
  0 <= old ->
  old + GetRecordSize (clock_source_ tr) <= Z.of_nat (length (buf_ tr)) ->
  LogMethodTraceEvent_record thread method event old tr rt = Some (tr', rt') ->
  bytes_at (buf_ tr') (old + 2) 4
  = le_bytes 4 (uint32_t (EncodeTraceMethodAndAction method action)).
Proof.
  intros Ha Hold Hfit H.
  pose proof (GetRecordSize_cases (clock_source_ tr)) as Hrs.
  unfold LogMethodTraceEvent_record in H. rewrite Ha in H.
  destruct (UseThreadCpuClock tr);
    [destruct (thread_clock_base_map_ tr !! thread_ptr thread)|];
    destruct (UseWallClock tr); simpl in H; inversion H; subst; simpl;
    rewrite ?bytes_at_Append4LE_out by lia;
    rewrite Append4LE_bytes by (rewrite ?Append2LE_length; lia); reflexivity.
Qed.

Lemma dispatch_tmid cb tr rt tr' rt' :
  trace_ok tr -> reserves tr = true ->
  dispatch cb tr rt = Some (tr', rt') ->
  bytes_at (buf_ tr') (cur_offset_ tr + 2) 4 = le_bytes 4 (callback_tmid cb).
Proof.
  intros Hok Hres H.
  destruct (trace_ok_fits tr Hok Hres) as [Hold Hfit].
  destruct cb as [t m|t m|t m]; simpl in H;
    unfold MethodEntered, MethodExited, MethodUnwind in H;
    rewrite LogMethodTraceEvent_reserved in H by exact Hres;
    refine (LogMethodTraceEvent_record_tmid _ _ _ _ _
              (set_cur_offset_ _ tr) _ _ _ _ Hold Hfit H); reflexivity.
Qed.

(** After any calls the buffer holds the records of the callbacks that
    reserved one, from the header on. *)
Lemma run_records cbs tr rt tr' rt' before :
  trace_ok tr ->
  cur_offset_ tr
  = kTraceHeaderLength + GetRecordSize (clock_source_ tr) * Z.of_nat (length before) ->
  records_at (buf_ tr) (clock_source_ tr) kTraceHeaderLength before ->
  run cbs tr rt = Some (tr', rt') ->
  records_at (buf_ tr') (clock_source_ tr) kTraceHeaderLength
    (before ++ recorded cbs tr rt).
Proof.
  revert tr rt before.
  induction cbs as [|cb cbs IH]; intros tr rt before Hok Hcur Hrec H; simpl in H.
  - inversion H; subst. simpl. now rewrite app_nil_r.
  - destruct (dispatch cb tr rt) as [[tr1 rt1]|] eqn:Hd; [|discriminate].
    cbn [recorded]. rewrite Hd.
    destruct (dispatch_ok _ _ _ _ _ Hok Hd) as (Hok1 & _ & _).
    pose proof (dispatch_cursor _ _ _ _ _ Hd)
      as (_ & _ & Hcs & _ & _ & _ & Hcur1 & _).
    pose proof (GetRecordSize_cases (clock_source_ tr)) as Hrs.
    pose proof Hok as [Hlo Hhi _ Hint _ _].
    unfold kTraceHeaderLength, INT32_MAX in *.
    rewrite app_assoc, <- Hcs.
    assert (Hbefore1 : records_at (buf_ tr1) (clock_source_ tr) 32 before).
    { apply (records_at_frame (buf_ tr)); [lia| |exact Hrec].
      intros q n Hq Hn. eapply dispatch_outside; [exact Hok|lia| |exact Hd].
      left. lia. }
    destruct (reserves tr) eqn:Hres.
    + assert (Hfit : cur_offset_ tr + GetRecordSize (clock_source_ tr)
                     <= buffer_size_ tr)
        by (apply (reserves_spec tr Hok); exact Hres).
      rewrite int32_t_id in Hcur1 by lia.
      apply IH; [exact Hok1| |rewrite Hcs|exact H].
      * rewrite Hcs, Hcur1, Hcur, length_app. simpl. lia.
      * apply records_at_app. split; [exact Hbefore1|].
        cbn [records_at]. rewrite <- Hcur.
        split; [exact (dispatch_tmid _ _ _ _ _ Hok Hres Hd)|].
        split; [destruct cb; apply uint32_t_range|exact I].
    + rewrite app_nil_r.
      apply IH; [exact Hok1| |rewrite Hcs; exact Hbefore1|exact H].
      rewrite Hcs, Hcur1. exact Hcur.
Qed.

(** ** [std::set] insertion *)

Lemma set_insert_elem x s y : y ∈ set_insert x s <-> y = x \/ y ∈ s.
Proof.
  induction s as [|z s IH]; simpl.
  - rewrite list_elem_of_singleton, elem_of_nil. tauto.
  - destruct (Z.ltb_spec x z); [apply elem_of_cons|].
    destruct (Z.eqb_spec x z) as [->|].
    + rewrite elem_of_cons. tauto.
    + rewrite !elem_of_cons, IH. tauto.
Qed.

Lemma set_insert_sorted x s :
  StronglySorted Z.lt s -> StronglySorted Z.lt (set_insert x s).
Proof.
  induction 1 as [|z s Hs IH Hz]; simpl.
  - repeat constructor.
  - destruct (Z.ltb_spec x z) as [Hlt|Hge].
    + constructor; [now constructor|].
      constructor; [exact Hlt|].
      eapply Forall_impl; [exact Hz|]. simpl. intros; lia.
    + destruct (Z.eqb_spec x z) as [->|Hne]; [now constructor|].
      constructor; [exact IH|].
      apply Forall_forall. intros y Hy. apply set_insert_elem in Hy.
      destruct Hy as [->|Hy]; [lia|].
      rewrite Forall_forall in Hz. now apply Hz.
Qed.

Lemma visited_fold_spec tmids visited :
  StronglySorted Z.lt visited ->
  let result :=
    fold_left (fun visited tmid => set_insert (DecodeTraceMethodId tmid) visited)
      tmids visited in
  StronglySorted Z.lt result /\
  forall m, m ∈ result <->
    m ∈ visited \/ exists tmid, tmid ∈ tmids /\ DecodeTraceMethodId tmid = m.
Proof.
  revert visited. induction tmids as [|tmid tmids IH]; intros visited Hs; simpl.
  - split; [exact Hs|]. intros m. split; [tauto|].
    intros [H|(t & Ht & _)]; [exact H|]. now apply elem_of_nil in Ht.
  - destruct (IH _ (set_insert_sorted (DecodeTraceMethodId tmid) _ Hs)) as [Hs' Hm].
    split; [exact Hs'|]. intros m. rewrite Hm, set_insert_elem.
    split.
    + intros [[->|H]|(t & Ht & Hd)]; [right|now left|right].
      * exists tmid. split; [left|reflexivity].
      * exists t. split; [now right|exact Hd].
    + intros [H|(t & Ht & Hd)]; [left; now right|].
      apply elem_of_cons in Ht. destruct Ht as [->|Ht].
      * left. left. now symmetry.
      * right. exists t. split; assumption.
Qed.

Lemma StronglySorted_lt_NoDup (l : list Z) : StronglySorted Z.lt l -> NoDup l.
Proof.
  induction 1 as [|x l Hl IH Hx]; constructor; [|exact IH].
  intros Hin. rewrite Forall_forall in Hx. specialize (Hx x Hin). lia.
Qed.

(** [GetVisitedMethods], called with the cursor as [FinishTracing] calls
    it, returns the set of the methods decoded from the packed values of the
    callbacks that reserved a record: every method logged and no other, in
    strictly increasing order of address and without repeats; it is the
    list that inserting them one by one into a [std::set] gives. *)
Theorem visited_methods_are_the_recorded cs file bs flags rt (cbs : list Callback) :
  kTraceHeaderLength <= bs -> bs + GetRecordSize cs <= INT32_MAX ->
  let '(tr0, rt0) := Trace_new cs file bs flags rt in
  exists tr rt',
    run cbs tr0 rt0 = Some (tr, rt') /\
    length (recorded cbs tr0 rt0) = reserved_count cbs tr0 rt0 /\
    let visited := GetVisitedMethods tr (uint32_t (cur_offset_ tr)) in
    visited = visited_of (recorded cbs tr0 rt0) /\
    StronglySorted Z.lt visited /\ NoDup visited /\
    forall m, m ∈ visited <->
      exists tmid, tmid ∈ recorded cbs tr0 rt0 /\ DecodeTraceMethodId tmid = m.
Proof.
  intros Hlo Hhi.
  pose proof (Trace_new_ok cs file bs flags rt Hlo Hhi) as Hok0.
  destruct (Trace_new cs file bs flags rt) as [tr0 rt0] eqn:Hnew.
  assert (Hcs0 : clock_source_ tr0 = cs)
    by (unfold Trace_new in Hnew; simpl in Hnew; inversion Hnew; reflexivity).
  assert (Hcur0 : cur_offset_ tr0 = 32)
    by (unfold Trace_new in Hnew; simpl in Hnew; inversion Hnew; reflexivity).
  simpl in Hok0.
  destruct (run_returns cbs tr0 rt0) as (tr & rt' & Hrun).
  exists tr, rt'. split; [exact Hrun|].
  assert (Hlen : forall cbs tr rt,
            length (recorded cbs tr rt) = reserved_count cbs tr rt).
  { clear. induction cbs as [|cb cbs IH]; intros tr rt; simpl; [reflexivity|].
    destruct (dispatch cb tr rt) as [[tr1 rt1]|]; [|reflexivity].
    rewrite length_app, IH. destruct (reserves tr); reflexivity. }
  split; [apply Hlen|].
  assert (Heq : GetVisitedMethods tr (uint32_t (cur_offset_ tr))
                = visited_of (recorded cbs tr0 rt0)).
  { pose proof (run_records cbs tr0 rt0 tr rt' [] Hok0) as Hrec.
    rewrite Hcur0, Hcs0 in Hrec. simpl in Hrec.
    specialize (Hrec ltac:(unfold kTraceHeaderLength; lia) I Hrun).
    destruct (run_ok _ _ _ _ _ Hok0 Hrun) as (Hok & _ & _ & Hcs & _).
    pose proof (run_reserved_count _ _ _ _ _ Hok0 Hrun) as Hcount.
    rewrite Hcur0, Hcs0 in Hcount. rewrite Hcs0 in Hcs.
    destruct Hok as [Hlo' Hhi' _ Hint' _ _]. rewrite Hcs in Hint'.
    pose proof (GetRecordSize_cases cs) as Hrs.
    unfold kTraceHeaderLength, INT32_MAX in *.
    rewrite uint32_t_id by lia.
    unfold GetVisitedMethods, visited_of. rewrite Hcs, Hcount, <- Hlen.
    apply GetVisitedMethods_loop_records;
      [unfold kTraceHeaderLength; lia| |exact Hrec].
    rewrite Hlen. nia. }
  cbv zeta. rewrite Heq. split; [reflexivity|].
  destruct (visited_fold_spec (recorded cbs tr0 rt0) []) as [Hsorted Hmem];
    [constructor|].
  cbv zeta in Hsorted, Hmem. fold (visited_of (recorded cbs tr0 rt0)) in Hsorted, Hmem.
  split; [exact Hsorted|]. split; [apply StronglySorted_lt_NoDup, Hsorted|].
  intros m. rewrite Hmem. split.
  - intros [Hnil|H]; [now apply elem_of_nil in Hnil|exact H].
  - intros H. right. exact H.
Qed.

(** ** The codec on any method reference *)

Lemma DecodeTraceMethodId_clears m :
  0 <= m < 2 ^ 32 ->
  Z.land m (uint32_t (Z.lnot (TraceAction_value kTraceMethodActionMask)))
  = 4 * (m / 4).
Proof.
  intros Hm.
  replace (4 * (m / 4)) with (Z.shiftl (Z.shiftr m 2) 2)
    by (rewrite Z.shiftl_mul_pow2, Z.shiftr_div_pow2 by lia;
        change (2 ^ 2) with 4; lia).
  apply Z.bits_inj'. intros n Hn.
  rewrite Z.land_spec, method_mask_bits by exact Hn.
  destruct (Z.leb_spec 2 n) as [H2|H2]; simpl.
  - rewrite Z.shiftl_spec, Z.shiftr_spec by lia.
    replace (n - 2 + 2) with n by lia.
    destruct (Z.ltb_spec n 32) as [H32|H32].
    + apply andb_true_r.
    + rewrite andb_false_r. symmetry. apply high_bits_clear; assumption.
  - rewrite andb_false_r. symmetry. apply Z.shiftl_spec_low. lia.
Qed.

Lemma DecodeTraceMethodId_Encode_any m a :
  0 <= m < 2 ^ 32 ->
  DecodeTraceMethodId (EncodeTraceMethodAndAction m a) = 4 * (m / 4).
Proof.
  intros Hm. rewrite <- DecodeTraceMethodId_clears by exact Hm.
  unfold DecodeTraceMethodId, EncodeTraceMethodAndAction.
  rewrite uint32_t_id by exact Hm.
  apply Z.bits_inj'. intros n Hn.
  rewrite !Z.land_spec, Z.lor_spec, method_mask_bits by exact Hn.
  destruct (Z.leb_spec 2 n) as [H2|H2]; simpl.
  - now rewrite TraceAction_value_bits, orb_false_r by exact H2.
  - now rewrite !andb_false_r.
Qed.

Lemma land_3_mod m : Z.land m 3 = m mod 4.
Proof. change 3 with (Z.ones 2). rewrite Z.land_ones by lia. reflexivity. Qed.

(** For any 32-bit method reference, aligned or not: the [DCHECK_EQ] of
    [EncodeTraceMethodAndAction] holds exactly when the two low bits of the
    reference are zero. Without that (in a build where the check is
    compiled out) the packed value decodes to the reference rounded down to
    a multiple of four, and the action read back is the one of the low bits
    of the reference or-ed into the action that was packed. *)
Theorem dcheck_iff_aligned (m : Z) (a : TraceAction) :
  0 <= m < 2 ^ 32 ->
  (EncodeTraceMethodAndAction_DCHECK m a = true <-> Z.land m 3 = 0) /\
  DecodeTraceMethodId (EncodeTraceMethodAndAction m a) = m - m mod 4 /\
  DecodeTraceAction (EncodeTraceMethodAndAction m a)
  = TraceAction_of_value (Z.lor (m mod 4) (TraceAction_value a)).
Proof.
  intros Hm. split; [|split].
  - unfold EncodeTraceMethodAndAction_DCHECK.
    rewrite DecodeTraceMethodId_Encode_any by exact Hm.
    rewrite land_3_mod, Z.eqb_eq.
    pose proof (Z.div_mod m 4). lia.
  - rewrite DecodeTraceMethodId_Encode_any by exact Hm.
    pose proof (Z.div_mod m 4). lia.
  - unfold DecodeTraceAction, EncodeTraceMethodAndAction.
    rewrite uint32_t_id by exact Hm.
    rewrite Z.land_lor_distr_l. simpl (TraceAction_value kTraceMethodActionMask).
    rewrite land_3_mod. f_equal. f_equal. destruct a; reflexivity.
Qed.

(** On aligned 32-bit method references the packing is injective: two
    pairs of a method and an action with the same packed value are the same
    pair. *)
Theorem encode_injective (m1 m2 : Z) (a1 a2 : TraceAction) :
  0 <= m1 < 2 ^ 32 -> Z.land m1 3 = 0 ->
  0 <= m2 < 2 ^ 32 -> Z.land m2 3 = 0 ->
  EncodeTraceMethodAndAction m1 a1 = EncodeTraceMethodAndAction m2 a2 ->
  m1 = m2 /\ a1 = a2.
Proof.
  intros H1 A1 H2 A2 E. split.
  - rewrite <- (DecodeTraceMethodId_Encode m1 a1), <- (DecodeTraceMethodId_Encode m2 a2)
      by assumption.
    now rewrite E.
  - rewrite <- (DecodeTraceAction_Encode m1 a1), <- (DecodeTraceAction_Encode m2 a2)
      by assumption.
    now rewrite E.
Qed.


(** ** Stores of 2, 4 and 8 bytes *)

Lemma Append8LE_lookup_out buf p v (i : nat) :
  0 <= p -> (i < Z.to_nat p \/ Z.to_nat p + 8 <= i)%nat ->
  Append8LE buf p v !! i = buf !! i.
Proof.
  intros Hp Hi. unfold Append8LE. rewrite !store_lookup_ne by lia. reflexivity.
Qed.

(** The byte that a chain of stores leaves at [q]: the one of the store to
    [q], which no later store of the chain touches. *)
Ltac stored_byte :=
  rewrite ?store_lookup_ne by lia;
  apply store_lookup_eq; [lia|rewrite ?store_length; lia].

Lemma Append8LE_bytes buf p v :
  0 <= p -> (Z.to_nat p + 8 <= length buf)%nat ->
  bytes_at (Append8LE buf p v) p 8 = le_bytes 8 (uint64_t v).
Proof.
  intros Hp Hlen. unfold Append8LE.
  set (val := uint64_t v).
  rewrite (bytes_at_cons _ p 7 (uint8_t val)); [|exact Hp|stored_byte].
  rewrite (bytes_at_cons _ (p + 1) 6 (uint8_t (Z.shiftr val 8))); [|lia|stored_byte].
  replace (p + 1 + 1) with (p + 2) by lia.
  rewrite (bytes_at_cons _ (p + 2) 5 (uint8_t (Z.shiftr val 16))); [|lia|stored_byte].
  replace (p + 2 + 1) with (p + 3) by lia.
  rewrite (bytes_at_cons _ (p + 3) 4 (uint8_t (Z.shiftr val 24))); [|lia|stored_byte].
  replace (p + 3 + 1) with (p + 4) by lia.
  rewrite (bytes_at_cons _ (p + 4) 3 (uint8_t (Z.shiftr val 32))); [|lia|stored_byte].
  replace (p + 4 + 1) with (p + 5) by lia.
  rewrite (bytes_at_cons _ (p + 5) 2 (uint8_t (Z.shiftr val 40))); [|lia|stored_byte].
  replace (p + 5 + 1) with (p + 6) by lia.
  rewrite (bytes_at_cons _ (p + 6) 1 (uint8_t (Z.shiftr val 48))); [|lia|stored_byte].
  replace (p + 6 + 1) with (p + 7) by lia.
  rewrite (bytes_at_cons _ (p + 7) 0 (uint8_t (Z.shiftr val 56))); [|lia|stored_byte].
  cbn [le_bytes]. unfold bytes_at. rewrite take_0.
  unfold uint8_t. rewrite !Z.shiftr_div_pow2, !Z.div_div by lia. reflexivity.
Qed.

Lemma bytes_at_split buf p (n m : nat) :
  0 <= p ->
  bytes_at buf p (n + m) = bytes_at buf p n ++ bytes_at buf (p + Z.of_nat n) m.
Proof.
  intros Hp. unfold bytes_at.
  replace (Z.to_nat (p + Z.of_nat n)) with (Z.to_nat p + n)%nat by lia.
  rewrite <- drop_drop. symmetry. apply take_take_drop.
Qed.

(** [Append2LE], [Append4LE] and [Append8LE] at an offset [p] whose bytes
    lie in the buffer leave in [buf[p ..]] the little-endian bytes of the
    value cut to 16, 32 and 64 bits, keep the length of the buffer and
    every byte outside their range, and the expression with which
    [GetVisitedMethods] and [DumpBuf] read the packed value of the record
    at [p] gives back what [Append4LE] stored at [p + 2]. *)
Theorem little_endian_roundtrip (buf : list Z) (p val : Z) :
  0 <= p ->
  (p + 2 <= Z.of_nat (length buf) ->
   bytes_at (Append2LE buf p val) p 2 = le_bytes 2 (uint16_t val) /\
   le_value (bytes_at (Append2LE buf p val) p 2) = val mod 2 ^ 16) /\
  (p + 4 <= Z.of_nat (length buf) ->
   bytes_at (Append4LE buf p val) p 4 = le_bytes 4 (uint32_t val) /\
   le_value (bytes_at (Append4LE buf p val) p 4) = val mod 2 ^ 32) /\
  (p + 8 <= Z.of_nat (length buf) ->
   bytes_at (Append8LE buf p val) p 8 = le_bytes 8 (uint64_t val) /\
   le_value (bytes_at (Append8LE buf p val) p 8) = val mod 2 ^ 64) /\
  (p + 6 <= Z.of_nat (length buf) ->
   let buf' := Append4LE buf (p + 2) val in
   uint32_t
     (Z.lor (Z.lor (Z.lor (load buf' (p + 2)) (Z.shiftl (load buf' (p + 3)) 8))
                   (Z.shiftl (load buf' (p + 4)) 16))
            (Z.shiftl (load buf' (p + 5)) 24))
   = val mod 2 ^ 32) /\
  length (Append2LE buf p val) = length buf /\
  length (Append4LE buf p val) = length buf /\
  length (Append8LE buf p val) = length buf /\
  (forall i : nat, (i < Z.to_nat p \/ Z.to_nat p + 2 <= i)%nat ->
     Append2LE buf p val !! i = buf !! i) /\
  (forall i : nat, (i < Z.to_nat p \/ Z.to_nat p + 4 <= i)%nat ->
     Append4LE buf p val !! i = buf !! i) /\
  (forall i : nat, (i < Z.to_nat p \/ Z.to_nat p + 8 <= i)%nat ->
     Append8LE buf p val !! i = buf !! i).
Proof.
  intros Hp. repeat split.
  - apply Append2LE_bytes; lia.
  - apply le_value_Append2LE; lia.
  - apply Append4LE_bytes; lia.
  - apply le_value_Append4LE; lia.
  - apply Append8LE_bytes; lia.
  - rewrite Append8LE_bytes by lia. apply le_value_uint64.
  - intros buf'. apply load_tmid; [exact Hp|apply uint32_t_range|].
    apply Append4LE_bytes; lia.
  - apply Append2LE_length.
  - apply Append4LE_length.
  - apply Append8LE_length.
  - intros i Hi. now apply Append2LE_lookup_out.
  - intros i Hi. now apply Append4LE_lookup_out.
  - intros i Hi. now apply Append8LE_lookup_out.
Qed.


(** ** The bytes of a record *)

Lemma clock_source_uses tr :
  match clock_source_ tr with
  | kProfilerClockSourceThreadCpu =>
    UseThreadCpuClock tr = true /\ UseWallClock tr = false /\
    GetRecordSize (clock_source_ tr) = 10
  | kProfilerClockSourceWall =>
    UseThreadCpuClock tr = false /\ UseWallClock tr = true /\
    GetRecordSize (clock_source_ tr) = 10
  | kProfilerClockSourceDual =>
    UseThreadCpuClock tr = true /\ UseWallClock tr = true /\
    GetRecordSize (clock_source_ tr) = 14
  end.
Proof.
  unfold UseThreadCpuClock, UseWallClock.
  destruct (clock_source_ tr); repeat split; reflexivity.
Qed.

Lemma LogMethodTraceEvent_record_bytes thread method event action old tr rt tr' rt' :
  action_of_event event = Some action ->
  0 <= old ->
  old + GetRecordSize (clock_source_ tr) <= Z.of_nat (length (buf_ tr)) ->
  LogMethodTraceEvent_record thread method event old tr rt = Some (tr', rt') ->
  bytes_at (buf_ tr') old (Z.to_nat (GetRecordSize (clock_source_ tr)))
  = le_bytes 2 (uint16_t (GetTid thread))
    ++ le_bytes 4 (uint32_t (EncodeTraceMethodAndAction method action))
    ++ record_times thread tr rt.
Proof.
  intros Ha Hold Hfit H.
  unfold LogMethodTraceEvent_record in H. rewrite Ha in H.
  unfold record_times.
  pose proof (clock_source_uses tr) as Huses.
  destruct (clock_source_ tr); destruct Huses as (Hcpu & Hwall & Hrs);
    rewrite Hcpu, Hwall in H |- *; rewrite Hrs in Hfit |- *;
    [destruct (thread_clock_base_map_ tr !! thread_ptr thread)
    | |destruct (thread_clock_base_map_ tr !! thread_ptr thread)];
    simpl in H; inversion H; subst; cbn [buf_]; clear H.
  all: try change (Z.to_nat 10) with (2 + (4 + 4))%nat.
  all: try change (Z.to_nat 14) with (2 + (4 + (4 + 4)))%nat.
  all: rewrite !bytes_at_split by lia.
  all: rewrite ?app_nil_r.
  all: replace (old + Z.of_nat 2) with (old + 2) by lia.
  all: replace (old + 2 + Z.of_nat 4) with (old + 6) by lia.
  all: try replace (old + 6 + Z.of_nat 4) with (old + 6 + 4) by lia.
  all: repeat f_equal.
  all: rewrite ?bytes_at_Append4LE_out by lia.
  all: try (rewrite Append2LE_bytes by lia; reflexivity).
  all: try (rewrite Append4LE_bytes
              by (rewrite ?Append4LE_length, ?Append2LE_length; lia);
            rewrite ?uint32_t_idem, ?uint32_t_uint64_t; reflexivity).
Qed.

Lemma callback_encoding cb :
  exists event action method,
    dispatch cb = LogMethodTraceEvent (callback_thread cb) method event /\
    action_of_event event = Some action /\
    callback_tmid cb = uint32_t (EncodeTraceMethodAndAction method action).
Proof.
  destruct cb as [t m|t m|t m];
    [exists kMethodEntered, kTraceMethodEnter, m
    |exists kMethodExited, kTraceMethodExit, m
    |exists kMethodUnwind, kTraceUnroll, m];
    repeat split; reflexivity.
Qed.

(** The record of a call that finds room, for every clock source: the
    cursor moves on by one record, [overflow_] and the length of the buffer
    stay, the bytes from the old cursor on are the thread id in 16 bits,
    the packed method and action in 32 bits, then the CPU time since the
    base of the thread (0 for a thread without a base) when the thread-CPU
    clock is in use, then the wall time since [start_time_] cut to 32 bits
    when the wall clock is in use; all other bytes of the buffer stay. *)
Theorem record_layout (cb : Callback) (tr : Trace) (rt : Runtime) :
  trace_ok tr -> reserves tr = true ->
  exists tr' rt',
    dispatch cb tr rt = Some (tr', rt') /\
    let old := cur_offset_ tr in
    let size := GetRecordSize (clock_source_ tr) in
    cur_offset_ tr' = old + size /\
    overflow_ tr' = overflow_ tr /\
    length (buf_ tr') = length (buf_ tr) /\
    bytes_at (buf_ tr') old (Z.to_nat size)
    = le_bytes 2 (uint16_t (GetTid (callback_thread cb)))
      ++ le_bytes 4 (callback_tmid cb)
      ++ record_times (callback_thread cb) tr rt /\
    (forall q (n : nat), 0 <= q ->
       q + Z.of_nat n <= old \/ old + size <= q ->
       bytes_at (buf_ tr') q n = bytes_at (buf_ tr) q n).
Proof.
  intros Hok Hres.
  destruct (dispatch_returns cb tr rt) as (tr' & rt' & Hd).
  exists tr', rt'. split; [exact Hd|]. intros old size.
  pose proof (dispatch_cursor _ _ _ _ _ Hd)
    as (_ & _ & _ & _ & _ & Hlen & Hcur & Hov).
  rewrite Hres in Hcur, Hov.
  destruct (trace_ok_fits tr Hok Hres) as [Hold Hfit].
  assert (Hroom : old + size <= buffer_size_ tr)
    by (apply (reserves_spec tr Hok); exact Hres).
  pose proof (GetRecordSize_cases (clock_source_ tr)) as Hrs.
  destruct Hok as [Hlo Hhi Hal Hint Hbuf Hovf].
  unfold INT32_MAX in Hint. fold old size in Hcur, Hfit, Hrs, Hint.
  split; [rewrite Hcur, int32_t_id by lia; reflexivity|].
  split; [rewrite Hov; apply orb_false_r|].
  split; [exact Hlen|].
  split.
  - destruct (callback_encoding cb) as (event & action & method & Hcb & Ha & ->).
    rewrite Hcb, LogMethodTraceEvent_reserved in Hd by exact Hres.
    exact (LogMethodTraceEvent_record_bytes _ _ _ _ _ (set_cur_offset_ _ tr)
             _ _ _ Ha Hold Hfit Hd).
  - intros q n Hq Hout.
    eapply dispatch_outside; [|exact Hq|exact Hout|exact Hd].
    constructor; assumption.
Qed.


(** ** The buffer as a whole *)

Lemma bytes_at_one buf (i : nat) :
  bytes_at buf (Z.of_nat i) 1 !! 0%nat = buf !! i.
Proof.
  unfold bytes_at. rewrite lookup_take_lt, lookup_drop by lia.
  f_equal. lia.
Qed.

Lemma dispatch_lookup_outside cb tr rt tr' rt' (i : nat) :
  trace_ok tr ->
  Z.of_nat i < cur_offset_ tr \/
  cur_offset_ tr + GetRecordSize (clock_source_ tr) <= Z.of_nat i ->
  dispatch cb tr rt = Some (tr', rt') ->
  buf_ tr' !! i = buf_ tr !! i.
Proof.
  intros Hok Hout Hd.
  rewrite <- (bytes_at_one (buf_ tr')), <- (bytes_at_one (buf_ tr)). f_equal.
  eapply dispatch_outside; [exact Hok|lia| |exact Hd]. lia.
Qed.

(** The calls leave the header alone and write no byte at or past the
    cursor they leave. *)
Lemma run_lookup_outside cbs tr rt tr' rt' (i : nat) :
  trace_ok tr -> run cbs tr rt = Some (tr', rt') ->
  Z.of_nat i < cur_offset_ tr \/ cur_offset_ tr' <= Z.of_nat i ->
  buf_ tr' !! i = buf_ tr !! i.
Proof.
  revert tr rt. induction cbs as [|cb cbs IH]; intros tr rt Hok H Hout; simpl in H.
  - inversion H; subst. reflexivity.
  - destruct (dispatch cb tr rt) as [[tr1 rt1]|] eqn:Hd; [|discriminate].
    destruct (dispatch_ok _ _ _ _ _ Hok Hd) as (Hok1 & Hmono & _).
    destruct (run_ok _ _ _ _ _ Hok1 H) as (_ & Hmono1 & _).
    rewrite (IH _ _ Hok1 H) by lia.
    destruct (reserves tr) eqn:Hres.
    + pose proof (dispatch_cursor _ _ _ _ _ Hd)
        as (_ & _ & _ & _ & _ & _ & Hcur & _).
      rewrite Hres in Hcur.
      apply (dispatch_lookup_outside cb tr rt tr1 rt1 i Hok); [|exact Hd].
      destruct Hout as [Hout|Hout]; [left; exact Hout|right].
      pose proof (proj1 (reserves_spec tr Hok) Hres) as Hfit.
      pose proof (ok_low tr Hok) as Hlo. pose proof (ok_int32 tr Hok) as Hint.
      pose proof (GetRecordSize_cases (clock_source_ tr)) as Hrs.
      unfold kTraceHeaderLength in Hlo. unfold INT32_MAX in Hint.
      rewrite int32_t_id in Hcur by lia. lia.
    + rewrite dispatch_dropped in Hd by exact Hres.
      injection Hd as <- _. reflexivity.
Qed.

Lemma run_start_time cbs tr rt tr' rt' :
  run cbs tr rt = Some (tr', rt') -> start_time_ tr' = start_time_ tr.
Proof.
  revert tr rt. induction cbs as [|cb cbs IH]; intros tr rt Hrun; simpl in Hrun.
  - now inversion Hrun.
  - destruct (dispatch cb tr rt) as [[tr1 rt1]|] eqn:Hd; [|discriminate].
    rewrite (IH _ _ Hrun).
    now pose proof (dispatch_cursor _ _ _ _ _ Hd) as (_ & _ & _ & _ & -> & _).
Qed.

Lemma Trace_new_tail cs file bs flags rt (i : nat) :
  kTraceHeaderLength <= bs -> 32 <= Z.of_nat i < bs ->
  buf_ (Trace_new cs file bs flags rt).1 !! i = Some 0.
Proof.
  intros Hbs Hi. rewrite Trace_new_buf by exact Hbs.
  rewrite lookup_app_r by (rewrite spec_header_length; lia).
  apply lookup_replicate_2. rewrite spec_header_length. lia.
Qed.

(** After the constructor and any calls the buffer still has the size
    asked for, its first 32 bytes are still the header that the constructor
    wrote for the start time it read, and every byte from the cursor to the
    end is zero. *)
Theorem buffer_shape cs file bs flags rt (cbs : list Callback) :
  kTraceHeaderLength <= bs -> bs + GetRecordSize cs <= INT32_MAX ->
  let '(tr0, rt0) := Trace_new cs file bs flags rt in
  exists tr rt',
    run cbs tr0 rt0 = Some (tr, rt') /\
    length (buf_ tr) = Z.to_nat bs /\
    start_time_ tr = (MicroTime (rt_clocks rt)).1 /\
    bytes_at (buf_ tr) 0 32 = spec_header cs (start_time_ tr) /\
    (forall i : nat, cur_offset_ tr <= Z.of_nat i < bs -> buf_ tr !! i = Some 0).
Proof.
  intros Hbs Hint.
  pose proof (Trace_new_ok cs file bs flags rt Hbs Hint) as Hok0.
  pose proof (Trace_new_buf cs file bs flags rt Hbs) as Hbuf0.
  pose proof (Trace_new_tail cs file bs flags rt) as Htail0.
  pose proof (Trace_new_start_time cs file bs flags rt) as Hstart0.
  destruct (Trace_new cs file bs flags rt) as [tr0 rt0] eqn:Hnew.
  cbn [fst] in *.
  assert (Hbs0 : buffer_size_ tr0 = bs).
  { apply (f_equal fst) in Hnew. cbn [fst] in Hnew. rewrite <- Hnew. reflexivity. }
  destruct (run_returns cbs tr0 rt0) as (tr & rt' & Hrun).
  exists tr, rt'. split; [exact Hrun|].
  destruct (run_ok _ _ _ _ _ Hok0 Hrun) as (Hok & Hmono & Hsize & _ & _).
  pose proof (run_start_time _ _ _ _ _ Hrun) as Hst.
  split; [rewrite (ok_buf tr Hok), Hsize, Hbs0; reflexivity|].
  split; [rewrite Hst; exact Hstart0|].
  pose proof (ok_low tr0 Hok0) as Hlo0. unfold kTraceHeaderLength in Hlo0, Hbs.
  split.
  - rewrite Hst.
    rewrite (bytes_at_frame (buf_ tr0)); [|lia|].
    + rewrite Hbuf0. rewrite bytes_at_app_l by (rewrite ?spec_header_length; lia).
      unfold bytes_at. rewrite drop_0. apply take_ge.
      rewrite spec_header_length. lia.
    + intros i Hi. apply (run_lookup_outside cbs tr0 rt0 tr rt' i Hok0 Hrun). lia.
  - intros i Hi.
    rewrite (run_lookup_outside cbs tr0 rt0 tr rt' i Hok0 Hrun) by lia.
    apply Htail0; [unfold kTraceHeaderLength; lia|lia].
Qed.


(** ** Capacity *)

Lemma room_reserves tr :
  trace_ok tr -> reserves tr = bool_decide (0 < room tr)%nat.
Proof.
  intros Hok. pose proof (reserves_spec tr Hok) as Hres.
  pose proof (ok_high tr Hok) as Hhi.
  pose proof (GetRecordSize_cases (clock_source_ tr)) as Hrs.
  unfold room.
  set (rs := GetRecordSize (clock_source_ tr)) in *.
  set (d := buffer_size_ tr - cur_offset_ tr) in *.
  assert (Hd : 0 <= d) by (unfold d; lia).
  assert (Hq : 0 < d / rs <-> rs <= d).
  { split; intros Hlt.
    - destruct (Z.lt_ge_cases d rs) as [Hsmall|]; [|assumption].
      rewrite Z.div_small in Hlt by lia. lia.
    - apply Z.div_str_pos. lia. }
  destruct (reserves tr).
  - symmetry. apply bool_decide_eq_true. 
    assert (rs <= d) by (unfold d; apply Z.le_add_le_sub_l, Hres; reflexivity).
    apply Hq in H. lia.
  - symmetry. apply bool_decide_eq_false. intros Hpos.
    assert (0 < d / rs) by lia. apply Hq in H.
    assert (false = true) by (apply Hres; unfold d in H; lia). discriminate.
Qed.

Lemma room_after cb tr rt tr' rt' :
  trace_ok tr -> dispatch cb tr rt = Some (tr', rt') ->
  room tr' = pred (room tr).
Proof.
  intros Hok Hd.
  pose proof (dispatch_cursor _ _ _ _ _ Hd)
    as (_ & _ & Hcs & Hbs & _ & _ & Hcur & _).
  pose proof (room_reserves tr Hok) as Hroom.
  pose proof (reserves_spec tr Hok) as Hres.
  pose proof (ok_low tr Hok) as Hlo. pose proof (ok_int32 tr Hok) as Hint.
  pose proof (ok_high tr Hok) as Hhi.
  pose proof (GetRecordSize_cases (clock_source_ tr)) as Hrs.
  unfold kTraceHeaderLength in Hlo. unfold INT32_MAX in Hint.
  unfold room in *. rewrite Hcs, Hbs, Hcur.
  set (rs := GetRecordSize (clock_source_ tr)) in *.
  destruct (reserves tr).
  - assert (Hfit : cur_offset_ tr + rs <= buffer_size_ tr) by (apply Hres; reflexivity).
    rewrite int32_t_id by lia.
    replace (buffer_size_ tr - cur_offset_ tr)
      with (buffer_size_ tr - (cur_offset_ tr + rs) + 1 * rs) by lia.
    rewrite Z.div_add by lia.
    assert (0 <= (buffer_size_ tr - (cur_offset_ tr + rs)) / rs)
      by (apply Z.div_pos; lia).
    lia.
  - symmetry in Hroom. apply bool_decide_eq_false in Hroom. lia.
Qed.

Lemma run_capacity cbs tr rt tr' rt' :
  trace_ok tr -> run cbs tr rt = Some (tr', rt') ->
  reserved_count cbs tr rt = (length cbs `min` room tr)%nat /\
  recorded cbs tr rt = callback_tmid <$> take (room tr) cbs /\
  overflow_ tr' = overflow_ tr || bool_decide (room tr < length cbs)%nat.
Proof.
  revert tr rt. induction cbs as [|cb cbs IH]; intros tr rt Hok H; simpl in H.
  - inversion H; subst. simpl. rewrite take_nil.
    repeat split. symmetry. apply orb_false_r.
  - destruct (dispatch cb tr rt) as [[tr1 rt1]|] eqn:Hd; [|discriminate].
    cbn [reserved_count recorded]. rewrite Hd.
    destruct (dispatch_ok _ _ _ _ _ Hok Hd) as (Hok1 & _ & _).
    destruct (IH _ _ Hok1 H) as (Hcount & Hrec & Hov).
    pose proof (room_after _ _ _ _ _ Hok Hd) as Hroom1.
    pose proof (room_reserves tr Hok) as Hres.
    pose proof (dispatch_cursor _ _ _ _ _ Hd)
      as (_ & _ & _ & _ & _ & _ & _ & Hov1).
    rewrite Hcount, Hrec, Hov, Hov1, Hroom1, Hres. cbn [length].
    destruct (room tr) as [|n] eqn:Hn; simpl.
    + rewrite Nat.min_0_r. repeat split.
      rewrite !orb_true_r. reflexivity.
    + repeat split. rewrite orb_false_r. f_equal.
      apply bool_decide_ext. lia.
Qed.

(** A buffer of [bs] bytes takes [(bs - 32) / record size] records. The
    calls that write a record are the first ones, as many as fit: their
    count is the smaller of the number of calls and that capacity, the
    cursor stands behind them, the packed values recorded are those of
    these first calls in order, and [overflow_] is set exactly when there
    were more calls than the capacity. *)
Theorem buffer_capacity cs file bs flags rt (cbs : list Callback) :
  kTraceHeaderLength <= bs -> bs + GetRecordSize cs <= INT32_MAX ->
  let '(tr0, rt0) := Trace_new cs file bs flags rt in
  let capacity := Z.to_nat ((bs - 32) / GetRecordSize cs) in
  exists tr rt',
    run cbs tr0 rt0 = Some (tr, rt') /\
    reserved_count cbs tr0 rt0 = (length cbs `min` capacity)%nat /\
    cur_offset_ tr
    = 32 + GetRecordSize cs * Z.of_nat (length cbs `min` capacity)%nat /\
    overflow_ tr = bool_decide (capacity < length cbs)%nat /\
    recorded cbs tr0 rt0 = callback_tmid <$> take capacity cbs.
Proof.
  intros Hbs Hint.
  pose proof (Trace_new_ok cs file bs flags rt Hbs Hint) as Hok0.
  destruct (Trace_new cs file bs flags rt) as [tr0 rt0] eqn:Hnew.
  cbn [fst] in Hok0. intros capacity.
  assert (Hfields : buffer_size_ tr0 = bs /\ clock_source_ tr0 = cs /\
                    cur_offset_ tr0 = 32 /\ overflow_ tr0 = false).
  { apply (f_equal fst) in Hnew. cbn [fst] in Hnew. rewrite <- Hnew.
    repeat split. }
  destruct Hfields as (Hsize & Hcs & Hcur & Hov).
  assert (Hroom : room tr0 = capacity)
    by (unfold room, capacity; rewrite Hsize, Hcs, Hcur; reflexivity).
  destruct (run_returns cbs tr0 rt0) as (tr & rt' & Hrun).
  exists tr, rt'. split; [exact Hrun|].
  destruct (run_capacity _ _ _ _ _ Hok0 Hrun) as (Hcount & Hrec & Hovf).
  rewrite Hroom in Hcount, Hrec, Hovf.
  split; [exact Hcount|]. split; [|split; [|exact Hrec]].
  - rewrite (run_reserved_count _ _ _ _ _ Hok0 Hrun), Hcur, Hcs, Hcount.
    reflexivity.
  - rewrite Hovf, Hov. reflexivity.
Qed.


(** ** Events that are not traced, and the clocks *)

(** The events without a trace action are [kDexPcMoved] and
    [kExceptionCaught]. [LogMethodTraceEvent] aborts exactly when it is
    given one of them and the record fits: the abort sits behind the
    reservation loop, so with a full buffer such a call sets [overflow_] and
    returns like any other. *)
Theorem untraced_event_aborts thread method event (tr : Trace) (rt : Runtime) :
  (action_of_event event = None <->
   event = kDexPcMoved \/ event = kExceptionCaught) /\
  (LogMethodTraceEvent thread method event tr rt = None <->
   action_of_event event = None /\ reserves tr = true) /\
  (reserves tr = false ->
   LogMethodTraceEvent thread method event tr rt = Some (set_overflow_ true tr, rt)).
Proof.
  split; [|split].
  - destruct event; simpl; split; intros H;
      try discriminate; try (destruct H; discriminate); auto.
  - destruct (reserves tr) eqn:Hres.
    + rewrite LogMethodTraceEvent_reserved by exact Hres.
      destruct (action_of_event event) as [action|] eqn:Ha.
      * destruct (LogMethodTraceEvent_record_returns thread method event action
                    (cur_offset_ tr)
                    (set_cur_offset_
                       (int32_t (cur_offset_ tr + GetRecordSize (clock_source_ tr))) tr)
                    rt Ha) as (tr' & rt' & ->).
        split; [discriminate|intros [? _]; discriminate].
      * unfold LogMethodTraceEvent_record. rewrite Ha. split; auto.
    + rewrite LogMethodTraceEvent_dropped by exact Hres.
      split; [discriminate|intros [_ ?]; discriminate].
  - apply LogMethodTraceEvent_dropped.
Qed.

Lemma set_clocks_same rt : set_clocks (rt_clocks rt) rt = rt.
Proof. destruct rt; reflexivity. Qed.

Lemma dispatch_runtime cb tr rt tr' rt' :
  dispatch cb tr rt = Some (tr', rt') ->
  rt' = set_clocks (rt_clocks rt') rt /\
  wall_clock (rt_clocks rt') = wall_clock (rt_clocks rt) /\
  thread_cpu_clock (rt_clocks rt') = thread_cpu_clock (rt_clocks rt) /\
  thread_cpu_reads (rt_clocks rt')
  = (thread_cpu_reads (rt_clocks rt)
     + if reserves tr && UseThreadCpuClock tr then 1 else 0)%nat /\
  wall_reads (rt_clocks rt')
  = (wall_reads (rt_clocks rt)
     + if reserves tr && UseWallClock tr then 1 else 0)%nat.
Proof.
  intros Hd. destruct (reserves tr) eqn:Hres; cbn [andb].
  - split; [|exact (dispatch_clocks _ _ _ _ _ Hres Hd)].
    destruct (action_of_callback_event cb) as (event & action & Hcb & Ha).
    rewrite Hcb, LogMethodTraceEvent_reserved in Hd by exact Hres.
    now pose proof (LogMethodTraceEvent_record_frame _ _ _ _ _ _ _ _ Hd)
      as (_ & _ & _ & _ & _ & _ & _ & _ & ?).
  - rewrite dispatch_dropped in Hd by exact Hres. injection Hd as _ <-.
    rewrite set_clocks_same. repeat split; lia.
Qed.

Lemma run_runtime cbs tr rt tr' rt' :
  trace_ok tr -> run cbs tr rt = Some (tr', rt') ->
  rt' = set_clocks (rt_clocks rt') rt /\
  wall_clock (rt_clocks rt') = wall_clock (rt_clocks rt) /\
  thread_cpu_clock (rt_clocks rt') = thread_cpu_clock (rt_clocks rt) /\
  thread_cpu_reads (rt_clocks rt')
  = (thread_cpu_reads (rt_clocks rt)
     + if UseThreadCpuClock tr then reserved_count cbs tr rt else 0)%nat /\
  wall_reads (rt_clocks rt')
  = (wall_reads (rt_clocks rt)
     + if UseWallClock tr then reserved_count cbs tr rt else 0)%nat.
Proof.
  revert tr rt. induction cbs as [|cb cbs IH]; intros tr rt Hok H; simpl in H.
  - inversion H; subst. rewrite set_clocks_same. simpl.
    destruct (UseThreadCpuClock tr'), (UseWallClock tr'); repeat split; lia.
  - destruct (dispatch cb tr rt) as [[tr1 rt1]|] eqn:Hd; [|discriminate].
    cbn [reserved_count]. rewrite Hd.
    destruct (dispatch_ok _ _ _ _ _ Hok Hd) as (Hok1 & _ & _).
    destruct (IH _ _ Hok1 H) as (Hrt & Hw & Hc & Hcr & Hwr).
    destruct (dispatch_runtime _ _ _ _ _ Hd) as (Hrt1 & Hw1 & Hc1 & Hcr1 & Hwr1).
    pose proof (dispatch_cursor _ _ _ _ _ Hd) as (_ & _ & Hcs & _).
    assert (Hcpu : UseThreadCpuClock tr1 = UseThreadCpuClock tr)
      by (unfold UseThreadCpuClock; now rewrite Hcs).
    assert (Hwall : UseWallClock tr1 = UseWallClock tr)
      by (unfold UseWallClock; now rewrite Hcs).
    rewrite Hcpu in Hcr. rewrite Hwall in Hwr.
    split; [rewrite Hrt, Hrt1; reflexivity|].
    split; [congruence|]. split; [congruence|].
    rewrite Hcr, Hwr, Hcr1, Hwr1.
    destruct (reserves tr), (UseThreadCpuClock tr), (UseWallClock tr);
      cbn [andb]; split; lia.
Qed.

Lemma run_wall_only cbs tr rt tr' rt' :
  UseThreadCpuClock tr = false -> run cbs tr rt = Some (tr', rt') ->
  thread_clock_base_map_ tr' = thread_clock_base_map_ tr.
Proof.
  revert tr rt. induction cbs as [|cb cbs IH]; intros tr rt Hcpu H; simpl in H.
  - now inversion H.
  - destruct (dispatch cb tr rt) as [[tr1 rt1]|] eqn:Hd; [|discriminate].
    pose proof (dispatch_cursor _ _ _ _ _ Hd) as (_ & _ & Hcs & _).
    assert (Hcpu1 : UseThreadCpuClock tr1 = false)
      by (unfold UseThreadCpuClock in *; now rewrite Hcs).
    rewrite (IH _ _ Hcpu1 H).
    destruct (reserves tr) eqn:Hres.
    + destruct (action_of_callback_event cb) as (event & action & Hcb & Ha).
      rewrite Hcb, LogMethodTraceEvent_reserved in Hd by exact Hres.
      exact (LogMethodTraceEvent_record_wall_only _ _ _ _
               (set_cur_offset_ _ tr) _ _ _ Hcpu Hd).
    + rewrite dispatch_dropped in Hd by exact Hres. now injection Hd as <- _.
Qed.

(** What the constructor and the calls read and change outside the trace
    object: [MicroTime()] once for the start time and then once for every
    record written, unless the clock source is the thread-CPU clock alone;
    [ThreadCpuMicroTime()] once for every record written, unless the clock
    source is the wall clock alone; nothing else of the runtime. A call
    that is dropped reads no clock, and with the wall clock alone the map
    of clock bases stays empty. *)
Theorem clock_reads cs file bs flags rt (cbs : list Callback) :
  kTraceHeaderLength <= bs -> bs + GetRecordSize cs <= INT32_MAX ->
  let '(tr0, rt0) := Trace_new cs file bs flags rt in
  let written := reserved_count cbs tr0 rt0 in
  exists tr rt',
    run cbs tr0 rt0 = Some (tr, rt') /\
    rt' = set_clocks (rt_clocks rt') rt /\
    wall_reads (rt_clocks rt')
    = (wall_reads (rt_clocks rt) + 1
       + if decide (cs = kProfilerClockSourceThreadCpu) then 0 else written)%nat /\
    thread_cpu_reads (rt_clocks rt')
    = (thread_cpu_reads (rt_clocks rt)
       + if decide (cs = kProfilerClockSourceWall) then 0 else written)%nat /\
    (cs = kProfilerClockSourceWall -> thread_clock_base_map_ tr = ∅).
Proof.
  intros Hbs Hint.
  pose proof (Trace_new_ok cs file bs flags rt Hbs Hint) as Hok0.
  destruct (Trace_new cs file bs flags rt) as [tr0 rt0] eqn:Hnew.
  cbn [fst] in Hok0. intros written.
  assert (Hfields :
    clock_source_ tr0 = cs /\ thread_clock_base_map_ tr0 = ∅ /\
    rt0 = set_clocks (rt_clocks rt0) rt /\
    wall_reads (rt_clocks rt0) = S (wall_reads (rt_clocks rt)) /\
    thread_cpu_reads (rt_clocks rt0) = thread_cpu_reads (rt_clocks rt)).
  { unfold Trace_new in Hnew. simpl in Hnew. injection Hnew as <- <-.
    repeat split. }
  destruct Hfields as (Hcs & Hmap & Hrt0 & Hw0 & Hc0).
  destruct (run_returns cbs tr0 rt0) as (tr & rt' & Hrun).
  exists tr, rt'. split; [exact Hrun|].
  destruct (run_runtime _ _ _ _ _ Hok0 Hrun) as (Hrt & _ & _ & Hcr & Hwr).
  split; [rewrite Hrt, Hrt0; reflexivity|].
  fold written in Hcr, Hwr. rewrite Hcr, Hwr, Hw0, Hc0.
  unfold UseThreadCpuClock, UseWallClock. rewrite Hcs.
  split; [|split].
  - destruct cs; simpl; lia.
  - destruct cs; simpl; lia.
  - intros ->. rewrite <- Hmap. eapply run_wall_only; [|exact Hrun].
    unfold UseThreadCpuClock. now rewrite Hcs.
Qed.


(** ** The sink of a session *)

Section StartOutcomes.

Variable kTraceCountAllocs : Z.
Variable strerror_errno : string.

Let start := Start kTraceCountAllocs strerror_errno.

(** [Start] without a session in place. For DDMS no file is used,
    whatever name and descriptor are given; a descriptor that is not
    negative is wrapped as the file "tracefile" with auto-close off; a
    negative one has the file opened by name. When that yields a sink (or
    DDMS) and the buffer has room for the header, the session is created on
    that sink with that buffer size, the trace object is registered once
    more, the suspension of the world is undone, and nothing is thrown or
    logged. When the file does not open: no session, the message
    [Unable to open trace file '<name>'] is logged with the text of [errno]
    and left as the pending exception, no listener is added, no clock is
    read, and the suspension of the world is undone. Either way the
    default clock source stays. *)
Theorem Start_sink_selection trace_filename trace_fd buffer_size flags
    direct_to_ddms (p : Process) :
  the_trace_ p = None ->
  let p' := start trace_filename trace_fd buffer_size flags direct_to_ddms p in
  let sink := start_sink trace_filename trace_fd direct_to_ddms (runtime p) in
  let message := "Unable to open trace file '" +:+ trace_filename +:+ "'" in
  (kTraceHeaderLength <= buffer_size ->
   direct_to_ddms = true \/ is_Some sink ->
   exists tr,
     the_trace_ p' = Some tr /\ trace_file_ tr = sink /\
     buffer_size_ tr = buffer_size /\
     rt_listeners (runtime p')
     = rt_listeners (runtime p) ++ [(TraceListener, kTraceEvents)] /\
     rt_suspend_all (runtime p') = rt_suspend_all (runtime p) /\
     rt_exception (runtime p') = rt_exception (runtime p) /\
     rt_log (runtime p') = rt_log (runtime p) /\
     default_clock_source_ p' = default_clock_source_ p) /\
  (direct_to_ddms = false -> sink = None ->
   trace_fd < 0 /\
   the_trace_ p' = None /\
   rt_exception (runtime p') = Some message /\
   rt_log (runtime p')
   = rt_log (runtime p) ++ [(ERROR, message +:+ ": " +:+ strerror_errno)] /\
   rt_listeners (runtime p') = rt_listeners (runtime p) /\
   rt_stats_enabled (runtime p') = rt_stats_enabled (runtime p) /\
   rt_suspend_all (runtime p') = rt_suspend_all (runtime p) /\
   rt_clocks (runtime p') = rt_clocks (runtime p) /\
   rt_sink (runtime p') = rt_sink (runtime p) /\
   default_clock_source_ p' = default_clock_source_ p).
Proof.
  intros Hnone p' sink message.
  unfold p', start, Start. rewrite Hnone.
  set (rt := SuspendAll (runtime p)).
  change (if direct_to_ddms then None
          else if trace_fd <? 0 then rt_open_file rt trace_filename
          else Some (DisableAutoClose (mkFile trace_fd "tracefile" true)))
    with sink.
  split.
  - intros _ Hopen.
    assert (Hfile : negb direct_to_ddms && bool_decide (sink = None) = false).
    { destruct direct_to_ddms; [reflexivity|]. simpl.
      destruct Hopen as [Hc|[f Hf]]; [discriminate|].
      rewrite Hf. now apply bool_decide_eq_false. }
    rewrite Hfile. cbv zeta.
    unfold Trace_new. cbn [MicroTime fst snd]. cbv beta iota zeta.
    eexists. split; [reflexivity|].
    cbn [the_trace_ runtime trace_file_ buffer_size_ default_clock_source_].
    split; [reflexivity|]. split; [reflexivity|].
    destruct (negb (Z.b2z (negb (flags =? 0) && negb (kTraceCountAllocs =? 0)) =? 0));
      (split; [reflexivity|]); (split; [simpl; lia|]); repeat split.
  - intros Hd Hsink. rewrite Hd, Hsink. cbn [negb andb].
    rewrite bool_decide_eq_true_2 by reflexivity. cbv zeta.
    cbn [the_trace_ runtime default_clock_source_].
    split.
    { unfold sink, start_sink in Hsink. rewrite Hd in Hsink.
      destruct (Z.ltb_spec trace_fd 0); [assumption|discriminate]. }
    split; [reflexivity|]. split; [reflexivity|]. split; [reflexivity|].
    split; [reflexivity|]. split; [reflexivity|].
    split; [simpl; lia|]. repeat split.
Qed.

End StartOutcomes.


(** ** Stop and the end of a session *)

Lemma no_trace_listener_filter (ls : list (Listener * Z)) :
  filter (fun r : Listener * Z => r.1 = TraceListener) ls = [] ->
  filter (fun r : Listener * Z =>
            ¬ (r.1 = TraceListener /\ Z.land r.2 kTraceEvents ≠ 0))
    (ls ++ [(TraceListener, kTraceEvents)])
  = ls.
Proof.
  intros Hnone. rewrite filter_app.
  rewrite (filter_cons_False _ (TraceListener, kTraceEvents))
    by (intros H; apply H; split; [reflexivity|discriminate]).
  rewrite filter_nil, app_nil_r.
  induction ls as [|r ls IH]; [reflexivity|].
  destruct (decide (r.1 = TraceListener)) as [Hr|Hr].
  - rewrite filter_cons_True in Hnone by exact Hr. discriminate.
  - rewrite filter_cons_False in Hnone by exact Hr.
    rewrite filter_cons_True by tauto. f_equal. apply IH, Hnone.
Qed.

Section StopProperties.

Variable kTraceCountAllocs : Z.
Variable PrettyDescriptor : string -> string.
Variable GetDeclaringClassDescriptor : Z -> string.
Variable GetName : Z -> string.
Variable GetSignature : Z -> string.
Variable GetDeclaringClassSourceFile : Z -> string.
Variable strerror_errno : string.

Let header_of :=
  TraceHeader kTraceCountAllocs PrettyDescriptor GetDeclaringClassDescriptor
    GetName GetSignature GetDeclaringClassSourceFile.

Let finish :=
  FinishTracing kTraceCountAllocs PrettyDescriptor GetDeclaringClassDescriptor
    GetName GetSignature GetDeclaringClassSourceFile strerror_errno.

Let start := Start kTraceCountAllocs strerror_errno.

Let stop :=
  Stop kTraceCountAllocs PrettyDescriptor GetDeclaringClassDescriptor
    GetName GetSignature GetDeclaringClassSourceFile strerror_errno.

Let shutdown :=
  Shutdown kTraceCountAllocs PrettyDescriptor GetDeclaringClassDescriptor
    GetName GetSignature GetDeclaringClassSourceFile strerror_errno.

(** [FinishTracing] with a trace file. The header text is written first
    and the write of the data is tried only when that write went through,
    so the writes that went through are none, the text alone, or the text
    and then the data. Unless both went through,
    [Trace data write failed: <errno text>] is logged and left as the
    pending exception; when both did, nothing is logged or thrown. *)
Theorem trace_file_write_failure (tr : Trace) (rt : Runtime) (f : File) :
  trace_file_ tr = Some f ->
  exists elapsed clock_overhead rt',
    let final_offset := uint32_t (cur_offset_ tr) in
    let header :=
      String.concat "" (header_of tr elapsed final_offset clock_overhead rt') in
    let data := take (Z.to_nat final_offset) (buf_ tr) in
    let detail := "Trace data write failed: " +:+ strerror_errno in
    let wrote_header := rt_write_fully rt (FileText f header) in
    let wrote_data := rt_write_fully rt (FileBytes f data) in
    rt_sink (finish tr rt)
    = rt_sink rt
      ++ (if wrote_header
          then FileText f header :: (if wrote_data then [FileBytes f data] else [])
          else []) /\
    rt_exception (finish tr rt)
    = (if wrote_header && wrote_data then rt_exception rt else Some detail) /\
    rt_log (finish tr rt)
    = rt_log rt
      ++ (if wrote_header && wrote_data then []
          else [(ERROR, detail +:+ ": " +:+ strerror_errno)]).
Proof.
  intros Hfile. unfold finish, FinishTracing.
  destruct (MicroTime (rt_clocks rt)) as [now c].
  destruct (GetClockOverhead tr c) as [clock_overhead c'].
  exists (uint64_t (now - start_time_ tr)), clock_overhead.
  set (rt1 := set_clocks c' rt).
  set (rt2 := if negb (Z.land (flags_ tr) kTraceCountAllocs =? 0)
              then SetStatsEnabled false rt1 else rt1).
  exists rt2. cbv zeta. fold header_of.
  assert (Hsame : rt_sink rt2 = rt_sink rt /\ rt_write_fully rt2 = rt_write_fully rt /\
                  rt_exception rt2 = rt_exception rt /\ rt_log rt2 = rt_log rt)
    by (unfold rt2, rt1; destruct (negb _); repeat split).
  destruct Hsame as (Hsink & Hwrite & Hexc & Hlog).
  rewrite Hfile. unfold WriteFully. rewrite Hwrite.
  destruct (rt_write_fully rt (FileText f _)).
  - cbn [send rt_write_fully]. rewrite Hwrite.
    destruct (rt_write_fully rt (FileBytes f _)); cbn [andb].
    + cbn [send rt_sink rt_exception rt_log].
      rewrite Hsink, Hexc, Hlog, <- app_assoc, app_nil_r. repeat split.
    + cbn [send PLOG LOG ThrowRuntimeException rt_sink rt_exception rt_log].
      rewrite Hsink, Hlog. repeat split.
  - cbn [andb PLOG LOG ThrowRuntimeException rt_sink rt_exception rt_log].
    rewrite Hsink, Hlog, app_nil_r. repeat split.
Qed.

Lemma FinishTracing_stats tr rt :
  rt_stats_enabled (finish tr rt)
  = (if Z.land (flags_ tr) kTraceCountAllocs =? 0 then rt_stats_enabled rt else false).
Proof.
  unfold finish, FinishTracing.
  destruct (MicroTime (rt_clocks rt)) as [now c].
  destruct (GetClockOverhead tr c) as [clock_overhead c'].
  destruct (Z.land (flags_ tr) kTraceCountAllocs =? 0); cbn [negb];
    (destruct (trace_file_ tr) as [f|]; [|reflexivity]);
    unfold WriteFully;
    match goal with
    | |- context [rt_write_fully ?r ?w] => destruct (rt_write_fully r w)
    end; try reflexivity;
    match goal with
    | |- context [rt_write_fully ?r ?w] => destruct (rt_write_fully r w)
    end; reflexivity.
Qed.

(** Without a session [Stop] logs
    [Trace stop requested, but no trace currently running] and changes
    nothing else (the world it suspended is resumed), while [Shutdown] does
    nothing at all, in either order with [Stop]. *)
Theorem stop_without_session (p : Process) :
  the_trace_ p = None ->
  stop p
  = mkProcess
      (LOG ERROR "Trace stop requested, but no trace currently running" (runtime p))
      None (default_clock_source_ p) /\
  shutdown p = p /\
  stop (shutdown p) = stop p /\
  shutdown (stop p) = stop p.
Proof.
  intros Hnone.
  assert (Hstop : stop p
    = mkProcess
        (LOG ERROR "Trace stop requested, but no trace currently running" (runtime p))
        None (default_clock_source_ p)).
  { unfold stop, Stop. rewrite Hnone. f_equal.
    unfold ResumeAll, LOG, SuspendAll. cbn.
    f_equal. lia. }
  assert (Hshut : shutdown p = p).
  { unfold shutdown, Shutdown, IsMethodTracingActive. rewrite Hnone.
    rewrite bool_decide_eq_false_2 by (intros H; now apply H). reflexivity. }
  split; [exact Hstop|]. split; [exact Hshut|].
  split; [now rewrite Hshut|].
  rewrite Hstop. unfold shutdown, Shutdown, IsMethodTracingActive. cbn [the_trace_].
  rewrite bool_decide_eq_false_2 by (intros H; now apply H). reflexivity.
Qed.

(** Allocation statistics over a session whose buffer has room for the
    header. [Start] switches them on when
    [flags] and [kTraceCountAllocs] are both non-zero; [FinishTracing],
    called by [Stop], switches them off when [flags & kTraceCountAllocs] is
    not zero. So after [Start] and [Stop] they are off when the bit is set,
    and otherwise as [Start] left them: on, for non-zero [flags] that do
    not have the bit. *)
Theorem count_allocs_after_stop trace_filename trace_fd buffer_size flags
    direct_to_ddms (p : Process) :
  the_trace_ p = None ->
  kTraceHeaderLength <= buffer_size ->
  direct_to_ddms = true \/ 0 <= trace_fd \/
    is_Some (rt_open_file (runtime p) trace_filename) ->
  let p1 := start trace_filename trace_fd buffer_size flags direct_to_ddms p in
  let p2 := stop p1 in
  rt_stats_enabled (runtime p1)
  = rt_stats_enabled (runtime p) || (negb (flags =? 0) && negb (kTraceCountAllocs =? 0)) /\
  rt_stats_enabled (runtime p2)
  = (if Z.land flags kTraceCountAllocs =? 0
     then rt_stats_enabled (runtime p1)
     else false) /\
  the_trace_ p2 = None.
Proof.
  intros Hnone _ Hopen p1 p2.
  destruct (Start_creates kTraceCountAllocs strerror_errno trace_filename
              trace_fd buffer_size flags direct_to_ddms p Hnone Hopen)
    as (tr & Htr & _ & Hflags & _ & _ & _ & Hstats & _).
  fold start p1 in Htr, Hstats.
  split.
  { rewrite Hstats.
    destruct (negb (flags =? 0) && negb (kTraceCountAllocs =? 0));
      [now rewrite orb_true_r|now rewrite orb_false_r]. }
  unfold p2, stop, Stop. rewrite Htr. cbn [runtime the_trace_].
  split; [|reflexivity].
  change (rt_stats_enabled (ResumeAll ?r)) with (rt_stats_enabled r).
  unfold RemoveListener.
  change (rt_stats_enabled (set_listeners ?l ?r)) with (rt_stats_enabled r).
  fold finish. rewrite FinishTracing_stats, Hflags. reflexivity.
Qed.

Lemma FinishTracing_ddms tr rt :
  trace_file_ tr = None ->
  rt_exception (finish tr rt) = rt_exception rt /\
  rt_log (finish tr rt) = rt_log rt.
Proof.
  intros Hfile. unfold finish, FinishTracing.
  destruct (MicroTime (rt_clocks rt)) as [now c].
  destruct (GetClockOverhead tr c) as [clock_overhead c'].
  rewrite Hfile.
  destruct (negb (Z.land (flags_ tr) kTraceCountAllocs =? 0)); split; reflexivity.
Qed.

(** [Start] for DDMS followed by [Stop], from a process without a session
    and without a registration of the trace object: the session slot is
    empty again, the listeners, the suspension count, the log and the
    pending exception are as before, and exactly one [MPSE] chunk has been
    sent whose data are the 32 bytes of the header for the start time read
    by [Start]. *)
Theorem start_stop_empty_trace buffer_size flags trace_filename trace_fd
    (p : Process) :
  the_trace_ p = None -> trace_listeners (runtime p) = [] ->
  kTraceHeaderLength <= buffer_size ->
  let p2 := stop (start trace_filename trace_fd buffer_size flags true p) in
  let cs := default_clock_source_ p in
  let start_time := (MicroTime (rt_clocks (runtime p))).1 in
  the_trace_ p2 = None /\
  default_clock_source_ p2 = cs /\
  rt_listeners (runtime p2) = rt_listeners (runtime p) /\
  rt_suspend_all (runtime p2) = rt_suspend_all (runtime p) /\
  rt_exception (runtime p2) = rt_exception (runtime p) /\
  rt_log (runtime p2) = rt_log (runtime p) /\
  exists header,
    rt_sink (runtime p2)
    = rt_sink (runtime p) ++ [DdmChunk "MPSE" header (spec_header cs start_time)].
Proof.
  intros Hnone Hls Hbs p2 cs start_time.
  unfold p2, stop, Stop, start, Start. rewrite Hnone. cbn [negb andb].
  cbv zeta.
  pose proof (Trace_new_buf cs None buffer_size flags (SuspendAll (runtime p)) Hbs)
    as Hbuf.
  destruct (Trace_new (default_clock_source_ p) None buffer_size flags
              (SuspendAll (runtime p))) as [tr rt1] eqn:Hnew.
  fold cs in Hnew. rewrite Hnew in Hbuf. cbn [fst] in Hbuf.
  assert (Hfields : trace_file_ tr = None /\ cur_offset_ tr = 32 /\
            start_time_ tr = start_time /\
            rt_listeners rt1 = rt_listeners (runtime p) /\
            rt_suspend_all rt1 = rt_suspend_all (runtime p) + 1 /\
            rt_exception rt1 = rt_exception (runtime p) /\
            rt_log rt1 = rt_log (runtime p) /\
            rt_sink rt1 = rt_sink (runtime p)).
  { unfold Trace_new in Hnew. simpl in Hnew. injection Hnew as <- <-.
    repeat split. }
  destruct Hfields as (Hfile & Hcur & Hstart & Hls1 & Hsus1 & Hexc1 & Hlog1 & Hsink1).
  cbn [the_trace_ runtime default_clock_source_].
  set (rt2 := if negb (Z.b2z (negb (flags =? 0) && negb (kTraceCountAllocs =? 0)) =? 0)
              then SetStatsEnabled true rt1 else rt1).
  assert (Hsame : rt_listeners rt2 = rt_listeners rt1 /\
                  rt_suspend_all rt2 = rt_suspend_all rt1 /\
                  rt_exception rt2 = rt_exception rt1 /\
                  rt_log rt2 = rt_log rt1 /\ rt_sink rt2 = rt_sink rt1)
    by (unfold rt2; destruct (negb _); repeat split).
  destruct Hsame as (Hls2 & Hsus2 & Hexc2 & Hlog2 & Hsink2).
  set (rt3 := SuspendAll (ResumeAll (AddListener TraceListener kTraceEvents rt2))).
  fold finish.
  pose proof (FinishTracing_sink kTraceCountAllocs PrettyDescriptor
                GetDeclaringClassDescriptor GetName GetSignature
                GetDeclaringClassSourceFile strerror_errno tr rt3)
    as (elapsed & overhead & rt' & Hsink).
  cbv zeta in Hsink. rewrite Hfile in Hsink. fold finish in Hsink.
  destruct (FinishTracing_frame kTraceCountAllocs PrettyDescriptor
              GetDeclaringClassDescriptor GetName GetSignature
              GetDeclaringClassSourceFile strerror_errno tr rt3) as [Hls4 Hsus4].
  destruct (FinishTracing_ddms tr rt3 Hfile) as [Hexc4 Hlog4].
  fold finish in Hls4, Hsus4.
  split; [reflexivity|]. split; [reflexivity|].
  split.
  { unfold ResumeAll, RemoveListener, set_listeners. cbn [rt_listeners].
    rewrite Hls4. unfold rt3. cbn [SuspendAll ResumeAll AddListener set_listeners
      rt_listeners].
    rewrite Hls2, Hls1. apply no_trace_listener_filter. exact Hls. }
  split.
  { unfold ResumeAll, RemoveListener, set_listeners. cbn [rt_suspend_all].
    rewrite Hsus4. unfold rt3. cbn [SuspendAll ResumeAll AddListener set_listeners
      rt_suspend_all].
    rewrite Hsus2, Hsus1. lia. }
  split.
  { unfold ResumeAll, RemoveListener, set_listeners. cbn [rt_exception].
    rewrite Hexc4. unfold rt3. cbn [SuspendAll ResumeAll AddListener set_listeners
      rt_exception].
    now rewrite Hexc2, Hexc1. }
  split.
  { unfold ResumeAll, RemoveListener, set_listeners. cbn [rt_log].
    rewrite Hlog4. unfold rt3. cbn [SuspendAll ResumeAll AddListener set_listeners
      rt_log].
    now rewrite Hlog2, Hlog1. }
  eexists.
  unfold ResumeAll, RemoveListener, set_listeners. cbn [rt_sink].
  rewrite Hsink. unfold rt3. cbn [SuspendAll ResumeAll AddListener set_listeners
    rt_sink].
  rewrite Hsink2, Hsink1. f_equal. f_equal. f_equal.
  rewrite Hcur, Hbuf, Hstart.
  change (Z.to_nat (uint32_t 32)) with 32%nat.
  rewrite take_app_length' by (symmetry; apply spec_header_length). reflexivity.
Qed.

End StopProperties.


(** ** Sessions and the clock source *)

Lemma Start_default_clock_source kTraceCountAllocs strerror_errno trace_filename trace_fd buffer_size flags
    direct_to_ddms p :
  default_clock_source_
    (Start kTraceCountAllocs strerror_errno trace_filename trace_fd buffer_size
       flags direct_to_ddms p)
  = default_clock_source_ p.
Proof.
  unfold Start. destruct (the_trace_ p); [reflexivity|]. cbv zeta.
  match goal with
  | |- default_clock_source_ (if ?c then _ else _) = _ => destruct c; [reflexivity|]
  end.
  match goal with
  | |- context [Trace_new ?a ?b ?c ?d ?e] => destruct (Trace_new a b c d e)
  end.
  reflexivity.
Qed.

Lemma Start_clock_source kTraceCountAllocs strerror_errno trace_filename trace_fd
    buffer_size flags direct_to_ddms p tr :
  the_trace_ (Start kTraceCountAllocs strerror_errno trace_filename trace_fd
                buffer_size flags direct_to_ddms p)
  = Some tr ->
  the_trace_ p = Some tr \/ clock_source_ tr = default_clock_source_ p.
Proof.
  unfold Start. destruct (the_trace_ p) as [tr0|]; [left; assumption|].
  cbv zeta.
  match goal with
  | |- the_trace_ (if ?c then _ else _) = _ -> _ => destruct c; [discriminate|]
  end.
  unfold Trace_new. cbn [MicroTime]. cbv beta iota zeta. cbn [the_trace_].
  intros H. injection H as <-. right. reflexivity.
Qed.

(** [SetDefaultClockSource] never touches the session in place. With
    POSIX clocks it sets the default clock source; without them the default
    stays and a request for another source than the wall clock is answered
    by a warning in the log. The next session that [Start] creates takes
    the default: its clock source, the version in its header and its record
    size are those of the default. *)
Theorem clock_source_of_next_session (kTraceCountAllocs : Z)
    (HAVE_POSIX_CLOCKS : bool) (strerror_errno : string)
    (cs : ProfilerClockSource) trace_filename trace_fd buffer_size flags
    direct_to_ddms (p : Process) :
  kTraceHeaderLength <= buffer_size ->
  let start := Start kTraceCountAllocs strerror_errno in
  let p1 := SetDefaultClockSource HAVE_POSIX_CLOCKS cs p in
  let chosen := if HAVE_POSIX_CLOCKS then cs else default_clock_source_ p in
  the_trace_ p1 = the_trace_ p /\
  default_clock_source_ p1 = chosen /\
  rt_log (runtime p1)
  = rt_log (runtime p)
    ++ (if HAVE_POSIX_CLOCKS then []
        else if decide (cs = kProfilerClockSourceWall) then []
        else [(WARNING, "Ignoring tracing request to use ")]) /\
  (the_trace_ p = None ->
   direct_to_ddms = true \/ 0 <= trace_fd \/
     is_Some (rt_open_file (runtime p) trace_filename) ->
   exists tr,
     the_trace_ (start trace_filename trace_fd buffer_size flags direct_to_ddms p1)
     = Some tr /\
     clock_source_ tr = chosen /\
     le_value (bytes_at (buf_ tr) 4 2) = GetTraceVersion chosen /\
     GetRecordSize (clock_source_ tr)
     = (if decide (chosen = kProfilerClockSourceDual) then 14 else 10)).
Proof.
  intros Hbs start p1 chosen.
  assert (Hp1 : the_trace_ p1 = the_trace_ p /\ default_clock_source_ p1 = chosen /\
                rt_open_file (runtime p1) = rt_open_file (runtime p) /\
                rt_log (runtime p1)
                = rt_log (runtime p)
                  ++ (if HAVE_POSIX_CLOCKS then []
                      else if decide (cs = kProfilerClockSourceWall) then []
                      else [(WARNING, "Ignoring tracing request to use ")])).
  { unfold p1, chosen, SetDefaultClockSource.
    destruct HAVE_POSIX_CLOCKS.
    - cbn. rewrite app_nil_r. repeat split.
    - destruct (decide (cs ≠ kProfilerClockSourceWall)) as [Hne|Heq].
      + rewrite decide_False by exact Hne. repeat split.
      + rewrite decide_True by (destruct (decide (cs = kProfilerClockSourceWall));
                                 [assumption|contradiction]).
        rewrite app_nil_r. repeat split. }
  destruct Hp1 as (Htr1 & Hdef1 & Hopen1 & Hlog1).
  split; [exact Htr1|]. split; [exact Hdef1|]. split; [exact Hlog1|].
  intros Hnone Hopen.
  rewrite <- Htr1 in Hnone. rewrite <- Hopen1 in Hopen.
  destruct (Start_creates kTraceCountAllocs strerror_errno trace_filename
              trace_fd buffer_size flags direct_to_ddms p1 Hnone Hopen)
    as (tr & Htr & _ & _ & Hcs & _).
  exists tr. split; [exact Htr|]. rewrite Hdef1 in Hcs.
  split; [exact Hcs|]. split.
  - unfold Start in Htr. rewrite Hnone in Htr. cbv zeta in Htr.
    match type of Htr with
    | the_trace_ (if ?c then _ else _) = _ => destruct c; [discriminate|]
    end.
    rewrite Hdef1 in Htr.
    match type of Htr with
    | context [Trace_new ?a ?b ?c ?d ?e] =>
      pose proof (Trace_new_buf a b c d e Hbs) as Hbuf;
      destruct (Trace_new a b c d e) as [tr1 rt1]
    end.
    cbn [the_trace_ fst] in Htr, Hbuf. injection Htr as <-.
    rewrite Hbuf, bytes_at_app_l by (rewrite ?spec_header_length; lia).
    destruct chosen; reflexivity.
  - rewrite Hcs. reflexivity.
Qed.

Section WallClockOnly.

Variable kTraceCountAllocs : Z.
Variable HAVE_POSIX_CLOCKS : bool.
Variable PrettyDescriptor : string -> string.
Variable GetDeclaringClassDescriptor : Z -> string.
Variable GetName : Z -> string.
Variable GetSignature : Z -> string.
Variable GetDeclaringClassSourceFile : Z -> string.
Variable strerror_errno : string.

Let calls_of :=
  lifecycle kTraceCountAllocs HAVE_POSIX_CLOCKS PrettyDescriptor
    GetDeclaringClassDescriptor GetName GetSignature
    GetDeclaringClassSourceFile strerror_errno.

Lemma lifecycle_call_wall c p :
  HAVE_POSIX_CLOCKS = false ->
  default_clock_source_ p = kProfilerClockSourceWall ->
  (forall tr, the_trace_ p = Some tr -> clock_source_ tr = kProfilerClockSourceWall) ->
  let p' := lifecycle_call kTraceCountAllocs HAVE_POSIX_CLOCKS PrettyDescriptor
              GetDeclaringClassDescriptor GetName GetSignature
              GetDeclaringClassSourceFile strerror_errno c p in
  default_clock_source_ p' = kProfilerClockSourceWall /\
  (forall tr, the_trace_ p' = Some tr -> clock_source_ tr = kProfilerClockSourceWall).
Proof.
  intros Hposix Hdef Htr. destruct c; cbn [lifecycle_call].
  - split.
    + rewrite Start_default_clock_source. exact Hdef.
    + intros tr H.
      destruct (Start_clock_source _ _ _ _ _ _ _ _ _ H) as [Hold|Hnew];
        [apply Htr, Hold|now rewrite Hnew].
  - unfold Stop. destruct (the_trace_ p); split; try exact Hdef; discriminate.
  - unfold Shutdown. destruct (IsMethodTracingActive p); [|split; assumption].
    unfold Stop. destruct (the_trace_ p); split; try exact Hdef; discriminate.
  - unfold SetDefaultClockSource. rewrite Hposix.
    destruct (decide (clock_source ≠ kProfilerClockSourceWall)); split; assumption.
Qed.

(** Without POSIX clocks, over any sequence of [Start], [Stop],
    [Shutdown] and [SetDefaultClockSource] calls from the initial state of
    the statics: the default clock source stays the wall clock, and every
    session uses the wall clock alone, with version 2 and records of 10
    bytes. *)
Theorem wall_clock_without_posix_clocks (calls : list LifecycleCall) (p : Process) :
  HAVE_POSIX_CLOCKS = false ->
  default_clock_source_ p = initial_clock_source HAVE_POSIX_CLOCKS ->
  the_trace_ p = None ->
  let p' := calls_of calls p in
  default_clock_source_ p' = kProfilerClockSourceWall /\
  forall tr, the_trace_ p' = Some tr ->
    clock_source_ tr = kProfilerClockSourceWall /\
    UseThreadCpuClock tr = false /\ UseWallClock tr = true /\
    GetTraceVersion (clock_source_ tr) = 2 /\
    GetRecordSize (clock_source_ tr) = 10.
Proof.
  intros Hposix Hdef Hnone p'.
  unfold initial_clock_source in Hdef. rewrite Hposix in Hdef.
  assert (Htr : forall tr, the_trace_ p = Some tr ->
                  clock_source_ tr = kProfilerClockSourceWall)
    by (intros tr H; rewrite Hnone in H; discriminate).
  clear Hnone.
  assert (Hinv : default_clock_source_ p' = kProfilerClockSourceWall /\
                 forall tr, the_trace_ p' = Some tr ->
                   clock_source_ tr = kProfilerClockSourceWall).
  { unfold p', calls_of. clear p'. revert p Hdef Htr.
    induction calls as [|c calls IH]; intros p Hdef Htr; simpl.
    - split; assumption.
    - destruct (lifecycle_call_wall c p Hposix Hdef Htr) as [Hdef1 Htr1].
      apply IH; assumption. }
  destruct Hinv as [Hdef' Htr']. split; [exact Hdef'|].
  intros tr H. pose proof (Htr' tr H) as Hcs.
  unfold UseThreadCpuClock, UseWallClock. rewrite Hcs. repeat split.
Qed.

End WallClockOnly.


(** ** The set of visited methods *)

Lemma callback_tmid_packed cb :
  callback_tmid cb
  = uint32_t (EncodeTraceMethodAndAction (callback_method cb) (callback_action cb)).
Proof. destruct cb; reflexivity. Qed.

Lemma EncodeTraceMethodAndAction_range m a :
  0 <= EncodeTraceMethodAndAction m a < 2 ^ 32.
Proof.
  unfold EncodeTraceMethodAndAction.
  pose proof (uint32_t_range m) as Hm.
  assert (Ha : 0 <= TraceAction_value a < 2 ^ 32) by (destruct a; simpl; lia).
  split; [apply Z.lor_nonneg; lia|].
  destruct (Z.eq_dec (Z.lor (uint32_t m) (TraceAction_value a)) 0) as [->|Hne]; [lia|].
  apply Z.log2_lt_pow2; [pose proof (Z.lor_nonneg (uint32_t m) (TraceAction_value a)); lia|].
  rewrite Z.log2_lor by lia.
  apply Z.max_lub_lt.
  - destruct (Z.eq_dec (uint32_t m) 0) as [->|]; [simpl; lia|].
    apply Z.log2_lt_pow2; lia.
  - destruct a; simpl; lia.
Qed.

Lemma callback_tmid_decode cb :
  method_ok (callback_method cb) ->
  DecodeTraceMethodId (callback_tmid cb) = callback_method cb /\
  DecodeTraceAction (callback_tmid cb) = callback_action cb.
Proof.
  intros [Hm Hal]. rewrite callback_tmid_packed.
  rewrite uint32_t_id by apply EncodeTraceMethodAndAction_range.
  split; [now apply DecodeTraceMethodId_Encode|now apply DecodeTraceAction_Encode].
Qed.

(** ** The records of a session *)

Lemma recorded_length cbs tr rt :
  length (recorded cbs tr rt) = reserved_count cbs tr rt.
Proof.
  revert tr rt. induction cbs as [|cb cbs IH]; intros tr rt; simpl; [reflexivity|].
  destruct (dispatch cb tr rt) as [[tr1 rt1]|]; [|reflexivity].
  rewrite length_app, IH. destruct (reserves tr); reflexivity.
Qed.

(** After the calls the buffer holds the records of the first callbacks,
    as many as fit, and the cursor stands behind the last of them. *)
Lemma session_records cs file bs flags rt (cbs : list Callback) tr rt' :
  kTraceHeaderLength <= bs -> bs + GetRecordSize cs <= INT32_MAX ->
  run cbs (Trace_new cs file bs flags rt).1 (Trace_new cs file bs flags rt).2
  = Some (tr, rt') ->
  let tmids := callback_tmid <$> take (Z.to_nat ((bs - 32) / GetRecordSize cs)) cbs in
  clock_source_ tr = cs /\
  records_at (buf_ tr) cs kTraceHeaderLength tmids /\
  uint32_t (cur_offset_ tr)
  = kTraceHeaderLength + GetRecordSize cs * Z.of_nat (length tmids) /\
  (length tmids <= Z.to_nat (uint32_t (cur_offset_ tr)))%nat.
Proof.
  intros Hlo Hhi Hrun tmids.
  pose proof (Trace_new_ok cs file bs flags rt Hlo Hhi) as Hok0.
  destruct (Trace_new cs file bs flags rt) as [tr0 rt0] eqn:Hnew.
  cbn [fst snd] in *.
  assert (Hfields : clock_source_ tr0 = cs /\ cur_offset_ tr0 = 32 /\
                    buffer_size_ tr0 = bs).
  { unfold Trace_new in Hnew. simpl in Hnew. injection Hnew as <- _. repeat split. }
  destruct Hfields as (Hcs0 & Hcur0 & Hbs0).
  pose proof (run_records cbs tr0 rt0 tr rt' [] Hok0) as Hrec.
  rewrite Hcur0, Hcs0 in Hrec. simpl in Hrec.
  specialize (Hrec ltac:(unfold kTraceHeaderLength; lia) I Hrun).
  destruct (run_capacity _ _ _ _ _ Hok0 Hrun) as (Hcount & Hrecd & _).
  assert (Hroom : room tr0 = Z.to_nat ((bs - 32) / GetRecordSize cs))
    by (unfold room; rewrite Hbs0, Hcs0, Hcur0; reflexivity).
  rewrite Hroom in Hrecd. fold tmids in Hrecd. rewrite Hrecd in Hrec.
  destruct (run_ok _ _ _ _ _ Hok0 Hrun) as (Hok & _ & _ & Hcs & _).
  pose proof (run_reserved_count _ _ _ _ _ Hok0 Hrun) as Hcur.
  rewrite <- recorded_length, Hrecd, Hcur0, Hcs0 in Hcur. rewrite Hcs0 in Hcs.
  destruct Hok as [Hlo' Hhi' _ Hint' _ _]. rewrite Hcs in Hint'.
  pose proof (GetRecordSize_cases cs) as Hrs.
  unfold kTraceHeaderLength, INT32_MAX in *.
  rewrite uint32_t_id by lia.
  split; [exact Hcs|]. split; [exact Hrec|]. split; [exact Hcur|]. nia.
Qed.

(** For callbacks on aligned 32-bit method references:
    [GetVisitedMethods], called with the cursor, returns the methods of the
    callbacks that wrote a record (the first ones, as many as fit) and no
    other, in strictly increasing order of address, each once. *)
Theorem visited_methods_set cs file bs flags rt (cbs : list Callback) :
  kTraceHeaderLength <= bs -> bs + GetRecordSize cs <= INT32_MAX ->
  Forall (fun cb => method_ok (callback_method cb)) cbs ->
  let '(tr0, rt0) := Trace_new cs file bs flags rt in
  let capacity := Z.to_nat ((bs - 32) / GetRecordSize cs) in
  exists tr rt',
    run cbs tr0 rt0 = Some (tr, rt') /\
    let visited := GetVisitedMethods tr (uint32_t (cur_offset_ tr)) in
    StronglySorted Z.lt visited /\ NoDup visited /\
    forall m, m ∈ visited <->
      exists cb, cb ∈ take capacity cbs /\ callback_method cb = m.
Proof.
  intros Hlo Hhi Hcbs.
  pose proof (session_records cs file bs flags rt cbs) as Hrec.
  destruct (Trace_new cs file bs flags rt) as [tr0 rt0].
  cbn [fst snd] in Hrec. intros capacity.
  destruct (run_returns cbs tr0 rt0) as (tr & rt' & Hrun).
  exists tr, rt'. split; [exact Hrun|].
  destruct (Hrec tr rt' Hlo Hhi Hrun) as (Hcs & Hrecs & Hcur & Hfuel).
  fold capacity in Hrecs, Hcur, Hfuel.
  unfold GetVisitedMethods. rewrite Hcs, Hcur.
  rewrite GetVisitedMethods_loop_records;
    [|unfold kTraceHeaderLength; lia|rewrite <- Hcur; exact Hfuel|exact Hrecs].
  destruct (visited_fold_spec (callback_tmid <$> take capacity cbs) [])
    as [Hsorted Hmem]; [constructor|].
  cbv zeta in Hsorted, Hmem.
  split; [exact Hsorted|]. split; [apply StronglySorted_lt_NoDup, Hsorted|].
  intros m. rewrite Hmem. split.
  - intros [Hnil|(tmid & Htmid & Hd)]; [now apply elem_of_nil in Hnil|].
    apply list_elem_of_fmap in Htmid. destruct Htmid as (cb & -> & Hcb).
    exists cb. split; [exact Hcb|].
    rewrite <- Hd. symmetry. apply callback_tmid_decode.
    rewrite Forall_forall in Hcbs. apply Hcbs.
    apply elem_of_take in Hcb. destruct Hcb as (i & Hi & _).
    eapply list_elem_of_lookup_2. exact Hi.
  - intros (cb & Hcb & <-). right. exists (callback_tmid cb).
    split; [apply list_elem_of_fmap; eauto|].
    apply callback_tmid_decode.
    rewrite Forall_forall in Hcbs. apply Hcbs.
    apply elem_of_take in Hcb. destruct Hcb as (i & Hi & _).
    eapply list_elem_of_lookup_2. exact Hi.
Qed.


(** ** Dumping the buffer *)

Section Dump.

Variable PrettyMethod : Z -> string.

Lemma DumpBuf_loop_records tmids fuel buf cs p rt :
  0 <= p -> (length tmids <= fuel)%nat ->
  records_at buf cs p tmids ->
  DumpBuf_loop PrettyMethod fuel buf cs p
    (p + GetRecordSize cs * Z.of_nat (length tmids)) rt
  = fold_left
      (fun rt tmid =>
         LOG INFO (PrettyMethod (DecodeTraceMethodId tmid) +:+ " "
                   +:+ decimal (TraceAction_value (DecodeTraceAction tmid))) rt)
      tmids rt.
Proof.
  pose proof (GetRecordSize_cases cs) as Hrs.
  revert fuel p rt.
  induction tmids as [|tmid tmids IH]; intros fuel p rt Hp Hfuel Hrec.
  - simpl. rewrite Z.mul_0_r, Z.add_0_r.
    destruct fuel; simpl; [reflexivity|]. now rewrite Z.ltb_irrefl.
  - destruct fuel as [|fuel]; [simpl in Hfuel; lia|].
    destruct Hrec as (Hbytes & Hv & Hrest).
    cbn [DumpBuf_loop fold_left].
    destruct (Z.ltb_spec p (p + GetRecordSize cs * Z.of_nat (length (tmid :: tmids))))
      as [_|Hge]; [|cbn [length] in Hge; lia].
    rewrite (load_tmid buf p tmid Hp Hv Hbytes).
    replace (p + GetRecordSize cs * Z.of_nat (length (tmid :: tmids)))
      with (p + GetRecordSize cs + GetRecordSize cs * Z.of_nat (length tmids))
      by (cbn [length]; lia).
    apply IH; [lia|simpl in Hfuel; lia|exact Hrest].
Qed.

Lemma LOG_fold (lines : list (LogSeverity * string)) rt :
  fold_left (fun rt line => LOG line.1 line.2 rt) lines rt
  = mkRuntime (rt_clocks rt) (rt_log rt ++ lines) (rt_suspend_all rt)
      (rt_stats_enabled rt) (rt_allocated_objects rt) (rt_allocated_bytes rt)
      (rt_gc_invocations rt) (rt_listeners rt) (rt_thread_list rt)
      (rt_exception rt) (rt_open_file rt) (rt_write_fully rt) (rt_sink rt).
Proof.
  revert rt. induction lines as [|[sev msg] lines IH]; intros rt; simpl.
  - rewrite app_nil_r. now destruct rt.
  - rewrite IH. cbn. now rewrite <- app_assoc.
Qed.

(** For callbacks on aligned 32-bit method references: [DumpBuf] over the
    buffer up to the cursor logs one [INFO] line for every record, in the
    order of the calls that wrote them, with the method of the call and the
    number of its action (0 enter, 1 exit, 2 unroll), and changes nothing
    but the log. *)
Theorem DumpBuf_lists_the_records cs file bs flags rt (cbs : list Callback)
    (rt2 : Runtime) :
  kTraceHeaderLength <= bs -> bs + GetRecordSize cs <= INT32_MAX ->
  Forall (fun cb => method_ok (callback_method cb)) cbs ->
  let '(tr0, rt0) := Trace_new cs file bs flags rt in
  let capacity := Z.to_nat ((bs - 32) / GetRecordSize cs) in
  exists tr rt',
    run cbs tr0 rt0 = Some (tr, rt') /\
    let rt3 :=
      DumpBuf PrettyMethod (buf_ tr) (uint32_t (cur_offset_ tr)) (clock_source_ tr)
        rt2 in
    rt_log rt3
    = rt_log rt2
      ++ ((fun cb => dump_line PrettyMethod (callback_method cb) (callback_action cb))
          <$> take capacity cbs) /\
    rt3 = mkRuntime (rt_clocks rt2) (rt_log rt3) (rt_suspend_all rt2)
            (rt_stats_enabled rt2) (rt_allocated_objects rt2)
            (rt_allocated_bytes rt2) (rt_gc_invocations rt2) (rt_listeners rt2)
            (rt_thread_list rt2) (rt_exception rt2) (rt_open_file rt2)
            (rt_write_fully rt2) (rt_sink rt2).
Proof.
  intros Hlo Hhi Hcbs.
  pose proof (session_records cs file bs flags rt cbs) as Hrec.
  destruct (Trace_new cs file bs flags rt) as [tr0 rt0].
  cbn [fst snd] in Hrec. intros capacity.
  destruct (run_returns cbs tr0 rt0) as (tr & rt' & Hrun).
  exists tr, rt'. split; [exact Hrun|].
  destruct (Hrec tr rt' Hlo Hhi Hrun) as (Hcs & Hrecs & Hcur & Hfuel).
  fold capacity in Hrecs, Hcur, Hfuel.
  unfold DumpBuf. rewrite Hcs, Hcur.
  rewrite DumpBuf_loop_records;
    [|unfold kTraceHeaderLength; lia|rewrite <- Hcur; exact Hfuel|exact Hrecs].
  assert (Hlines :
    fold_left
      (fun rt tmid =>
         LOG INFO (PrettyMethod (DecodeTraceMethodId tmid) +:+ " "
                   +:+ decimal (TraceAction_value (DecodeTraceAction tmid))) rt)
      (callback_tmid <$> take capacity cbs) rt2
    = fold_left (fun rt line => LOG line.1 line.2 rt)
        ((fun cb => dump_line PrettyMethod (callback_method cb) (callback_action cb))
         <$> take capacity cbs) rt2).
  { assert (Hall : Forall (fun cb => method_ok (callback_method cb))
                     (take capacity cbs)) by now apply Forall_take.
    clear -Hall. revert rt2.
    induction Hall as [|cb l Hcb _ IH]; intros rt2; [reflexivity|].
    cbn [fmap list_fmap fold_left].
    destruct (callback_tmid_decode cb Hcb) as [-> ->]. apply IH. }
  rewrite Hlines, LOG_fold. cbn [rt_log]. split; reflexivity.
Qed.

End Dump.


(** ** The text and the binary header *)

Lemma run_header cbs tr rt tr' rt' :
  trace_ok tr -> run cbs tr rt = Some (tr', rt') ->
  bytes_at (buf_ tr') 0 32 = bytes_at (buf_ tr) 0 32.
Proof.
  intros Hok Hrun. apply bytes_at_frame; [lia|].
  intros i Hi. apply (run_lookup_outside cbs tr rt tr' rt' i Hok Hrun).
  left. pose proof (ok_low tr Hok) as Hlo. unfold kTraceHeaderLength in Hlo. lia.
Qed.

Section Preamble.

Variable kTraceCountAllocs : Z.
Variable PrettyDescriptor : string -> string.
Variable GetDeclaringClassDescriptor : Z -> string.
Variable GetName : Z -> string.
Variable GetSignature : Z -> string.
Variable GetDeclaringClassSourceFile : Z -> string.

Let header_of :=
  TraceHeader kTraceCountAllocs PrettyDescriptor GetDeclaringClassDescriptor
    GetName GetSignature GetDeclaringClassSourceFile.

(** The header text of [FinishTracing] and the binary header agree, after
    any calls: the version line prints the version stored at offset 4,
    which is 3 exactly for the dual clock source and 2 otherwise; the
    record size at offset 16 is 14 for the dual clock source and absent (0)
    otherwise; the clock line names the clock source; the text starts with
    [*version] and ends with [*end]. *)
Theorem text_and_binary_header_agree cs file bs flags rt (cbs : list Callback) :
  kTraceHeaderLength <= bs -> bs + GetRecordSize cs <= INT32_MAX ->
  let '(tr0, rt0) := Trace_new cs file bs flags rt in
  exists tr rt',
    run cbs tr0 rt0 = Some (tr, rt') /\
    let version := le_value (bytes_at (buf_ tr) 4 2) in
    let record_size := le_value (bytes_at (buf_ tr) 16 2) in
    (version = 3 <-> cs = kProfilerClockSourceDual) /\
    (version = 2 <-> cs <> kProfilerClockSourceDual) /\
    record_size = (if decide (cs = kProfilerClockSourceDual) then 14 else 0) /\
    forall elapsed final_offset clock_overhead rt2,
      let pieces := header_of tr elapsed final_offset clock_overhead rt2 in
      pieces !! 0%nat = Some ("*version" +:+ newline) /\
      pieces !! 1%nat = Some (decimal version +:+ newline) /\
      pieces !! 3%nat = Some ("clock=" +:+ clock_name cs +:+ newline) /\
      pieces !! 7%nat = Some ("vm=art" +:+ newline) /\
      last pieces = Some ("*end" +:+ newline).
Proof.
  intros Hbs Hint.
  pose proof (Trace_new_ok cs file bs flags rt Hbs Hint) as Hok0.
  pose proof (Trace_new_buf cs file bs flags rt Hbs) as Hbuf0.
  destruct (Trace_new cs file bs flags rt) as [tr0 rt0] eqn:Hnew.
  cbn [fst] in *.
  assert (Hcs0 : clock_source_ tr0 = cs).
  { apply (f_equal fst) in Hnew. cbn [fst] in Hnew. rewrite <- Hnew. reflexivity. }
  destruct (run_returns cbs tr0 rt0) as (tr & rt' & Hrun).
  exists tr, rt'. split; [exact Hrun|].
  destruct (run_ok _ _ _ _ _ Hok0 Hrun) as (Hok & _ & _ & Hcs & _).
  rewrite Hcs0 in Hcs.
  pose proof (run_header _ _ _ _ _ Hok0 Hrun) as Hhdr.
  rewrite Hbuf0 in Hhdr.
  rewrite bytes_at_app_l in Hhdr by (rewrite ?spec_header_length; lia).
  assert (Hfield : forall q (n : nat), 0 <= q -> q + Z.of_nat n <= 32 ->
            bytes_at (buf_ tr) q n
            = bytes_at (spec_header cs (start_time_ tr0)) q n).
  { intros q n Hq Hn.
    assert (Hsplit : forall l, bytes_at (bytes_at l 0 32) q n = bytes_at l q n).
    { intros l. apply bytes_at_frame; [exact Hq|].
      intros i Hi. unfold bytes_at. rewrite drop_0. apply lookup_take_lt. lia. }
    rewrite <- (Hsplit (buf_ tr)), Hhdr, Hsplit. reflexivity. }
  cbv zeta. rewrite !Hfield by lia.
  split; [|split; [|split]].
  - destruct cs; cbn; split; intros H; try reflexivity; try discriminate.
  - destruct cs; cbn; split; intros H; try reflexivity; try discriminate;
      try (exfalso; now apply H).
  - destruct cs; reflexivity.
  - intros elapsed final_offset clock_overhead rt2.
    unfold header_of, TraceHeader, UseThreadCpuClock, UseWallClock.
    rewrite Hcs.
    split; [reflexivity|]. split; [destruct cs; reflexivity|].
    split; [destruct cs; reflexivity|]. split; [reflexivity|].
    rewrite !app_assoc. apply last_snoc.
Qed.

End Preamble.


(** ** The records in order *)

Lemma run_split cbs (k : nat) cb tr rt tr' rt' :
  cbs !! k = Some cb -> run cbs tr rt = Some (tr', rt') ->
  exists trk rtk trk1 rtk1,
    run (take k cbs) tr rt = Some (trk, rtk) /\
    dispatch cb trk rtk = Some (trk1, rtk1) /\
    run (drop (S k) cbs) trk1 rtk1 = Some (tr', rt').
Proof.
  intros Hk Hrun.
  rewrite <- (take_drop_middle cbs k cb Hk), run_app in Hrun.
  destruct (run (take k cbs) tr rt) as [[trk rtk]|]; [|discriminate].
  simpl in Hrun.
  destruct (dispatch cb trk rtk) as [[trk1 rtk1]|] eqn:Hd; [|discriminate].
  eauto 10.
Qed.

Lemma uint32_t_diff a b : uint32_t (uint64_t a - uint64_t b) = uint32_t (a - b).
Proof.
  unfold uint32_t, uint64_t.
  rewrite Zminus_mod, !(Z.mod_mod_divide _ (2 ^ 64) (2 ^ 32)), <- Zminus_mod;
    [reflexivity| |]; exists (2 ^ 32); reflexivity.
Qed.

(** The records in the order of the calls. For every call among the first
    ones, as many as fit, the record at [32 + k * record size] holds, after
    all the calls, the thread id of the [k]-th call in 16 bits and its
    packed method and action; when the wall clock is in use its last four
    bytes hold the [k+1]-th reading of [MicroTime()] after the one that the
    constructor took, minus that one, cut to 32 bits (so the field wraps
    after 2^32 microseconds). *)
Theorem kth_record cs file bs flags rt (cbs : list Callback) (k : nat) cb :
  kTraceHeaderLength <= bs -> bs + GetRecordSize cs <= INT32_MAX ->
  cbs !! k = Some cb ->
  (k < Z.to_nat ((bs - 32) / GetRecordSize cs))%nat ->
  let '(tr0, rt0) := Trace_new cs file bs flags rt in
  exists tr rt',
    run cbs tr0 rt0 = Some (tr, rt') /\
    let p := 32 + GetRecordSize cs * Z.of_nat k in
    let c := rt_clocks rt in
    record_tid (buf_ tr) p = uint16_t (GetTid (callback_thread cb)) /\
    record_tmid (buf_ tr) p = callback_tmid cb /\
    (cs <> kProfilerClockSourceThreadCpu ->
     le_value (bytes_at (buf_ tr) (p + GetRecordSize cs - 4) 4)
     = uint32_t (wall_clock c (wall_reads c + 1 + k)
                 - wall_clock c (wall_reads c))).
Proof.
  intros Hbs Hint Hk Hcap.
  pose proof (Trace_new_ok cs file bs flags rt Hbs Hint) as Hok0.
  destruct (Trace_new cs file bs flags rt) as [tr0 rt0] eqn:Hnew.
  cbn [fst] in Hok0.
  assert (Hfields :
    clock_source_ tr0 = cs /\ cur_offset_ tr0 = 32 /\ buffer_size_ tr0 = bs /\
    start_time_ tr0 = uint64_t (wall_clock (rt_clocks rt) (wall_reads (rt_clocks rt))) /\
    wall_clock (rt_clocks rt0) = wall_clock (rt_clocks rt) /\
    wall_reads (rt_clocks rt0) = S (wall_reads (rt_clocks rt))).
  { unfold Trace_new in Hnew. simpl in Hnew. injection Hnew as <- <-.
    repeat split. }
  destruct Hfields as (Hcs0 & Hcur0 & Hbs0 & Hstart0 & Hwall0 & Hreads0).
  destruct (run_returns cbs tr0 rt0) as (tr & rt' & Hrun).
  exists tr, rt'. split; [exact Hrun|].
  destruct (run_split _ _ _ _ _ _ _ Hk Hrun)
    as (trk & rtk & trk1 & rtk1 & Hpre & Hd & Hpost).
  destruct (run_ok _ _ _ _ _ Hok0 Hpre) as (Hokk & _ & Hbsk & Hcsk & _).
  destruct (run_capacity _ _ _ _ _ Hok0 Hpre) as (Hcount & _ & _).
  assert (Hroom : room tr0 = Z.to_nat ((bs - 32) / GetRecordSize cs))
    by (unfold room; rewrite Hbs0, Hcs0, Hcur0; reflexivity).
  pose proof (lookup_lt_Some _ _ _ Hk) as Hlen.
  rewrite Hroom, length_take in Hcount.
  replace ((k `min` length cbs) `min` Z.to_nat ((bs - 32) / GetRecordSize cs))%nat
    with k in Hcount by lia.
  pose proof (run_reserved_count _ _ _ _ _ Hok0 Hpre) as Hcurk.
  rewrite Hcount, Hcur0, Hcs0 in Hcurk.
  rewrite Hcs0 in Hcsk. rewrite Hbs0 in Hbsk.
  pose proof (GetRecordSize_cases cs) as Hrs.
  assert (Hfit : cur_offset_ trk + GetRecordSize cs <= bs).
  { assert (Z.of_nat k + 1 <= (bs - 32) / GetRecordSize cs) by lia.
    pose proof (Z.mul_div_le (bs - 32) (GetRecordSize cs) ltac:(lia)). nia. }
  assert (Hres : reserves trk = true).
  { apply (reserves_spec trk Hokk). rewrite Hcsk, Hbsk. exact Hfit. }
  destruct (dispatch_ok _ _ _ _ _ Hokk Hd) as (Hokk1 & _ & _).
  pose proof (dispatch_cursor _ _ _ _ _ Hd)
    as (_ & _ & _ & _ & _ & _ & Hcurk1 & _).
  rewrite Hres, Hcsk in Hcurk1.
  unfold INT32_MAX in Hint. unfold kTraceHeaderLength in Hbs.
  rewrite int32_t_id in Hcurk1 by lia.
  destruct (trace_ok_fits trk Hokk Hres) as [Hold Hfitbuf].
  assert (Hkeep : forall q (n : nat), 0 <= q -> q + Z.of_nat n <= cur_offset_ trk1 ->
            bytes_at (buf_ tr) q n = bytes_at (buf_ trk1) q n).
  { intros q n Hq Hn. apply bytes_at_frame; [exact Hq|].
    intros i Hi. apply (run_lookup_outside _ _ _ _ _ i Hokk1 Hpost). lia. }
  destruct (callback_encoding cb) as (event & action & method & Hcb & Ha & Htmid).
  rewrite Hcb, LogMethodTraceEvent_reserved in Hd by exact Hres.
  cbv zeta. rewrite <- Hcurk.
  destruct (LogMethodTraceEvent_record_head _ _ _ _ _ (set_cur_offset_ _ trk)
              _ _ _ Ha Hold Hfitbuf Hd) as [Htid Hpacked].
  unfold record_tid, record_tmid in *.
  split; [rewrite Hkeep by lia; exact Htid|].
  split; [rewrite Hkeep, Htmid by lia; exact Hpacked|].
  intros Hwall.
  assert (Huse : UseWallClock trk = true)
    by (unfold UseWallClock; rewrite Hcsk; destruct cs; try reflexivity; contradiction).
  pose proof (LogMethodTraceEvent_record_wall _ _ _ _ _ (set_cur_offset_ _ trk)
                _ _ _ Ha Huse Hold Hfitbuf Hd) as Hfield.
  cbv zeta in Hfield.
  destruct (run_runtime _ _ _ _ _ Hok0 Hpre) as (_ & Hwk & _ & _ & Hrk).
  assert (Huse0 : UseWallClock tr0 = true)
    by (unfold UseWallClock; rewrite Hcs0; destruct cs; try reflexivity; contradiction).
  rewrite Huse0, Hcount, Hreads0 in Hrk.
  pose proof (run_start_time _ _ _ _ _ Hpre) as Hstartk.
  rewrite Hkeep by lia.
  unfold record_time1, record_time2 in Hfield.
  change (start_time_ (set_cur_offset_
            (int32_t (cur_offset_ trk + GetRecordSize (clock_source_ trk))) trk))
    with (start_time_ trk) in Hfield.
  change (UseThreadCpuClock (set_cur_offset_
            (int32_t (cur_offset_ trk + GetRecordSize (clock_source_ trk))) trk))
    with (UseThreadCpuClock trk) in Hfield.
  unfold MicroTime in Hfield. cbn [fst] in Hfield.
  rewrite Hwk, Hwall0, Hrk, Hstartk, Hstart0 in Hfield.
  replace (S (wall_reads (rt_clocks rt)) + k)%nat
    with (wall_reads (rt_clocks rt) + 1 + k)%nat in Hfield by lia.
  rewrite <- uint32_t_diff, <- Hfield.
  unfold UseThreadCpuClock. rewrite Hcsk.
  destruct cs; [contradiction| |].
  - change (GetRecordSize kProfilerClockSourceWall) with 10.
    replace (cur_offset_ trk + 10 - 4) with (cur_offset_ trk + 6) by lia.
    reflexivity.
  - change (GetRecordSize kProfilerClockSourceDual) with 14.
    replace (cur_offset_ trk + 14 - 4) with (cur_offset_ trk + 10) by lia.
    reflexivity.
Qed.

(** * Instances

    Each property with a premise, at an input that meets it. *)

Lemma encode_decode_roundtrip_witness :
  let m := 0x10002000 in
  let a := kTraceMethodExit in
  0 <= m < 2 ^ 32 /\ Z.land m 3 = 0 /\
  DecodeTraceMethodId (EncodeTraceMethodAndAction m a) = m /\
  DecodeTraceAction (EncodeTraceMethodAndAction m a) = a /\
  EncodeTraceMethodAndAction_DCHECK m a = true.
Proof.
  intros m a.
  assert (H1 : 0 <= m < 2 ^ 32) by (unfold m; lia).
  assert (H2 : Z.land m 3 = 0) by reflexivity.
  exact (conj H1 (conj H2 (encode_decode_roundtrip m a H1 H2))).
Defined.

Lemma cursor_invariant_witness :
  let cs := kProfilerClockSourceWall in
  let bs := 64 in
  let cbs := [OnMethodEntered sample_thread 0x10002000;
              OnMethodExited sample_thread 0x10002000] in
  kTraceHeaderLength <= bs /\ bs + GetRecordSize cs <= INT32_MAX /\
  let '(tr0, rt0) := Trace_new cs None bs 0 sample_runtime in
  GetRecordSize cs = (if decide (cs = kProfilerClockSourceDual) then 14 else 10) /\
  cur_offset_ tr0 = 32 /\
  exists tr rt',
    run cbs tr0 rt0 = Some (tr, rt') /\
    32 <= cur_offset_ tr <= bs /\
    (cur_offset_ tr - 32) mod GetRecordSize cs = 0 /\
    forall pre post, cbs = pre ++ post ->
      exists trp rtp,
        run pre tr0 rt0 = Some (trp, rtp) /\
        32 <= cur_offset_ trp <= cur_offset_ tr.
Proof.
  intros cs bs cbs.
  assert (H1 : kTraceHeaderLength <= bs) by (unfold kTraceHeaderLength, bs; lia).
  assert (H2 : bs + GetRecordSize cs <= INT32_MAX)
    by (change (GetRecordSize cs) with 10; unfold bs, INT32_MAX; lia).
  exact (conj H1 (conj H2
           (cursor_invariant cs None bs 0 sample_runtime cbs H1 H2))).
Defined.

Lemma overflow_drops_event_witness :
  let cs := kProfilerClockSourceWall in
  let bs := 42 in
  let cbs := [OnMethodEntered sample_thread 0x10002000;
              OnMethodExited sample_thread 0x10002000] in
  kTraceHeaderLength <= bs /\ bs + GetRecordSize cs <= INT32_MAX /\
  let '(tr0, rt0) := Trace_new cs None bs 0 sample_runtime in
  exists tr rt1,
    run cbs tr0 rt0 = Some (tr, rt1) /\
    (overflow_ tr = true -> bs < cur_offset_ tr + GetRecordSize cs) /\
    (forall cb, bs < cur_offset_ tr + GetRecordSize cs ->
       dispatch cb tr rt1 = Some (set_overflow_ true tr, rt1) /\
       overflow_ (set_overflow_ true tr) = true /\
       cur_offset_ (set_overflow_ true tr) = cur_offset_ tr /\
       buf_ (set_overflow_ true tr) = buf_ tr) /\
    (forall more tr2 rt2,
       overflow_ tr = true -> run more tr rt1 = Some (tr2, rt2) ->
       overflow_ tr2 = true /\ cur_offset_ tr2 = cur_offset_ tr).
Proof.
  intros cs bs cbs.
  assert (H1 : kTraceHeaderLength <= bs) by (unfold kTraceHeaderLength, bs; lia).
  assert (H2 : bs + GetRecordSize cs <= INT32_MAX)
    by (change (GetRecordSize cs) with 10; unfold bs, INT32_MAX; lia).
  exact (conj H1 (conj H2
           (proj1 overflow_drops_event cs None bs 0 sample_runtime cbs H1 H2))).
Defined.

Lemma header_layout_witness :
  let cs := kProfilerClockSourceDual in
  let bs := 4096 in
  kTraceHeaderLength <= bs /\
  let tr := (Trace_new cs None bs 0 sample_runtime).1 in
  let version := GetTraceVersion cs in
  let hdr := bytes_at (buf_ tr) in
  start_time_ tr = (MicroTime (rt_clocks sample_runtime)).1 /\
  version = (if decide (cs = kProfilerClockSourceDual) then 3 else 2) /\
  hdr 0 32%nat = spec_header cs (start_time_ tr) /\
  hdr 0 4%nat = [0x53; 0x4C; 0x4F; 0x57] /\
  le_value (hdr 0 4%nat) = 0x574F4C53 /\
  le_value (hdr 4 2%nat) = version /\
  le_value (hdr 6 2%nat) = 32 /\
  le_value (hdr 8 8%nat) = start_time_ tr /\
  le_value (hdr 16 2%nat) = (if 3 <=? version then GetRecordSize cs else 0) /\
  hdr 16 2%nat = (if 3 <=? version then le_bytes 2 (GetRecordSize cs) else [0; 0]) /\
  hdr 18 14%nat = replicate 14 0.
Proof.
  intros cs bs.
  assert (H1 : kTraceHeaderLength <= bs) by (unfold kTraceHeaderLength, bs; lia).
  exact (conj H1 (header_layout cs None bs 0 sample_runtime H1)).
Defined.

Lemma preamble_counts_witness :
  let k := 1 in
  let id := fun s : string => s in
  let meta := fun _ : Z => "" in
  let cs := kProfilerClockSourceWall in
  let bs := 42 in
  let cbs := [OnMethodEntered sample_thread 0x10002000;
              OnMethodExited sample_thread 0x10002000] in
  kTraceHeaderLength <= bs /\ bs + GetRecordSize cs <= INT32_MAX /\
  let '(tr0, rt0) := Trace_new cs None bs 0 sample_runtime in
  exists tr rt1,
    run cbs tr0 rt0 = Some (tr, rt1) /\
    let final_offset := uint32_t (cur_offset_ tr) in
    let num := (final_offset - 32) / GetRecordSize cs in
    final_offset = cur_offset_ tr /\
    num = Z.of_nat (reserved_count cbs tr0 rt0) /\
    forall rt2,
      exists elapsed clock_overhead rt',
        let pieces :=
          TraceHeader k id meta meta meta meta tr elapsed final_offset
            clock_overhead rt' in
        let data := take (Z.to_nat final_offset) (buf_ tr) in
        match trace_file_ tr with
        | None =>
          rt_sink (FinishTracing k id meta meta meta meta "" tr rt2)
          = rt_sink rt2 ++ [DdmChunk "MPSE" (String.concat "" pieces) data]
        | Some f =>
          rt_write_fully rt2 (FileText f (String.concat "" pieces)) = true ->
          rt_write_fully rt2 (FileBytes f data) = true ->
          rt_sink (FinishTracing k id meta meta meta meta "" tr rt2)
          = rt_sink rt2
            ++ [FileText f (String.concat "" pieces); FileBytes f data]
        end /\
        pieces !! 5%nat
        = Some ("num-method-calls=" +:+ decimal num +:+ newline) /\
        pieces !! 2%nat
        = Some ("data-file-overflow="
                +:+ (if overflow_ tr then "true" else "false") +:+ newline).
Proof.
  intros k id meta cs bs cbs.
  assert (H1 : kTraceHeaderLength <= bs) by (unfold kTraceHeaderLength, bs; lia).
  assert (H2 : bs + GetRecordSize cs <= INT32_MAX)
    by (change (GetRecordSize cs) with 10; unfold bs, INT32_MAX; lia).
  exact (conj H1 (conj H2
           (preamble_counts k id meta meta meta meta "" cs None bs 0
              sample_runtime cbs H1 H2))).
Defined.

Lemma cpu_clock_base_witness :
  let cs := kProfilerClockSourceDual in
  let bs := 4096 in
  let rt := sample_runtime in
  let pre := [OnMethodEntered sample_thread 0x10002000] in
  let cb := OnMethodExited sample_thread 0x10002000 in
  (kTraceHeaderLength <= bs /\ bs + GetRecordSize cs <= INT32_MAX /\
   cs <> kProfilerClockSourceWall /\
   let '(tr0, rt0) := Trace_new cs None bs 0 rt in
   let t := callback_thread cb in
   exists tr rt1,
     run pre tr0 rt0 = Some (tr, rt1) /\
     (reserves tr = true ->
      exists tr' rt',
        dispatch cb tr rt1 = Some (tr', rt') /\
        let now := (ThreadCpuMicroTime (rt_clocks rt1)).1 in
        let dt_cpu := record_time1 (buf_ tr') (cur_offset_ tr) in
        (reserved_by t pre tr0 rt0 = 0%nat ->
         dt_cpu = 0 /\
         thread_clock_base_map_ tr !! thread_ptr t = None /\
         thread_clock_base_map_ tr' !! thread_ptr t = Some now) /\
        (reserved_by t pre tr0 rt0 <> 0%nat ->
         exists base,
           thread_clock_base_map_ tr !! thread_ptr t = Some base /\
           dt_cpu = uint32_t (now - base) /\
           thread_clock_base_map_ tr' = thread_clock_base_map_ tr) /\
        (forall more tr2 rt2 base,
           thread_clock_base_map_ tr' !! thread_ptr t = Some base ->
           run more tr' rt' = Some (tr2, rt2) ->
           thread_clock_base_map_ tr2 !! thread_ptr t = Some base))) /\
  (kTraceHeaderLength + 2 * GetRecordSize cs <= bs /\
   thread_ptr (callback_thread (OnMethodEntered sample_thread 0x10002000))
   = thread_ptr (callback_thread cb) /\
   thread_cpu_clock (rt_clocks rt) (thread_cpu_reads (rt_clocks rt)) = 1000 /\
   thread_cpu_clock (rt_clocks rt) (S (thread_cpu_reads (rt_clocks rt))) = 1175 /\
   let '(tr0, rt0) := Trace_new cs None bs 0 rt in
   exists tr2 rt2,
     run [OnMethodEntered sample_thread 0x10002000; cb] tr0 rt0 = Some (tr2, rt2) /\
     record_time1 (buf_ tr2) 32 = 0 /\
     record_time1 (buf_ tr2) (32 + GetRecordSize cs) = 175).
Proof.
  intros cs bs rt pre cb.
  assert (H1 : kTraceHeaderLength <= bs) by (unfold kTraceHeaderLength, bs; lia).
  assert (H2 : bs + GetRecordSize cs <= INT32_MAX)
    by (change (GetRecordSize cs) with 14; unfold bs, INT32_MAX; lia).
  assert (H3 : cs <> kProfilerClockSourceWall) by discriminate.
  assert (H4 : kTraceHeaderLength + 2 * GetRecordSize cs <= bs)
    by (change (GetRecordSize cs) with 14; unfold kTraceHeaderLength, bs; lia).
  split.
  - exact (conj H1 (conj H2 (conj H3
             (proj1 cpu_clock_base cs None bs 0 rt pre cb H1 H2 H3)))).
  - exact (conj H4 (conj eq_refl (conj eq_refl (conj eq_refl
             (proj2 cpu_clock_base cs None bs 0 rt
                (OnMethodEntered sample_thread 0x10002000) cb
                H4 H2 H3 eq_refl eq_refl eq_refl))))).
Defined.

Lemma start_while_active_witness :
  let start := Start 1 "" in
  let tr := (Trace_new kProfilerClockSourceDual None 64 0 sample_runtime).1 in
  let p := mkProcess sample_runtime (Some tr) kProfilerClockSourceDual in
  let p0 := mkProcess sample_runtime None kProfilerClockSourceDual in
  (the_trace_ p = Some tr /\
   let p' := start "trace" (-1) 4096 0 false p in
   the_trace_ p' = Some tr /\
   default_clock_source_ p' = default_clock_source_ p /\
   runtime p'
   = LOG ERROR "Trace already in progress, ignoring this request" (runtime p) /\
   rt_log (runtime p')
   = rt_log (runtime p)
     ++ [(ERROR, "Trace already in progress, ignoring this request")] /\
   rt_listeners (runtime p') = rt_listeners (runtime p) /\
   rt_stats_enabled (runtime p') = rt_stats_enabled (runtime p) /\
   rt_suspend_all (runtime p') = rt_suspend_all (runtime p) /\
   rt_clocks (runtime p') = rt_clocks (runtime p) /\
   rt_sink (runtime p') = rt_sink (runtime p) /\
   rt_exception (runtime p') = rt_exception (runtime p)) /\
  (the_trace_ p0 = None /\
   kTraceHeaderLength <= 4096 /\
   (true = true \/ 0 <= -1 \/ is_Some (rt_open_file (runtime p0) "")) /\
   let p1 := start "" (-1) 4096 0 true p0 in
   let p2 := start "" (-1) 4096 0 true p1 in
   length (rt_listeners (runtime p1)) = S (length (rt_listeners (runtime p0))) /\
   length (rt_listeners (runtime p2)) = S (length (rt_listeners (runtime p0))) /\
   rt_listeners (runtime p2)
   = rt_listeners (runtime p0) ++ [(TraceListener, kTraceEvents)] /\
   the_trace_ p2 = the_trace_ p1 /\ the_trace_ p1 <> None).
Proof.
  intros start tr p p0.
  assert (Hsize : kTraceHeaderLength <= 4096) by (unfold kTraceHeaderLength; lia).
  split.
  - exact (conj eq_refl
             (proj1 (start_while_active 1 "") "trace" (-1) 4096 0 false p tr eq_refl)).
  - exact (conj eq_refl (conj Hsize (conj (or_introl eq_refl)
             (proj2 (start_while_active 1 "") "" (-1) 4096 0 true
                "" (-1) 4096 0 true p0 eq_refl Hsize (or_introl eq_refl))))).
Defined.

Lemma dropped_event_frame_witness :
  let cb := OnMethodEntered sample_thread 0x10002000 in
  let tr := (Trace_new kProfilerClockSourceDual None 32 0 sample_runtime).1 in
  let rt := sample_runtime in
  trace_ok tr /\
  buffer_size_ tr < cur_offset_ tr + GetRecordSize (clock_source_ tr) /\
  (exists tr',
    dispatch cb tr rt = Some (tr', rt) /\
    overflow_ tr' = true /\
    cur_offset_ tr' = cur_offset_ tr /\
    buf_ tr' = buf_ tr /\
    thread_clock_base_map_ tr' = thread_clock_base_map_ tr /\
    trace_file_ tr' = trace_file_ tr /\ flags_ tr' = flags_ tr /\
    clock_source_ tr' = clock_source_ tr /\ buffer_size_ tr' = buffer_size_ tr /\
    start_time_ tr' = start_time_ tr /\
    (thread_clock_base_map_ tr !! thread_ptr (callback_thread cb) = None ->
     thread_clock_base_map_ tr' !! thread_ptr (callback_thread cb) = None /\
     forall (later : Callback) u rtu u' rtu',
       trace_ok u -> UseThreadCpuClock u = true ->
       thread_clock_base_map_ u = thread_clock_base_map_ tr' ->
       thread_ptr (callback_thread later) = thread_ptr (callback_thread cb) ->
       reserves u = true ->
       dispatch later u rtu = Some (u', rtu') ->
       record_time1 (buf_ u') (cur_offset_ u) = 0)) /\
  (let u := (Trace_new kProfilerClockSourceDual None 4096 0 sample_runtime).1 in
   exists u' rtu',
     dispatch cb u rt = Some (u', rtu') /\
     record_time1 (buf_ u') (cur_offset_ u) = 0).
Proof.
  intros cb tr rt.
  assert (H1 : trace_ok tr).
  { apply Trace_new_ok.
    - unfold kTraceHeaderLength. lia.
    - change (GetRecordSize kProfilerClockSourceDual) with 14.
      unfold INT32_MAX. lia. }
  assert (H2 : buffer_size_ tr < cur_offset_ tr + GetRecordSize (clock_source_ tr))
    by reflexivity.
  split; [exact H1|]. split; [exact H2|].
  split; [exact (dropped_event_frame cb tr rt H1 H2)|].
  intros u.
  destruct (dropped_event_frame cb tr rt H1 H2)
    as (tr' & _ & _ & _ & _ & Hmap & _ & _ & _ & _ & _ & Hlater).
  destruct (Hlater eq_refl) as [_ Hzero].
  assert (Hu : trace_ok u).
  { apply Trace_new_ok.
    - unfold kTraceHeaderLength. lia.
    - change (GetRecordSize kProfilerClockSourceDual) with 14.
      unfold INT32_MAX. lia. }
  destruct (dispatch_returns cb u rt) as (u' & rtu' & Hd).
  exists u', rtu'. split; [exact Hd|].
  apply (Hzero cb u rt u' rtu' Hu eq_refl); [|reflexivity|reflexivity|exact Hd].
  rewrite Hmap. reflexivity.
Defined.

Lemma interleaved_cursor_witness :
  let cs := kProfilerClockSourceDual in
  let bs := 4096 in
  let cbs := [OnMethodEntered sample_thread 0x10002000;
              OnMethodEntered (mkThread 0x40002000 6) 0x10002040] in
  let schedule := [0; 1; 1; 0; 1; 0; 0; 1]%nat in
  kTraceHeaderLength <= bs /\ bs + GetRecordSize cs <= INT32_MAX /\
  let '(tr0, rt0) := Trace_new cs None bs 0 sample_runtime in
  let cfg0 := mkConfig (call_of <$> cbs) tr0 rt0 in
  let cfg := interleave schedule cfg0 in
  let cur := cur_offset_ (shared_trace cfg) in
  32 <= cur <= bs /\ (cur - 32) mod GetRecordSize cs = 0 /\
  (forall s1 s2, schedule = s1 ++ s2 ->
     cur_offset_ (shared_trace (interleave s1 cfg0)) <= cur) /\
  (forall i j pi pj oi oj,
     i <> j -> calls cfg !! i = Some pi -> calls cfg !! j = Some pj ->
     reserved_offset pi = Some oi -> reserved_offset pj = Some oj ->
     32 <= oi /\ oi + GetRecordSize cs <= cur /\
     (oi + GetRecordSize cs <= oj \/ oj + GetRecordSize cs <= oi)).
Proof.
  intros cs bs cbs schedule.
  assert (H1 : kTraceHeaderLength <= bs) by (unfold kTraceHeaderLength, bs; lia).
  assert (H2 : bs + GetRecordSize cs <= INT32_MAX)
    by (change (GetRecordSize cs) with 14; unfold bs, INT32_MAX; lia).
  exact (conj H1 (conj H2
           (interleaved_cursor cs None bs 0 sample_runtime cbs schedule H1 H2))).
Defined.

Lemma session_iff_listener_witness :
  let id := fun s : string => s in
  let meta := fun _ : Z => "" in
  let cs := [CallStart "" (-1) 4096 0 true; CallStart "" (-1) 64 0 true;
             CallStop; CallShutdown; CallStart "trace" 3 4096 1 false] in
  let p := mkProcess sample_runtime None kProfilerClockSourceDual in
  the_trace_ p = None /\ trace_listeners (runtime p) = [] /\
  Forall call_size_ok cs /\
  let p' := lifecycle 1 true id meta meta meta meta "" cs p in
  (IsMethodTracingActive p' = true <->
   trace_listeners (runtime p') = [(TraceListener, kTraceEvents)]) /\
  (IsMethodTracingActive p' = false <-> trace_listeners (runtime p') = []) /\
  rt_suspend_all (runtime p') = rt_suspend_all (runtime p).
Proof.
  intros id meta cs p.
  assert (Hsizes : Forall call_size_ok cs)
    by (repeat constructor; cbv; discriminate).
  exact (conj eq_refl (conj eq_refl (conj Hsizes
           (session_iff_listener 1 true id meta meta meta meta "" cs p
              eq_refl eq_refl Hsizes)))).
Defined.

Lemma visited_methods_are_the_recorded_witness :
  let cs := kProfilerClockSourceDual in
  let bs := 4096 in
  let cbs := [OnMethodEntered sample_thread 0x10002040;
              OnMethodEntered sample_thread 0x10002000;
              OnMethodExited sample_thread 0x10002000;
              OnMethodUnwind sample_thread 0x10002040] in
  kTraceHeaderLength <= bs /\ bs + GetRecordSize cs <= INT32_MAX /\
  let '(tr0, rt0) := Trace_new cs None bs 0 sample_runtime in
  exists tr rt',
    run cbs tr0 rt0 = Some (tr, rt') /\
    length (recorded cbs tr0 rt0) = reserved_count cbs tr0 rt0 /\
    let visited := GetVisitedMethods tr (uint32_t (cur_offset_ tr)) in
    visited = visited_of (recorded cbs tr0 rt0) /\
    StronglySorted Z.lt visited /\ NoDup visited /\
    forall m, m ∈ visited <->
      exists tmid, tmid ∈ recorded cbs tr0 rt0 /\ DecodeTraceMethodId tmid = m.
Proof.
  intros cs bs cbs.
  assert (H1 : kTraceHeaderLength <= bs) by (unfold kTraceHeaderLength, bs; lia).
  assert (H2 : bs + GetRecordSize cs <= INT32_MAX)
    by (change (GetRecordSize cs) with 14; unfold bs, INT32_MAX; lia).
  exact (conj H1 (conj H2
           (visited_methods_are_the_recorded cs None bs 0 sample_runtime cbs
              H1 H2))).
Defined.

Lemma dcheck_iff_aligned_witness :
  let m := 0x10002001 in
  let a := kTraceMethodEnter in
  0 <= m < 2 ^ 32 /\
  (EncodeTraceMethodAndAction_DCHECK m a = true <-> Z.land m 3 = 0) /\
  DecodeTraceMethodId (EncodeTraceMethodAndAction m a) = m - m mod 4 /\
  DecodeTraceAction (EncodeTraceMethodAndAction m a)
  = TraceAction_of_value (Z.lor (m mod 4) (TraceAction_value a)).
Proof.
  intros m a.
  assert (H1 : 0 <= m < 2 ^ 32) by (unfold m; lia).
  exact (conj H1 (dcheck_iff_aligned m a H1)).
Defined.

Lemma encode_injective_witness :
  let m1 := 0x10002000 in
  let m2 := 0x10002000 in
  let a1 := kTraceUnroll in
  let a2 := kTraceUnroll in
  0 <= m1 < 2 ^ 32 /\ Z.land m1 3 = 0 /\
  0 <= m2 < 2 ^ 32 /\ Z.land m2 3 = 0 /\
  EncodeTraceMethodAndAction m1 a1 = EncodeTraceMethodAndAction m2 a2 /\
  m1 = m2 /\ a1 = a2.
Proof.
  intros m1 m2 a1 a2.
  assert (H1 : 0 <= m1 < 2 ^ 32) by (unfold m1; lia).
  assert (H2 : Z.land m1 3 = 0) by reflexivity.
  assert (H3 : 0 <= m2 < 2 ^ 32) by (unfold m2; lia).
  assert (H4 : Z.land m2 3 = 0) by reflexivity.
  assert (H5 : EncodeTraceMethodAndAction m1 a1 = EncodeTraceMethodAndAction m2 a2)
    by reflexivity.
  exact (conj H1 (conj H2 (conj H3 (conj H4 (conj H5
           (encode_injective m1 m2 a1 a2 H1 H2 H3 H4 H5)))))).
Defined.

Lemma little_endian_roundtrip_witness :
  let buf := replicate 16 0 in
  let p := 4 in
  let val := 0x1122334455667788 in
  0 <= p /\
  bytes_at (Append4LE buf p val) p 4 = [0x88; 0x77; 0x66; 0x55] /\
  bytes_at (Append8LE buf p val) p 8
  = [0x88; 0x77; 0x66; 0x55; 0x44; 0x33; 0x22; 0x11] /\
  le_value (bytes_at (Append2LE buf p val) p 2) = 0x7788.
Proof.
  intros buf p val.
  assert (H1 : 0 <= p) by (unfold p; lia).
  assert (H2 : p + 2 <= Z.of_nat (length buf)) by (unfold p, buf; simpl; lia).
  assert (H4 : p + 4 <= Z.of_nat (length buf)) by (unfold p, buf; simpl; lia).
  assert (H8 : p + 8 <= Z.of_nat (length buf)) by (unfold p, buf; simpl; lia).
  pose proof (little_endian_roundtrip buf p val H1) as (L2 & L4 & L8 & _).
  split; [exact H1|].
  split; [exact (proj1 (L4 H4))|].
  split; [exact (proj1 (L8 H8))|].
  exact (proj2 (L2 H2)).
Defined.

Lemma record_layout_witness :
  let cb := OnMethodExited sample_thread 0x10002000 in
  let tr := (Trace_new kProfilerClockSourceDual None 4096 0 sample_runtime).1 in
  let rt := (Trace_new kProfilerClockSourceDual None 4096 0 sample_runtime).2 in
  trace_ok tr /\ reserves tr = true /\
  exists tr' rt',
    dispatch cb tr rt = Some (tr', rt') /\
    let old := cur_offset_ tr in
    let size := GetRecordSize (clock_source_ tr) in
    cur_offset_ tr' = old + size /\
    overflow_ tr' = overflow_ tr /\
    length (buf_ tr') = length (buf_ tr) /\
    bytes_at (buf_ tr') old (Z.to_nat size)
    = le_bytes 2 (uint16_t (GetTid (callback_thread cb)))
      ++ le_bytes 4 (callback_tmid cb)
      ++ record_times (callback_thread cb) tr rt /\
    (forall q (n : nat), 0 <= q ->
       q + Z.of_nat n <= old \/ old + size <= q ->
       bytes_at (buf_ tr') q n = bytes_at (buf_ tr) q n).
Proof.
  intros cb tr rt.
  assert (H1 : trace_ok tr).
  { apply Trace_new_ok.
    - unfold kTraceHeaderLength. lia.
    - change (GetRecordSize kProfilerClockSourceDual) with 14.
      unfold INT32_MAX. lia. }
  assert (H2 : reserves tr = true) by reflexivity.
  exact (conj H1 (conj H2 (record_layout cb tr rt H1 H2))).
Defined.

Lemma buffer_shape_witness :
  let cs := kProfilerClockSourceDual in
  let bs := 64 in
  let cbs := [OnMethodEntered sample_thread 0x10002000;
              OnMethodExited sample_thread 0x10002000;
              OnMethodUnwind sample_thread 0x10002040] in
  kTraceHeaderLength <= bs /\ bs + GetRecordSize cs <= INT32_MAX /\
  let '(tr0, rt0) := Trace_new cs None bs 0 sample_runtime in
  exists tr rt',
    run cbs tr0 rt0 = Some (tr, rt') /\
    length (buf_ tr) = Z.to_nat bs /\
    start_time_ tr = (MicroTime (rt_clocks sample_runtime)).1 /\
    bytes_at (buf_ tr) 0 32 = spec_header cs (start_time_ tr) /\
    (forall i : nat, cur_offset_ tr <= Z.of_nat i < bs -> buf_ tr !! i = Some 0).
Proof.
  intros cs bs cbs.
  assert (H1 : kTraceHeaderLength <= bs) by (unfold kTraceHeaderLength, bs; lia).
  assert (H2 : bs + GetRecordSize cs <= INT32_MAX)
    by (change (GetRecordSize cs) with 14; unfold bs, INT32_MAX; lia).
  exact (conj H1 (conj H2 (buffer_shape cs None bs 0 sample_runtime cbs H1 H2))).
Defined.

Lemma buffer_capacity_witness :
  let cs := kProfilerClockSourceDual in
  let bs := 64 in
  let cbs := [OnMethodEntered sample_thread 0x10002000;
              OnMethodExited sample_thread 0x10002000;
              OnMethodUnwind sample_thread 0x10002040] in
  kTraceHeaderLength <= bs /\ bs + GetRecordSize cs <= INT32_MAX /\
  let '(tr0, rt0) := Trace_new cs None bs 0 sample_runtime in
  let capacity := Z.to_nat ((bs - 32) / GetRecordSize cs) in
  exists tr rt',
    run cbs tr0 rt0 = Some (tr, rt') /\
    reserved_count cbs tr0 rt0 = (length cbs `min` capacity)%nat /\
    cur_offset_ tr
    = 32 + GetRecordSize cs * Z.of_nat (length cbs `min` capacity)%nat /\
    overflow_ tr = bool_decide (capacity < length cbs)%nat /\
    recorded cbs tr0 rt0 = callback_tmid <$> take capacity cbs.
Proof.
  intros cs bs cbs.
  assert (H1 : kTraceHeaderLength <= bs) by (unfold kTraceHeaderLength, bs; lia).
  assert (H2 : bs + GetRecordSize cs <= INT32_MAX)
    by (change (GetRecordSize cs) with 14; unfold bs, INT32_MAX; lia).
  exact (conj H1 (conj H2 (buffer_capacity cs None bs 0 sample_runtime cbs H1 H2))).
Defined.

Lemma clock_reads_witness :
  let cs := kProfilerClockSourceThreadCpu in
  let bs := 64 in
  let cbs := [OnMethodEntered sample_thread 0x10002000;
              OnMethodExited sample_thread 0x10002000] in
  kTraceHeaderLength <= bs /\ bs + GetRecordSize cs <= INT32_MAX /\
  let '(tr0, rt0) := Trace_new cs None bs 0 sample_runtime in
  let written := reserved_count cbs tr0 rt0 in
  exists tr rt',
    run cbs tr0 rt0 = Some (tr, rt') /\
    rt' = set_clocks (rt_clocks rt') sample_runtime /\
    wall_reads (rt_clocks rt')
    = (wall_reads (rt_clocks sample_runtime) + 1
       + if decide (cs = kProfilerClockSourceThreadCpu) then 0 else written)%nat /\
    thread_cpu_reads (rt_clocks rt')
    = (thread_cpu_reads (rt_clocks sample_runtime)
       + if decide (cs = kProfilerClockSourceWall) then 0 else written)%nat /\
    (cs = kProfilerClockSourceWall -> thread_clock_base_map_ tr = ∅).
Proof.
  intros cs bs cbs.
  assert (H1 : kTraceHeaderLength <= bs) by (unfold kTraceHeaderLength, bs; lia).
  assert (H2 : bs + GetRecordSize cs <= INT32_MAX)
    by (change (GetRecordSize cs) with 10; unfold bs, INT32_MAX; lia).
  exact (conj H1 (conj H2 (clock_reads cs None bs 0 sample_runtime cbs H1 H2))).
Defined.

Lemma Start_sink_selection_witness :
  let strerror_errno := "No such file or directory" in
  let start := Start 1 strerror_errno in
  let p := mkProcess sample_runtime None kProfilerClockSourceDual in
  let missing := start "/nowhere/trace" (-1) 4096 0 false p in
  let opened := start "" 3 4096 0 false p in
  the_trace_ p = None /\
  (the_trace_ missing = None /\
   rt_exception (runtime missing)
   = Some "Unable to open trace file '/nowhere/trace'" /\
   rt_log (runtime missing)
   = [(ERROR,
       "Unable to open trace file '/nowhere/trace': No such file or directory")] /\
   rt_listeners (runtime missing) = [] /\
   rt_suspend_all (runtime missing) = 0) /\
  (kTraceHeaderLength <= 4096 /\
   exists tr,
     the_trace_ opened = Some tr /\
     trace_file_ tr = Some (mkFile 3 "tracefile" false) /\
     buffer_size_ tr = 4096 /\
     rt_listeners (runtime opened) = [(TraceListener, kTraceEvents)] /\
     rt_suspend_all (runtime opened) = 0 /\
     rt_exception (runtime opened) = None /\
     rt_log (runtime opened) = [] /\
     default_clock_source_ opened = kProfilerClockSourceDual).
Proof.
  intros strerror_errno start p missing opened.
  assert (H1 : the_trace_ p = None) by reflexivity.
  assert (Hsize : kTraceHeaderLength <= 4096) by (unfold kTraceHeaderLength; lia).
  split; [exact H1|]. split.
  - destruct (proj2 (Start_sink_selection 1 strerror_errno "/nowhere/trace" (-1)
                       4096 0 false p H1) eq_refl eq_refl)
      as (_ & Hnone & Hexc & Hlog & Hls & _ & Hsus & _).
    exact (conj Hnone (conj Hexc (conj Hlog (conj Hls Hsus)))).
  - split; [exact Hsize|].
    exact (proj1 (Start_sink_selection 1 strerror_errno "" 3 4096 0 false p H1)
             Hsize (or_intror (ex_intro _ _ eq_refl))).
Defined.

(** A runtime whose file system refuses every write. *)
Lemma trace_file_write_failure_witness :
  let k := 1 in
  let id := fun s : string => s in
  let meta := fun _ : Z => "" in
  let strerror_errno := "No space left on device" in
  let header_of := TraceHeader k id meta meta meta meta in
  let finish := FinishTracing k id meta meta meta meta strerror_errno in
  let f := mkFile 3 "tracefile" false in
  let tr := (Trace_new kProfilerClockSourceWall (Some f) 64 0 sample_runtime).1 in
  let rt :=
    mkRuntime (sample_clocks sample_wall sample_cpu) [] 0 false 0 0 0 [] [] None
      (fun _ => None) (fun _ => false) [] in
  trace_file_ tr = Some f /\
  exists elapsed clock_overhead rt',
    let final_offset := uint32_t (cur_offset_ tr) in
    let header :=
      String.concat "" (header_of tr elapsed final_offset clock_overhead rt') in
    let data := take (Z.to_nat final_offset) (buf_ tr) in
    let detail := "Trace data write failed: " +:+ strerror_errno in
    let wrote_header := rt_write_fully rt (FileText f header) in
    let wrote_data := rt_write_fully rt (FileBytes f data) in
    rt_sink (finish tr rt)
    = rt_sink rt
      ++ (if wrote_header
          then FileText f header :: (if wrote_data then [FileBytes f data] else [])
          else []) /\
    rt_exception (finish tr rt)
    = (if wrote_header && wrote_data then rt_exception rt else Some detail) /\
    rt_log (finish tr rt)
    = rt_log rt
      ++ (if wrote_header && wrote_data then []
          else [(ERROR, detail +:+ ": " +:+ strerror_errno)]).
Proof.
  intros k id meta strerror_errno header_of finish f tr rt.
  assert (H1 : trace_file_ tr = Some f) by reflexivity.
  exact (conj H1
           (trace_file_write_failure k id meta meta meta meta strerror_errno
              tr rt f H1)).
Defined.

Lemma stop_without_session_witness :
  let id := fun s : string => s in
  let meta := fun _ : Z => "" in
  let stop := Stop 1 id meta meta meta meta "" in
  let shutdown := Shutdown 1 id meta meta meta meta "" in
  let p := mkProcess sample_runtime None kProfilerClockSourceDual in
  the_trace_ p = None /\
  stop p
  = mkProcess
      (LOG ERROR "Trace stop requested, but no trace currently running" (runtime p))
      None (default_clock_source_ p) /\
  shutdown p = p /\
  stop (shutdown p) = stop p /\
  shutdown (stop p) = stop p.
Proof.
  intros id meta stop shutdown p.
  assert (H1 : the_trace_ p = None) by reflexivity.
  exact (conj H1 (stop_without_session 1 id meta meta meta meta "" p H1)).
Defined.

Lemma count_allocs_after_stop_witness :
  let kTraceCountAllocs := 1 in
  let id := fun s : string => s in
  let meta := fun _ : Z => "" in
  let start := Start kTraceCountAllocs "" in
  let stop := Stop kTraceCountAllocs id meta meta meta meta "" in
  let trace_filename := "" in
  let trace_fd := -1 in
  let flags := 2 in
  let direct_to_ddms := true in
  let p := mkProcess sample_runtime None kProfilerClockSourceDual in
  the_trace_ p = None /\
  kTraceHeaderLength <= 4096 /\
  (direct_to_ddms = true \/ 0 <= trace_fd \/
     is_Some (rt_open_file (runtime p) trace_filename)) /\
  let p1 := start trace_filename trace_fd 4096 flags direct_to_ddms p in
  let p2 := stop p1 in
  rt_stats_enabled (runtime p1)
  = rt_stats_enabled (runtime p) || (negb (flags =? 0) && negb (kTraceCountAllocs =? 0)) /\
  rt_stats_enabled (runtime p2)
  = (if Z.land flags kTraceCountAllocs =? 0
     then rt_stats_enabled (runtime p1)
     else false) /\
  the_trace_ p2 = None.
Proof.
  intros kTraceCountAllocs id meta start stop trace_filename trace_fd flags
    direct_to_ddms p.
  assert (H1 : the_trace_ p = None) by reflexivity.
  assert (H2 : direct_to_ddms = true \/ 0 <= trace_fd \/
                 is_Some (rt_open_file (runtime p) trace_filename))
    by (left; reflexivity).
  assert (Hsize : kTraceHeaderLength <= 4096) by (unfold kTraceHeaderLength; lia).
  exact (conj H1 (conj Hsize (conj H2
           (count_allocs_after_stop kTraceCountAllocs id meta meta meta meta ""
              trace_filename trace_fd 4096 flags direct_to_ddms p H1 Hsize H2)))).
Defined.

Lemma start_stop_empty_trace_witness :
  let id := fun s : string => s in
  let meta := fun _ : Z => "" in
  let start := Start 1 "" in
  let stop := Stop 1 id meta meta meta meta "" in
  let buffer_size := 4096 in
  let p := mkProcess sample_runtime_main None kProfilerClockSourceDual in
  the_trace_ p = None /\ trace_listeners (runtime p) = [] /\
  kTraceHeaderLength <= buffer_size /\
  let p2 := stop (start "" (-1) buffer_size 0 true p) in
  let cs := default_clock_source_ p in
  let start_time := (MicroTime (rt_clocks (runtime p))).1 in
  the_trace_ p2 = None /\
  default_clock_source_ p2 = cs /\
  rt_listeners (runtime p2) = rt_listeners (runtime p) /\
  rt_suspend_all (runtime p2) = rt_suspend_all (runtime p) /\
  rt_exception (runtime p2) = rt_exception (runtime p) /\
  rt_log (runtime p2) = rt_log (runtime p) /\
  exists header,
    rt_sink (runtime p2)
    = rt_sink (runtime p) ++ [DdmChunk "MPSE" header (spec_header cs start_time)].
Proof.
  intros id meta start stop buffer_size p.
  assert (H1 : the_trace_ p = None) by reflexivity.
  assert (H2 : trace_listeners (runtime p) = []) by reflexivity.
  assert (H3 : kTraceHeaderLength <= buffer_size)
    by (unfold kTraceHeaderLength, buffer_size; lia).
  exact (conj H1 (conj H2 (conj H3
           (start_stop_empty_trace 1 id meta meta meta meta "" buffer_size 0
              "" (-1) p H1 H2 H3)))).
Defined.

Lemma clock_source_of_next_session_witness :
  let HAVE_POSIX_CLOCKS := true in
  let start := Start 1 "" in
  let set_default := SetDefaultClockSource HAVE_POSIX_CLOCKS in
  let cs := kProfilerClockSourceThreadCpu in
  let trace_filename := "" in
  let trace_fd := 3 in
  let buffer_size := 4096 in
  let direct_to_ddms := false in
  let p := mkProcess sample_runtime None kProfilerClockSourceDual in
  kTraceHeaderLength <= buffer_size /\
  let p1 := set_default cs p in
  let chosen := if HAVE_POSIX_CLOCKS then cs else default_clock_source_ p in
  the_trace_ p1 = the_trace_ p /\
  default_clock_source_ p1 = chosen /\
  rt_log (runtime p1)
  = rt_log (runtime p)
    ++ (if HAVE_POSIX_CLOCKS then []
        else if decide (cs = kProfilerClockSourceWall) then []
        else [(WARNING, "Ignoring tracing request to use ")]) /\
  (the_trace_ p = None ->
   direct_to_ddms = true \/ 0 <= trace_fd \/
     is_Some (rt_open_file (runtime p) trace_filename) ->
   exists tr,
     the_trace_ (start trace_filename trace_fd buffer_size 0 direct_to_ddms p1)
     = Some tr /\
     clock_source_ tr = chosen /\
     le_value (bytes_at (buf_ tr) 4 2) = GetTraceVersion chosen /\
     GetRecordSize (clock_source_ tr)
     = (if decide (chosen = kProfilerClockSourceDual) then 14 else 10)).
Proof.
  intros HAVE_POSIX_CLOCKS start set_default cs trace_filename trace_fd
    buffer_size direct_to_ddms p.
  assert (H1 : kTraceHeaderLength <= buffer_size)
    by (unfold kTraceHeaderLength, buffer_size; lia).
  exact (conj H1
           (clock_source_of_next_session 1 HAVE_POSIX_CLOCKS "" cs
              trace_filename trace_fd buffer_size 0 direct_to_ddms p H1)).
Defined.

Lemma wall_clock_without_posix_clocks_witness :
  let HAVE_POSIX_CLOCKS := false in
  let id := fun s : string => s in
  let meta := fun _ : Z => "" in
  let calls_of := lifecycle 1 HAVE_POSIX_CLOCKS id meta meta meta meta "" in
  let calls := [CallSetDefaultClockSource kProfilerClockSourceDual;
                CallStart "" (-1) 4096 0 true] in
  let p := mkProcess sample_runtime None kProfilerClockSourceWall in
  HAVE_POSIX_CLOCKS = false /\
  default_clock_source_ p = initial_clock_source HAVE_POSIX_CLOCKS /\
  the_trace_ p = None /\
  let p' := calls_of calls p in
  default_clock_source_ p' = kProfilerClockSourceWall /\
  forall tr, the_trace_ p' = Some tr ->
    clock_source_ tr = kProfilerClockSourceWall /\
    UseThreadCpuClock tr = false /\ UseWallClock tr = true /\
    GetTraceVersion (clock_source_ tr) = 2 /\
    GetRecordSize (clock_source_ tr) = 10.
Proof.
  intros HAVE_POSIX_CLOCKS id meta calls_of calls p.
  assert (H1 : HAVE_POSIX_CLOCKS = false) by reflexivity.
  assert (H2 : default_clock_source_ p = initial_clock_source HAVE_POSIX_CLOCKS)
    by reflexivity.
  assert (H3 : the_trace_ p = None) by reflexivity.
  exact (conj H1 (conj H2 (conj H3
           (wall_clock_without_posix_clocks 1 HAVE_POSIX_CLOCKS id meta meta meta
              meta "" calls p H1 H2 H3)))).
Defined.

Lemma visited_methods_set_witness :
  let cs := kProfilerClockSourceDual in
  let bs := 4096 in
  let cbs := [OnMethodEntered sample_thread 0x10002040;
              OnMethodEntered sample_thread 0x10002000;
              OnMethodExited sample_thread 0x10002000;
              OnMethodUnwind sample_thread 0x10002040] in
  kTraceHeaderLength <= bs /\ bs + GetRecordSize cs <= INT32_MAX /\
  Forall (fun cb => method_ok (callback_method cb)) cbs /\
  let '(tr0, rt0) := Trace_new cs None bs 0 sample_runtime in
  let capacity := Z.to_nat ((bs - 32) / GetRecordSize cs) in
  exists tr rt',
    run cbs tr0 rt0 = Some (tr, rt') /\
    let visited := GetVisitedMethods tr (uint32_t (cur_offset_ tr)) in
    StronglySorted Z.lt visited /\ NoDup visited /\
    forall m, m ∈ visited <->
      exists cb, cb ∈ take capacity cbs /\ callback_method cb = m.
Proof.
  intros cs bs cbs.
  assert (H1 : kTraceHeaderLength <= bs) by (unfold kTraceHeaderLength, bs; lia).
  assert (H2 : bs + GetRecordSize cs <= INT32_MAX)
    by (change (GetRecordSize cs) with 14; unfold bs, INT32_MAX; lia).
  assert (H3 : Forall (fun cb => method_ok (callback_method cb)) cbs)
    by (repeat constructor; simpl; lia).
  exact (conj H1 (conj H2 (conj H3
           (visited_methods_set cs None bs 0 sample_runtime cbs H1 H2 H3)))).
Defined.

Lemma DumpBuf_lists_the_records_witness :
  let PrettyMethod := fun m : Z => pointer m in
  let cs := kProfilerClockSourceWall in
  let bs := 52 in
  let cbs := [OnMethodEntered sample_thread 0x10002040;
              OnMethodExited sample_thread 0x10002040;
              OnMethodUnwind sample_thread 0x10002000] in
  let rt2 := sample_runtime in
  kTraceHeaderLength <= bs /\ bs + GetRecordSize cs <= INT32_MAX /\
  Forall (fun cb => method_ok (callback_method cb)) cbs /\
  let '(tr0, rt0) := Trace_new cs None bs 0 sample_runtime in
  let capacity := Z.to_nat ((bs - 32) / GetRecordSize cs) in
  exists tr rt',
    run cbs tr0 rt0 = Some (tr, rt') /\
    let rt3 :=
      DumpBuf PrettyMethod (buf_ tr) (uint32_t (cur_offset_ tr)) (clock_source_ tr)
        rt2 in
    rt_log rt3
    = rt_log rt2
      ++ ((fun cb => dump_line PrettyMethod (callback_method cb) (callback_action cb))
          <$> take capacity cbs) /\
    rt3 = mkRuntime (rt_clocks rt2) (rt_log rt3) (rt_suspend_all rt2)
            (rt_stats_enabled rt2) (rt_allocated_objects rt2)
            (rt_allocated_bytes rt2) (rt_gc_invocations rt2) (rt_listeners rt2)
            (rt_thread_list rt2) (rt_exception rt2) (rt_open_file rt2)
            (rt_write_fully rt2) (rt_sink rt2).
Proof.
  intros PrettyMethod cs bs cbs rt2.
  assert (H1 : kTraceHeaderLength <= bs) by (unfold kTraceHeaderLength, bs; lia).
  assert (H2 : bs + GetRecordSize cs <= INT32_MAX)
    by (change (GetRecordSize cs) with 10; unfold bs, INT32_MAX; lia).
  assert (H3 : Forall (fun cb => method_ok (callback_method cb)) cbs)
    by (repeat constructor; simpl; lia).
  exact (conj H1 (conj H2 (conj H3
           (DumpBuf_lists_the_records PrettyMethod cs None bs 0 sample_runtime
              cbs rt2 H1 H2 H3)))).
Defined.

Lemma text_and_binary_header_agree_witness :
  let k := 1 in
  let id := fun s : string => s in
  let meta := fun _ : Z => "" in
  let header_of := TraceHeader k id meta meta meta meta in
  let cs := kProfilerClockSourceThreadCpu in
  let bs := 64 in
  let cbs := [OnMethodEntered sample_thread 0x10002000] in
  kTraceHeaderLength <= bs /\ bs + GetRecordSize cs <= INT32_MAX /\
  let '(tr0, rt0) := Trace_new cs None bs 0 sample_runtime in
  exists tr rt',
    run cbs tr0 rt0 = Some (tr, rt') /\
    let version := le_value (bytes_at (buf_ tr) 4 2) in
    let record_size := le_value (bytes_at (buf_ tr) 16 2) in
    (version = 3 <-> cs = kProfilerClockSourceDual) /\
    (version = 2 <-> cs <> kProfilerClockSourceDual) /\
    record_size = (if decide (cs = kProfilerClockSourceDual) then 14 else 0) /\
    forall elapsed final_offset clock_overhead rt2,
      let pieces := header_of tr elapsed final_offset clock_overhead rt2 in
      pieces !! 0%nat = Some ("*version" +:+ newline) /\
      pieces !! 1%nat = Some (decimal version +:+ newline) /\
      pieces !! 3%nat = Some ("clock=" +:+ clock_name cs +:+ newline) /\
      pieces !! 7%nat = Some ("vm=art" +:+ newline) /\
      last pieces = Some ("*end" +:+ newline).
Proof.
  intros k id meta header_of cs bs cbs.
  assert (H1 : kTraceHeaderLength <= bs) by (unfold kTraceHeaderLength, bs; lia).
  assert (H2 : bs + GetRecordSize cs <= INT32_MAX)
    by (change (GetRecordSize cs) with 10; unfold bs, INT32_MAX; lia).
  exact (conj H1 (conj H2
           (text_and_binary_header_agree k id meta meta meta meta cs None bs 0
              sample_runtime cbs H1 H2))).
Defined.

Lemma kth_record_witness :
  let cs := kProfilerClockSourceDual in
  let bs := 4096 in
  let cbs := [OnMethodEntered sample_thread 0x10002000;
              OnMethodExited sample_thread 0x10002000] in
  let k := 1%nat in
  let cb := OnMethodExited sample_thread 0x10002000 in
  kTraceHeaderLength <= bs /\ bs + GetRecordSize cs <= INT32_MAX /\
  cbs !! k = Some cb /\
  (k < Z.to_nat ((bs - 32) / GetRecordSize cs))%nat /\
  let '(tr0, rt0) := Trace_new cs None bs 0 sample_runtime in
  exists tr rt',
    run cbs tr0 rt0 = Some (tr, rt') /\
    let p := 32 + GetRecordSize cs * Z.of_nat k in
    let c := rt_clocks sample_runtime in
    record_tid (buf_ tr) p = uint16_t (GetTid (callback_thread cb)) /\
    record_tmid (buf_ tr) p = callback_tmid cb /\
    (cs <> kProfilerClockSourceThreadCpu ->
     le_value (bytes_at (buf_ tr) (p + GetRecordSize cs - 4) 4)
     = uint32_t (wall_clock c (wall_reads c + 1 + k)
                 - wall_clock c (wall_reads c))).
Proof.
  intros cs bs cbs k cb.
  assert (H1 : kTraceHeaderLength <= bs) by (unfold kTraceHeaderLength, bs; lia).
  assert (H2 : bs + GetRecordSize cs <= INT32_MAX)
    by (change (GetRecordSize cs) with 14; unfold bs, INT32_MAX; lia).
  assert (H3 : cbs !! k = Some cb) by reflexivity.
  assert (H4 : (k < Z.to_nat ((bs - 32) / GetRecordSize cs))%nat)
    by (vm_compute; lia).
  exact (conj H1 (conj H2 (conj H3 (conj H4
           (kth_record cs None bs 0 sample_runtime cbs k cb H1 H2 H3 H4))))).
Defined.
